(** * Datastream decomposition and composition (src/DS/ids.c)

    A shallow embedding of the SCAP source-datastream splitter of
    OpenSCAP, [src/DS/ids.c], and the properties of it that the design
    document states.

    The XML tree is the data model.  The functions that only read the
    parsed document ([node_get_child_element], [ds_ids_find_component_ref],
    [ds_ids_dump_component], [ds_ids_dump_component_ref_as],
    [ds_ids_dump_component_ref], [ds_ids_decompose]) are modelled over tree
    values; what they do to the outside world (the error sink, [mkdir],
    [xmlSaveFileEnc]) is recorded as a trace of events.  Undefined
    behaviour of the C code and unbounded recursion are explicit outcomes.
    The one place where the C code clones and then mutates nodes
    ([ds_ids_dump_component]) is modelled a second time over a node store,
    in [Module Store], to state the frame property of the clone. *)

From Stdlib Require Import ZArith Ascii String List Lia.
From stdpp Require Import base tactics option list relations sets strings gmap.

Local Open Scope string_scope.
Local Open Scope list_scope.

(** ** C strings *)

(** [s + 1 * sizeof(char)]: the string one character further.  The source
    only does this after checking [strlen(s) >= 2]. *)
Definition str_next (s : string) : string :=
  match s with
  | EmptyString => EmptyString
  | String _ t => t
  end.

(** [s + n]: pointer arithmetic on a string, for [n] within it. *)
Fixpoint str_offset (n : nat) (s : string) : string :=
  match n, s with
  | O, _ => s
  | S n', String _ t => str_offset n' t
  | S _, EmptyString => EmptyString
  end.

(** [strlen] returns a [size_t], here 64 bits wide. *)
Definition size_t_modulus : Z := 2 ^ 64.
Definition strlen (s : string) : Z := Z.of_nat (String.length s) mod size_t_modulus.

(** Conversion of an unsigned value to a 32-bit [int] (two's complement). *)
Definition to_int (z : Z) : Z := (z + 2 ^ 31) mod 2 ^ 32 - 2 ^ 31.

(** [strcmp(a, b) == 0] *)
Definition streq (a b : string) : bool := String.eqb a b.

(** ** The document tree (libxml2's [xmlNode])

    An element has a name, the namespace it is bound to, its attributes in
    document order and its children in document order.  Every other node
    kind (text, comment, CDATA, processing instruction) is an [XOther]: the
    code skips whatever is not [XML_ELEMENT_NODE].  The position of the
    [xmlns] declarations is not represented: each element carries the
    namespace it resolves to, so trees are compared namespace-normalised. *)

Record xmlNs := mkNs { ns_href : string; ns_prefix : string }.

#[warnings="-register-all"]
Inductive xmlNode :=
| XElement (name : string) (ns : option xmlNs)
           (properties : list (string * string)) (children : list xmlNode)
| XOther (content : string).

Definition is_element (n : xmlNode) : bool :=
  match n with XElement _ _ _ _ => true | XOther _ => false end.

Definition node_name (n : xmlNode) : string :=
  match n with XElement name _ _ _ => name | XOther _ => "text" end.

Definition node_children (n : xmlNode) : list xmlNode :=
  match n with XElement _ _ _ ch => ch | XOther _ => [] end.

Definition node_properties (n : xmlNode) : list (string * string) :=
  match n with XElement _ _ props _ => props | XOther _ => [] end.

(** Modelled from the spec: [xmlGetProp(node, name)] of the document
    adapter (section 6, attribute get), libxml2: the value of the first
    attribute of that name, whatever its namespace; [None] is the C
    [NULL]. *)
Fixpoint lookup_prop (name : string) (props : list (string * string)) : option string :=
  match props with
  | [] => None
  | (k, v) :: rest => if streq k name then Some v else lookup_prop name rest
  end.

Definition xmlGetProp (node : xmlNode) (name : string) : option string :=
  lookup_prop name (node_properties node).

(** [!s || strlen(s) < 2] *)
Definition null_or_short (s : option string) : bool :=
  match s with
  | None => true
  | Some v => (strlen v <? 2)%Z
  end.

(** [node_get_child_element(parent, name)]: the first element child, or
    the first element child of that name when [name] is not [NULL]. *)
Fixpoint first_child_element (candidates : list xmlNode) (name : option string) : option xmlNode :=
  match candidates with
  | [] => None
  | candidate :: next =>
      if negb (is_element candidate) then first_child_element next name
      else match name with
           | Some n =>
               if negb (streq (node_name candidate) n) then first_child_element next name
               else Some candidate
           | None => Some candidate
           end
  end.

Definition node_get_child_element (parent : xmlNode) (name : option string) : option xmlNode :=
  first_child_element (node_children parent) name.

(** ** Outcomes and the trace of effects *)

(** What a call can come to: it returns, it runs into behaviour the C
    standard leaves undefined, or the model's recursion budget is used up
    (the C recursion is deeper than the budget). *)
Inductive outcome (A : Type) :=
| Ret (a : A)
| Undefined
| OutOfFuel.
Arguments Ret {A} a.
Arguments Undefined {A}.
Arguments OutOfFuel {A}.

Inductive oscap_efamily := OSCAP_EFAMILY_XML.

(** The calls that leave the program.  [SeterrFreed] is [oscap_seterr]
    with a message that [oscap_sprintf] has formatted, through its [%s],
    from a string that was freed just before: which characters are found
    there is not decided by the program, so the event keeps the format and
    what the string held when it was freed, and no message. *)
Inductive event :=
| Seterr (family : oscap_efamily) (code : Z) (msg : string)
| SeterrFreed (family : oscap_efamily) (code : Z) (format : string) (freed : string)
| Mkdir (path : string)
| SaveFileEnc (filename : string) (root : xmlNode) (encoding : string).

(** A computation: the events it performed, in order, and its outcome. *)
Definition M (A : Type) : Type := list event * outcome A.

Definition emit (e : event) : M unit := ([e], Ret tt).
Definition undefined {A} : M A := ([], Undefined).
Definition out_of_fuel {A} : M A := ([], OutOfFuel).

(** Sequencing stops at the first call that does not return; the events
    performed so far stay in the trace. *)
Definition bind {A B} (f : A -> M B) (m : M A) : M B :=
  match m with
  | (t, Ret a) => let (t', o) := f a in (t ++ t', o)
  | (t, Undefined) => (t, Undefined)
  | (t, OutOfFuel) => (t, OutOfFuel)
  end.

#[global] Instance M_ret : MRet M := fun A a => ([], Ret a).
#[global] Instance M_bind : MBind M := @bind.

Definition lift {A} (o : outcome A) : M A := ([], o).

(** A [for] loop over sibling nodes; [continue] is the body returning. *)
Fixpoint for_each (nodes : list xmlNode) (body : xmlNode -> M unit) : M unit :=
  match nodes with
  | [] => mret tt
  | n :: next => body n ;; for_each next body
  end.

(** Modelled from the spec: [oscap_seterr] of the error-reporting sink
    (section 1, an external collaborator): the error is recorded as an
    event and the call returns. *)
Definition oscap_seterr (family : oscap_efamily) (code : Z) (msg : string) : M unit :=
  emit (Seterr family code msg).

(** The same, for a message formatted from a freed string. *)
Definition oscap_seterr_freed (family : oscap_efamily) (code : Z) (format freed : string)
  : M unit :=
  emit (SeterrFreed family code format freed).

Definition trace {A} (m : M A) : list event := fst m.
Definition result {A} (m : M A) : outcome A := snd m.

(** The files a trace wrote, in order. *)
Definition saved (t : list event) : list (string * xmlNode) :=
  flat_map (fun e => match e with SaveFileEnc f d _ => [(f, d)] | _ => [] end) t.

(** ** Path utilities *)

Definition MAXPATHLEN : Z := 1024.

Definition is_slash (c : ascii) : bool := Ascii.eqb c "/".

(** [mkdir_p(path)]: one [mkdir] for every prefix of [path] that ends
    before a ['/'] or at the end of the string; the result of each [mkdir]
    is dropped.  A path longer than [MAXPATHLEN] creates nothing and
    returns 1. *)
Definition mkdir_p_step (path : string) (i : nat) : list event :=
  match String.get i path with
  | Some c => if is_slash c then [Mkdir (String.substring 0 i path)] else []
  | None => [Mkdir (String.substring 0 i path)]
  end.

Definition mkdir_p (path : string) : M Z :=
  if (MAXPATHLEN <? strlen path)%Z then mret 1%Z
  else (flat_map (mkdir_p_step path) (seq 0 (S (String.length path))), Ret 0%Z).

Fixpoint drop_while (p : ascii -> bool) (l : list ascii) : list ascii :=
  match l with
  | [] => []
  | c :: l' => if p c then drop_while p l' else l
  end.

Fixpoint take_while (p : ascii -> bool) (l : list ascii) : list ascii :=
  match l with
  | [] => []
  | c :: l' => if p c then c :: take_while p l' else []
  end.

Definition not_slash (c : ascii) : bool := negb (is_slash c).

(** Modelled from the spec: [dirname] of <libgen.h>, which the source
    calls and does not define; section 4.1 of the design document gives it
    POSIX semantics (trailing slashes collapsed, [.] for a path with no
    directory part).  The string is scanned from its end, as the C library
    does: drop the trailing slashes, drop the last component, drop the
    slashes before it. *)
Definition dirname (path : string) : string :=
  let r := rev (list_ascii_of_string path) in
  match drop_while is_slash r with
  | [] =>
      match r with
      | [] => "."
      | [_; _] => "//"
      | _ => "/"
      end
  | r0 =>
      match drop_while not_slash r0 with
      | [] => "."
      | r1 =>
          match drop_while is_slash r1 with
          | [] => match r1 with [_; _] => "//" | _ => "/" end
          | r2 => string_of_list_ascii (rev r2)
          end
      end
  end.

(** Modelled from the spec: [basename], which the source calls and does not
    define.  The source includes <libgen.h>, which selects the POSIX
    [basename], and section 4.1 of the design document says POSIX as well:
    the last component after the trailing slashes are dropped, [.] for the
    empty string, [/] for a string of slashes. *)
Definition basename (path : string) : string :=
  let r := rev (list_ascii_of_string path) in
  match r with
  | [] => "."
  | _ =>
      match drop_while is_slash r with
      | [] => "/"
      | r0 => string_of_list_ascii (rev (take_while not_slash r0))
      end
  end.

(** The GNU variant of [basename], which the comment in
    [ds_ids_dump_component_ref_as] speaks of: what follows the last
    slash.  It differs from the POSIX one only on the empty string and on
    strings that end in a slash ([basename_gnu_posix] below). *)
Definition basename_gnu (path : string) : string :=
  string_of_list_ascii (rev (take_while not_slash (rev (list_ascii_of_string path)))).

(** The last component of a path, and what comes before it, both read from
    the end of the path as [dirname] and [basename] do. *)
Definition rev_last_component (path : string) : list ascii :=
  take_while not_slash (drop_while is_slash (rev (list_ascii_of_string path))).

Definition rev_before_last (path : string) : list ascii :=
  drop_while not_slash (drop_while is_slash (rev (list_ascii_of_string path))).

(** The parts of a path between its slashes. *)
Fixpoint split_slash (l : list ascii) : list (list ascii) :=
  match l with
  | [] => [[]]
  | c :: l' =>
      if is_slash c then [] :: split_slash l'
      else match split_slash l' with
           | segment :: segments => (c :: segment) :: segments
           | [] => [[c]]
           end
  end.

Definition is_dot (segment : list ascii) : bool :=
  match segment with
  | [c] => Ascii.eqb c "."
  | _ => false
  end.

Definition keep_segment (segment : list ascii) : bool :=
  match segment with
  | [] => false
  | _ => negb (is_dot segment)
  end.

Definition components (l : list ascii) : list (list ascii) :=
  List.filter keep_segment (split_slash l).

(** The components of a path as the file system resolves it: the parts
    between slashes, without the empty ones (doubled, leading or trailing
    slashes) and without the [.] ones.  Two relative paths with the same
    components name the same file. *)
Definition path_components (path : string) : list string :=
  map string_of_list_ascii (components (list_ascii_of_string path)).

(** ** The document adapter (libxml2), as far as the code uses it *)

(** A parsed document is given by its root element. *)
Definition xmlDoc : Type := xmlNode.
Definition xmlDocGetRootElement (doc : xmlDoc) : xmlNode := doc.

(** Modelled from the spec: [xmlDOMWrapCloneNode(ctxt, doc, node, &res,
    new_doc, NULL, 1, 0)] of the document adapter (section 6, subtree
    deep-clone into a foreign document): a deep copy of [node] for another
    document.  Over tree values the copy is the tree itself; [Module Store]
    models the copy node by node, and [store_dump_refines] relates the
    two. *)
Definition xmlDOMWrapCloneNode (node : xmlNode) : xmlNode := node.

(** Modelled from the spec: [xmlDOMWrapReconcileNamespaces(ctxt, node, 0)]
    of the document adapter (section 6, namespace reconciliation) moves
    namespace declarations so that the subtree is self-contained; the
    namespace each element is bound to stays what it was. *)
Definition xmlDOMWrapReconcileNamespaces (node : xmlNode) : xmlNode := node.

(** ** Component-ref locator *)

(** The inner loop of [ds_ids_find_component_ref], over the children of
    one container.  [strcmp(cref_id, id)] with [cref_id == NULL] is
    undefined. *)
Fixpoint find_component_ref_in (component_refs : list xmlNode) (id : string)
  : outcome (option xmlNode) :=
  match component_refs with
  | [] => Ret None
  | component_ref :: next =>
      if negb (is_element component_ref) then find_component_ref_in next id
      else if negb (streq (node_name component_ref) "component-ref")
      then find_component_ref_in next id
      else match xmlGetProp component_ref "id" with
           | None => Undefined
           | Some cref_id =>
               if streq cref_id id then Ret (Some component_ref)
               else find_component_ref_in next id
           end
  end.

(** The outer loop, over the children of the datastream. *)
Fixpoint find_component_ref_under (cref_parents : list xmlNode) (id : string)
  : outcome (option xmlNode) :=
  match cref_parents with
  | [] => Ret None
  | cref_parent :: next =>
      if negb (is_element cref_parent) then find_component_ref_under next id
      else match find_component_ref_in (node_children cref_parent) id with
           | Ret None => find_component_ref_under next id
           | found_or_undefined => found_or_undefined
           end
  end.

Definition ds_ids_find_component_ref (doc : xmlDoc) (datastream : xmlNode) (id : string)
  : outcome (option xmlNode) :=
  find_component_ref_under (node_children datastream) id.

(** ** Component locator and dump *)

(** The scan of [ds_ids_dump_component] over the children of the root.
    [strcmp(candidate_id, component_id)] with [candidate_id == NULL] is
    undefined. *)
Fixpoint find_component (candidates : list xmlNode) (component_id : string)
  : outcome (option xmlNode) :=
  match candidates with
  | [] => Ret None
  | candidate :: next =>
      if negb (is_element candidate) then find_component next component_id
      else if negb (streq (node_name candidate) "component")
      then find_component next component_id
      else match xmlGetProp candidate "id" with
           | None => Undefined
           | Some candidate_id =>
               if streq candidate_id component_id then Ret (Some candidate)
               else find_component next component_id
           end
  end.

Definition ds_ids_dump_component (component_id : string) (doc : xmlDoc) (filename : string)
  : M unit :=
  let root := xmlDocGetRootElement doc in
  component ← lift (find_component (node_children root) component_id);
  match component with
  | None =>
      oscap_seterr OSCAP_EFAMILY_XML 0
        ("Component of given id '" +:+ component_id +:+ "' was not found in the document.")
  | Some component =>
      match node_get_child_element component None with
      | None =>
          oscap_seterr OSCAP_EFAMILY_XML 0
            ("Found component (id='" +:+ component_id
             +:+ "') but it has no element contents, nothing to dump, skipping...")
      | Some inner_root =>
          let res_node := xmlDOMWrapCloneNode inner_root in
          let new_doc := xmlDOMWrapReconcileNamespaces res_node in
          emit (SaveFileEnc filename new_doc "utf-8")
      end
  end.

(** ** Decomposer *)

Definition is_named_element (node : xmlNode) (name : string) : bool :=
  is_element node && streq (node_name node) name.

(** [ds_ids_dump_component_ref_as].  The C function calls itself for every
    catalog entry that resolves; [fuel] bounds the depth of these calls.
    When an entry does not resolve, the C code builds its error message
    from [str_uri + 1] after [xmlFree(str_uri)], sets the error and goes
    on with the next entry. *)
Fixpoint ds_ids_dump_component_ref_as (fuel : nat) (component_ref : xmlNode) (doc : xmlDoc)
    (datastream : xmlNode) (target_dir filename : string) : M unit :=
  match fuel with
  | O => out_of_fuel
  | S fuel' =>
      match xmlGetProp component_ref "id" with
      | None =>
          oscap_seterr OSCAP_EFAMILY_XML 0 "No or invalid id attribute on given component-ref."
      | Some cref_id =>
          let xlink_href := xmlGetProp component_ref "href" in
          if null_or_short xlink_href then
            oscap_seterr OSCAP_EFAMILY_XML 0
              "No or invalid xlink:href attribute on given component-ref."
          else
            let component_id := str_next (default EmptyString xlink_href) in
            let filename_cpy := "./" +:+ filename in
            let file_reldir := dirname filename_cpy in
            let file_basename := basename filename in
            let target_filename_dirname := target_dir +:+ "/" +:+ file_reldir in
            mkdir_p target_filename_dirname;;
            let target_filename :=
              target_dir +:+ "/" +:+ file_reldir +:+ "/" +:+ file_basename in
            ds_ids_dump_component component_id doc target_filename;;
            match node_get_child_element component_ref (Some "catalog") with
            | None => mret tt
            | Some catalog =>
                for_each (node_children catalog) (fun uri =>
                  if negb (is_element uri) then mret tt
                  else if negb (streq (node_name uri) "uri") then mret tt
                  else
                    match xmlGetProp uri "name" with
                    | None =>
                        oscap_seterr OSCAP_EFAMILY_XML 0
                          "No or invalid name for a component referenced in the catalog. Skipping..."
                    | Some name =>
                        let str_uri := xmlGetProp uri "uri" in
                        if null_or_short str_uri then
                          oscap_seterr OSCAP_EFAMILY_XML 0
                            "No or invalid URI for a component referenced in the catalog. Skipping..."
                        else
                          cat_component_ref ←
                            lift (ds_ids_find_component_ref doc datastream
                                    (str_next (default EmptyString str_uri)));
                          match cat_component_ref with
                          | None =>
                              oscap_seterr_freed OSCAP_EFAMILY_XML 0
                                "component-ref with given id '%s' wasn't found in the document!"
                                (str_next (default EmptyString str_uri))
                          | Some cat_component_ref =>
                              ds_ids_dump_component_ref_as fuel' cat_component_ref doc
                                datastream target_filename_dirname name
                          end
                    end)
            end
      end
  end.

Definition ds_ids_dump_component_ref (fuel : nat) (component_ref : xmlNode) (doc : xmlDoc)
    (datastream : xmlNode) (target_dir : string) : M unit :=
  let xlink_href := xmlGetProp component_ref "href" in
  if null_or_short xlink_href then
    oscap_seterr OSCAP_EFAMILY_XML 0
      "No or invalid xlink:href attribute on given component-ref."
  else
    ds_ids_dump_component_ref_as fuel component_ref doc datastream target_dir
      (str_next (default EmptyString xlink_href)).

(** The datastream selection loop of [ds_ids_decompose]; [id = None] is the
    C [NULL]: take the first [data-stream] element. *)
Fixpoint select_datastream (candidates : list xmlNode) (id : option string) : option xmlNode :=
  match candidates with
  | [] => None
  | candidate_datastream :: next =>
      if negb (is_element candidate_datastream) then select_datastream next id
      else if negb (streq (node_name candidate_datastream) "data-stream")
      then select_datastream next id
      else
        let candidate_id := xmlGetProp candidate_datastream "id" in
        match id, candidate_id with
        | None, _ => Some candidate_datastream
        | Some i, Some c =>
            if streq i c then Some candidate_datastream else select_datastream next id
        | Some _, None => select_datastream next id
        end
  end.

(** The loop of [ds_ids_decompose] over the children of [checklists]. *)
Definition dump_checklists (fuel : nat) (component_refs : list xmlNode) (doc : xmlDoc)
    (datastream : xmlNode) (target_dir : string) : M unit :=
  for_each component_refs (fun component_ref =>
    if negb (is_element component_ref) then mret tt
    else if negb (streq (node_name component_ref) "component-ref") then mret tt
    else
      ds_ids_dump_component_ref fuel component_ref doc datastream
        (if streq target_dir EmptyString then "." else target_dir)).

Section Decompose.

(** Modelled from the spec: [xmlReadFile(input_file, NULL, 0)] of the
    document adapter (section 6, parsing): the parsed document, or no
    document and the code of [xmlGetLastError()] when there is one. *)
Variable xmlReadFile : string -> xmlDoc + option Z.

Definition ds_ids_decompose (fuel : nat) (input_file : string) (id : option string)
    (target_dir : string) : M unit :=
  match xmlReadFile input_file with
  | inr last_error =>
      oscap_seterr OSCAP_EFAMILY_XML (default 0%Z last_error)
        ("Could not read/parse XML of given input file at path '" +:+ input_file +:+ "'.")
  | inl doc =>
      let root := xmlDocGetRootElement doc in
      match select_datastream (node_children root) id with
      | None =>
          oscap_seterr OSCAP_EFAMILY_XML 0
            match id with
            | Some i => "Could not find any datastream of id '" +:+ i +:+ "'"
            | None => "Could not find any datastream inside the file"
            end
      | Some datastream =>
          match node_get_child_element datastream (Some "checklists") with
          | None =>
              oscap_seterr OSCAP_EFAMILY_XML 0
                "No checklists element found in the matching datastream."
          | Some checklists =>
              dump_checklists fuel (node_children checklists) doc datastream target_dir
          end
      end
  end.

End Decompose.

(** ** Composer *)

Definition datastream_ns_uri : string := "http://scap.nist.gov/schema/scap/source/1.2".

(** [strendswith]: [str_shift] is an [int] that receives a difference of
    two [size_t]. *)
Definition strendswith (str suffix : string) : bool :=
  let str_shift := to_int ((strlen str - strlen suffix) mod size_t_modulus) in
  if (str_shift <? 0)%Z then false
  else streq (str_offset (Z.to_nat str_shift) str) suffix.

(** Modelled from the spec: [xmlNewNode(ns, name)] of the document adapter
    (section 6, namespace-aware node creation): an element without
    attributes and children. *)
Definition xmlNewNode (ns : option xmlNs) (name : string) : xmlNode :=
  XElement name ns [] [].

(** Modelled from the spec: [xmlSetProp(node, name, value)] of the document
    adapter (section 6, attribute set): replace the value of the attribute
    or add the attribute at the end. *)
Fixpoint set_prop (name value : string) (props : list (string * string))
  : list (string * string) :=
  match props with
  | [] => [(name, value)]
  | (k, v) :: rest =>
      if streq k name then (k, value) :: rest else (k, v) :: set_prop name value rest
  end.

Definition xmlSetProp (node : xmlNode) (name value : string) : xmlNode :=
  match node with
  | XElement n ns props ch => XElement n ns (set_prop name value props) ch
  | XOther c => XOther c
  end.

(** Modelled from the spec: [xmlSetNs(node, ns)] of the document adapter
    binds the node to the namespace. *)
Definition xmlSetNs (node : xmlNode) (ns : option xmlNs) : xmlNode :=
  match node with
  | XElement n _ props ch => XElement n ns props ch
  | XOther c => XOther c
  end.

(** Modelled from the spec: [xmlAddChild(parent, cur)] of the document
    adapter, for an element [cur]: [cur] becomes the last child of
    [parent]. *)
Definition xmlAddChild (parent cur : xmlNode) : xmlNode :=
  match parent with
  | XElement n ns props ch => XElement n ns props (ch ++ [cur])
  | XOther c => XOther c
  end.

(** The C code gets a pointer to a child with [node_get_child_element] and
    changes the child through it.  Over tree values: the first element
    child of that name is replaced by its changed version; when there is no
    such child the pointer is [NULL], [xmlAddChild(NULL, cur)] does nothing
    and the parent stays as it is. *)
Fixpoint update_first_child_element (candidates : list xmlNode) (name : string)
    (f : xmlNode -> xmlNode) : list xmlNode :=
  match candidates with
  | [] => []
  | candidate :: next =>
      if is_named_element candidate name then f candidate :: next
      else candidate :: update_first_child_element next name f
  end.

Definition add_to_child_element (parent : xmlNode) (name : string) (cur : xmlNode) : xmlNode :=
  match parent with
  | XElement n ns props ch =>
      XElement n ns props
        (update_first_child_element ch name (fun cref_parent => xmlAddChild cref_parent cur))
  | XOther c => XOther c
  end.

Section Compose.

(** Modelled from the spec: [xmlSearchNsByHref(doc, node, href)] of the
    document adapter looks for a declaration of the namespace on [node] and
    on its ancestors.  A tree value does not hold
    its ancestors, so the result of the search is left open; it only
    decides the namespace of the nodes the composer creates. *)
Variable xmlSearchNsByHref : xmlNode -> string -> option xmlNs.

(** [ds_ids_compose_add_component_with_ref(doc, datastream, filepath,
    cref_id)]; the result is the datastream after the call.  The source
    attaches the catalog with [xmlAddNode], which libxml2 does not have;
    modelled from the spec (4.5, "attaches an empty catalog child") as
    [xmlAddChild]. *)
Definition ds_ids_compose_add_component_with_ref (datastream : xmlNode)
    (filepath cref_id : string) : xmlNode :=
  let ds_ns := xmlSearchNsByHref datastream datastream_ns_uri in
  let cref := xmlNewNode ds_ns "component-ref" in
  let cref := xmlSetProp cref "id" cref_id in
  let xlink_href := "#" +:+ filepath in
  let cref := xmlSetProp cref "href" xlink_href in
  let cref_catalog := xmlNewNode ds_ns "catalog" in
  let cref := xmlAddChild cref cref_catalog in
  if strendswith filepath "-xccdf.xml" then
    add_to_child_element datastream "checklists" cref
  else if strendswith filepath "-oval.xml" then
    add_to_child_element datastream "checks" cref
  else if strendswith filepath "-cpe-oval.xml" || strendswith filepath "-cpe-dictionary.xml" then
    add_to_child_element datastream "dictionaries" cref
  else
    add_to_child_element datastream "extended-components" cref.

End Compose.

Section ComposeFromXccdf.

(** A document under construction, as far as [ds_ids_compose_from_xccdf]
    gets: its root element, if it has been given one. *)
Definition new_document : Type := option xmlNode.

(** Modelled from the spec: [xmlNewDoc(version)] of the document adapter: a
    document without root element. *)
Definition xmlNewDoc (version : string) : new_document := None.

(** [ds_ids_compose_from_xccdf] calls
    [ds_ids_add_component_with_ref(doc, xccdf_file, xccdf_file)], a
    function of three arguments that the source defines nowhere; the
    composer it does define, [ds_ids_compose_add_component_with_ref], has
    four.  The callee is a parameter here: any function of the document it
    is given. *)
Variable ds_ids_add_component_with_ref : new_document -> string -> string -> new_document.

(** [ds_ids_compose_from_xccdf].  The function has no [return]; the result
    here is what it has built when it ends: the document as the callee
    leaves it, and the tree at the local [root].  [root] is never made the
    root element of [doc] (there is no [xmlDocSetRootElement]), its nodes
    are created outside of any document, and the callee is given [doc]
    only: no pointer it gets leads to [root], so the tree at [root] is as
    it was before the call.  [xmlNewNs(root, uri, "ds")] followed by
    [xmlSetNs] binds [root] to the namespace. *)
Definition ds_ids_compose_from_xccdf (xccdf_file target_datastream : string)
  : new_document * xmlNode :=
  let doc := xmlNewDoc "utf-8" in
  let root := xmlNewNode None "data-stream-collection" in
  let ds_ns := Some (mkNs datastream_ns_uri "ds") in
  let root := xmlSetNs root ds_ns in
  let dictionaries := xmlNewNode ds_ns "dictionaries" in
  let root := xmlAddChild root dictionaries in
  let checklists := xmlNewNode ds_ns "checklists" in
  let root := xmlAddChild root checklists in
  let checks := xmlNewNode ds_ns "checks" in
  let root := xmlAddChild root checks in
  let extended_components := xmlNewNode ds_ns "extended-components" in
  let root := xmlAddChild root extended_components in
  let doc := ds_ids_add_component_with_ref doc xccdf_file xccdf_file in
  (doc, root).

End ComposeFromXccdf.

(** The component-ref elements among some children, in document order. *)
Definition component_refs_of (nodes : list xmlNode) : list xmlNode :=
  List.filter (fun n => is_named_element n "component-ref") nodes.

(** The component-refs a container of the datastream holds; [[]] when the
    datastream has no such container. *)
Definition container_refs (datastream : xmlNode) (name : string) : list xmlNode :=
  match node_get_child_element datastream (Some name) with
  | Some container => component_refs_of (node_children container)
  | None => []
  end.

(** ** What the locators scan *)

(** The nodes [ds_ids_find_component_ref] compares ids of, in the order it
    visits them: the component-ref children of every element child of the
    datastream. *)
Definition scanned_component_refs (datastream : xmlNode) : list xmlNode :=
  flat_map (fun cref_parent =>
              if is_element cref_parent then component_refs_of (node_children cref_parent)
              else [])
           (node_children datastream).

(** The nodes [ds_ids_dump_component] compares ids of: the component
    children of the root. *)
Definition scanned_components (doc : xmlDoc) : list xmlNode :=
  List.filter (fun n => is_named_element n "component")
              (node_children (xmlDocGetRootElement doc)).

Definition has_id (node : xmlNode) : bool :=
  match xmlGetProp node "id" with Some _ => true | None => false end.

Definition id_is (id : string) (node : xmlNode) : bool :=
  match xmlGetProp node "id" with Some v => streq v id | None => false end.

(** The nodes scanned before the first one whose id is [id]. *)
Fixpoint before_first_match (id : string) (nodes : list xmlNode) : list xmlNode :=
  match nodes with
  | [] => []
  | n :: next => if id_is id n then [] else n :: before_first_match id next
  end.

(** The first node whose id is [id]. *)
Fixpoint first_match (id : string) (nodes : list xmlNode) : option xmlNode :=
  match nodes with
  | [] => None
  | n :: next => if id_is id n then Some n else first_match id next
  end.

(** The id scan both locators share, over the nodes they compare. *)
Fixpoint scan_ids (nodes : list xmlNode) (id : string) : outcome (option xmlNode) :=
  match nodes with
  | [] => Ret None
  | n :: next =>
      match xmlGetProp n "id" with
      | None => Undefined
      | Some v => if streq v id then Ret (Some n) else scan_ids next id
      end
  end.


(** ** The recursion of [ds_ids_dump_component_ref_as] *)

(** One turn of the catalog loop, with the recursive call as a parameter
    [self]. *)
Definition dump_catalog_entry (self : xmlNode -> string -> string -> M unit)
    (doc : xmlDoc) (datastream : xmlNode) (target_filename_dirname : string) (uri : xmlNode)
  : M unit :=
  if negb (is_element uri) then mret tt
  else if negb (streq (node_name uri) "uri") then mret tt
  else
    match xmlGetProp uri "name" with
    | None =>
        oscap_seterr OSCAP_EFAMILY_XML 0
          "No or invalid name for a component referenced in the catalog. Skipping..."
    | Some name =>
        let str_uri := xmlGetProp uri "uri" in
        if null_or_short str_uri then
          oscap_seterr OSCAP_EFAMILY_XML 0
            "No or invalid URI for a component referenced in the catalog. Skipping..."
        else
          cat_component_ref ←
            lift (ds_ids_find_component_ref doc datastream
                    (str_next (default EmptyString str_uri)));
          match cat_component_ref with
          | None =>
              oscap_seterr_freed OSCAP_EFAMILY_XML 0
                "component-ref with given id '%s' wasn't found in the document!"
                (str_next (default EmptyString str_uri))
          | Some cat_component_ref =>
              self cat_component_ref target_filename_dirname name
          end
    end.

(** The body of [ds_ids_dump_component_ref_as], with the recursive call as
    a parameter; [dump_component_ref_as_unfold] below states that the
    function is this body applied to itself with one unit of fuel less. *)
Definition dump_component_ref_body (self : xmlNode -> string -> string -> M unit)
    (component_ref : xmlNode) (doc : xmlDoc) (datastream : xmlNode)
    (target_dir filename : string) : M unit :=
  match xmlGetProp component_ref "id" with
  | None =>
      oscap_seterr OSCAP_EFAMILY_XML 0 "No or invalid id attribute on given component-ref."
  | Some cref_id =>
      let xlink_href := xmlGetProp component_ref "href" in
      if null_or_short xlink_href then
        oscap_seterr OSCAP_EFAMILY_XML 0
          "No or invalid xlink:href attribute on given component-ref."
      else
        let component_id := str_next (default EmptyString xlink_href) in
        let file_reldir := dirname ("./" +:+ filename) in
        let file_basename := basename filename in
        let target_filename_dirname := target_dir +:+ "/" +:+ file_reldir in
        mkdir_p target_filename_dirname;;
        ds_ids_dump_component component_id doc
          (target_dir +:+ "/" +:+ file_reldir +:+ "/" +:+ file_basename);;
        match node_get_child_element component_ref (Some "catalog") with
        | None => mret tt
        | Some catalog =>
            for_each (node_children catalog)
              (dump_catalog_entry self doc datastream target_filename_dirname)
        end
  end.

(** The component-ref a catalog entry makes the function call itself on,
    if any. *)
Definition catalog_entry_target (doc : xmlDoc) (datastream : xmlNode) (uri : xmlNode)
  : option xmlNode :=
  if is_named_element uri "uri" then
    match xmlGetProp uri "name" with
    | None => None
    | Some _ =>
        let str_uri := xmlGetProp uri "uri" in
        if null_or_short str_uri then None
        else
          match ds_ids_find_component_ref doc datastream
                  (str_next (default EmptyString str_uri)) with
          | Ret (Some cat_component_ref) => Some cat_component_ref
          | _ => None
          end
    end
  else None.

(** The component-refs the catalog of [component_ref] resolves to: none
    when the ref fails the [id] or [href] check (the function returns
    before it looks at the catalog) or has no catalog. *)
Definition catalog_targets (doc : xmlDoc) (datastream : xmlNode) (component_ref : xmlNode)
  : list xmlNode :=
  if has_id component_ref && negb (null_or_short (xmlGetProp component_ref "href")) then
    match node_get_child_element component_ref (Some "catalog") with
    | Some catalog => omap (catalog_entry_target doc datastream) (node_children catalog)
    | None => []
    end
  else [].

(** The catalog-to-component-ref reference graph: an edge from a ref to
    each ref its catalog resolves to. *)
Definition catalog_edge (doc : xmlDoc) (datastream : xmlNode) : relation xmlNode :=
  fun component_ref target => target ∈ catalog_targets doc datastream component_ref.

Definition catalog_acyclic (doc : xmlDoc) (datastream : xmlNode) : Prop :=
  forall component_ref, ~ tc (catalog_edge doc datastream) component_ref component_ref.

(** [component_ref] lies on a catalog cycle or its catalog leads to one. *)
Definition reaches_catalog_cycle (doc : xmlDoc) (datastream : xmlNode)
    (component_ref : xmlNode) : Prop :=
  exists on_cycle,
    rtc (catalog_edge doc datastream) component_ref on_cycle
    /\ tc (catalog_edge doc datastream) on_cycle on_cycle.

(** ** What a component-ref stands for *)

(** The payload a component-ref resolves to: its [href] without the first
    character names a component, and the payload is the first element
    child of that component. *)
Definition resolved_payload (doc : xmlDoc) (component_ref : xmlNode) : option xmlNode :=
  let xlink_href := xmlGetProp component_ref "href" in
  if null_or_short xlink_href then None
  else
    match find_component (node_children (xmlDocGetRootElement doc))
            (str_next (default EmptyString xlink_href)) with
    | Ret (Some component) => node_get_child_element component None
    | _ => None
    end.

(** The file [ds_ids_dump_component_ref_as] writes for [filename] under
    [target_dir]. *)
Definition destination (target_dir filename : string) : string :=
  target_dir +:+ "/" +:+ dirname ("./" +:+ filename) +:+ "/" +:+ basename filename.

(** The directory of that file, which is the target directory of the
    catalog entries. *)
Definition destination_dir (target_dir filename : string) : string :=
  target_dir +:+ "/" +:+ dirname ("./" +:+ filename).

(** ** Documents on which the lookups are defined and find what they look for *)

(** Every component and every component-ref the locators can scan has an
    [id]. *)
Definition ids_present (doc : xmlDoc) (datastream : xmlNode) : bool :=
  forallb has_id (scanned_components doc)
  && forallb has_id (scanned_component_refs datastream).

(** A catalog entry that passes the attribute checks names a component-ref
    of the datastream. *)
Definition entry_resolves (doc : xmlDoc) (datastream : xmlNode) (uri : xmlNode) : bool :=
  if is_named_element uri "uri" then
    match xmlGetProp uri "name" with
    | None => true
    | Some _ =>
        let str_uri := xmlGetProp uri "uri" in
        if null_or_short str_uri then true
        else
          match ds_ids_find_component_ref doc datastream
                  (str_next (default EmptyString str_uri)) with
          | Ret (Some _) => true
          | _ => false
          end
    end
  else true.

Definition catalog_resolves (doc : xmlDoc) (datastream : xmlNode) (component_ref : xmlNode)
  : bool :=
  if has_id component_ref && negb (null_or_short (xmlGetProp component_ref "href")) then
    match node_get_child_element component_ref (Some "catalog") with
    | Some catalog => forallb (entry_resolves doc datastream) (node_children catalog)
    | None => true
    end
  else true.

Definition catalogs_resolve (doc : xmlDoc) (datastream : xmlNode) : bool :=
  forallb (catalog_resolves doc datastream) (scanned_component_refs datastream).

(** The file name [ds_ids_dump_component_ref] passes on: the [href] without
    its first character. *)
Definition href_filename (component_ref : xmlNode) : string :=
  str_next (default EmptyString (xmlGetProp component_ref "href")).

(** The target directory [ds_ids_decompose] passes on. *)
Definition effective_target_dir (target_dir : string) : string :=
  if streq target_dir EmptyString then "." else target_dir.

(** *** What a decomposition is to write, read off the document

    These notions do not run the decomposer: they say, in terms of the
    document alone, which payload a component-ref stands for, which
    component-ref a catalog entry names, and which files the walk of a
    component-ref and of its catalog consists of. *)

(** [payload] is what [component_ref] stands for: its [href], of two
    characters or more, names without its first character a [component]
    child of the root, the first one with that [id], and [payload] is the
    first element child of that component. *)
Definition payload_of (doc : xmlDoc) (component_ref payload : xmlNode) : Prop :=
  exists href component,
    xmlGetProp component_ref "href" = Some href
    /\ null_or_short (Some href) = false
    /\ first_match (str_next href) (scanned_components doc) = Some component
    /\ List.find is_element (node_children component) = Some payload.

(** The children of the [catalog] of a component-ref: of its first element
    child of that name, none when there is no such child. *)
Definition catalog_entries (component_ref : xmlNode) : list xmlNode :=
  match List.find (fun n => is_named_element n "catalog") (node_children component_ref) with
  | Some catalog => node_children catalog
  | None => []
  end.

(** The catalog entry [uri] asks for [target] to be written as [name]: it
    is a [uri] element with that [name], and its [uri], of two characters
    or more, is without its first character the [id] of [target], the
    first such component-ref among those of the datastream. *)
Definition entry_names (datastream : xmlNode) (uri : xmlNode) (name : string)
    (target : xmlNode) : Prop :=
  is_named_element uri "uri" = true
  /\ xmlGetProp uri "name" = Some name
  /\ exists u,
       xmlGetProp uri "uri" = Some u
       /\ null_or_short (Some u) = false
       /\ first_match (str_next u) (scanned_component_refs datastream) = Some target.

(** The file of a component-ref itself, when it is written as [filename]
    under [target_dir]: one file with its payload if it stands for one,
    no file otherwise. *)
Definition own_file (doc : xmlDoc) (component_ref : xmlNode) (target_dir filename : string)
    (files : list (string * xmlNode)) : Prop :=
  (exists payload,
     payload_of doc component_ref payload
     /\ files = [(destination target_dir filename, payload)])
  \/ ((forall payload, ~ payload_of doc component_ref payload) /\ files = []).

(** The files of the walk of a component-ref written as [filename] under
    [target_dir], and of the walk of catalog entries under the directory
    [dir], in the order they are written.  A ref without [id] or with an
    [href] that is absent or too short gives no file.  Any other ref gives
    its own file, then the files of the entries of its catalog, walked
    under the directory of its own file.  An entry that names a
    component-ref gives the files of the walk of that ref, written as the
    entry's [name]; any other child of the catalog gives no file. *)
Inductive walk_files (doc : xmlDoc) (datastream : xmlNode)
  : xmlNode -> string -> string -> list (string * xmlNode) -> Prop :=
| walk_unchecked component_ref target_dir filename :
    has_id component_ref = false
    \/ null_or_short (xmlGetProp component_ref "href") = true ->
    walk_files doc datastream component_ref target_dir filename []
| walk_checked component_ref target_dir filename own below :
    has_id component_ref = true ->
    null_or_short (xmlGetProp component_ref "href") = false ->
    own_file doc component_ref target_dir filename own ->
    walk_catalog doc datastream (destination_dir target_dir filename)
      (catalog_entries component_ref) below ->
    walk_files doc datastream component_ref target_dir filename (own ++ below)
with walk_catalog (doc : xmlDoc) (datastream : xmlNode)
  : string -> list xmlNode -> list (string * xmlNode) -> Prop :=
| walk_end dir :
    walk_catalog doc datastream dir [] []
| walk_skip dir uri entries files :
    (forall name target, ~ entry_names datastream uri name target) ->
    walk_catalog doc datastream dir entries files ->
    walk_catalog doc datastream dir (uri :: entries) files
| walk_follow dir uri entries name target files_target files :
    entry_names datastream uri name target ->
    walk_files doc datastream target dir name files_target ->
    walk_catalog doc datastream dir entries files ->
    walk_catalog doc datastream dir (uri :: entries) (files_target ++ files).

(** Induction over a walk and the walks of its catalog together. *)
Scheme walk_files_both := Minimality for walk_files Sort Prop
  with walk_catalog_both := Minimality for walk_catalog Sort Prop.

(** The files a decomposition writes on account of one component-ref of
    [checklists]: first the file of the ref itself, at the destination its
    [href] gives under the target directory, holding the payload the ref
    stands for; then the files of the walk of its catalog, under the
    directory of that file. *)
Definition files_of_ref (doc : xmlDoc) (datastream : xmlNode) (target_dir : string)
    (component_ref : xmlNode) (files : list (string * xmlNode)) : Prop :=
  exists payload catalog_files,
    payload_of doc component_ref payload
    /\ files = (destination (effective_target_dir target_dir) (href_filename component_ref),
                payload) :: catalog_files
    /\ walk_catalog doc datastream
         (destination_dir (effective_target_dir target_dir) (href_filename component_ref))
         (catalog_entries component_ref) catalog_files.

(** ** The errors of the decomposer, as events *)

Definition err_no_id : event :=
  Seterr OSCAP_EFAMILY_XML 0 "No or invalid id attribute on given component-ref.".
Definition err_no_href : event :=
  Seterr OSCAP_EFAMILY_XML 0 "No or invalid xlink:href attribute on given component-ref.".
Definition err_no_checklists : event :=
  Seterr OSCAP_EFAMILY_XML 0 "No checklists element found in the matching datastream.".

(** ** Example documents *)

Module Examples.

Definition ds_ns : option xmlNs := Some (mkNs datastream_ns_uri "ds").

Definition payload (title : string) : xmlNode :=
  XElement "Benchmark" None [("id", title)] [XOther "content"].

Definition component (id : string) (content : list xmlNode) : xmlNode :=
  XElement "component" ds_ns [("id", id)] content.

Definition uri (name target : string) : xmlNode :=
  XElement "uri" None [("name", name); ("uri", target)] [].

Definition catalog (entries : list xmlNode) : xmlNode :=
  XElement "catalog" None [] entries.

Definition component_ref (props : list (string * string)) (content : list xmlNode) : xmlNode :=
  XElement "component-ref" ds_ns props content.

Definition container (name : string) (refs : list xmlNode) : xmlNode :=
  XElement name ds_ns [] refs.

Definition datastream (id : string) (containers : list xmlNode) : xmlNode :=
  XElement "data-stream" ds_ns [("id", id)] containers.

Definition collection (content : list xmlNode) : xmlNode :=
  XElement "data-stream-collection" ds_ns [] content.

(** A datastream with the four containers, all empty. *)
Definition empty_datastream : xmlNode :=
  datastream "ds1"
    [container "dictionaries" []; container "checklists" [];
     container "checks" []; container "extended-components" []].

(** A component-ref without [id], with a good [href]. *)
Definition ref_without_id : xmlNode := component_ref [("href", "#c1")] [].

(** A component-ref whose [href] is just ["#"]. *)
Definition ref_short_href : xmlNode := component_ref [("id", "r0"); ("href", "#")] [].

Definition ref1 : xmlNode := component_ref [("id", "r1"); ("href", "#c1")] [].
Definition ref2 : xmlNode := component_ref [("id", "r2"); ("href", "#c2")] [].

(** One datastream whose only checklist ref has no [id]. *)
Definition ds_ref_without_id : xmlNode :=
  datastream "ds1" [container "checklists" [ref_without_id]].
Definition doc_ref_without_id : xmlDoc :=
  collection [ds_ref_without_id; component "c1" [payload "one"]].

(** A datastream without [checklists]. *)
Definition ds_no_checklists : xmlNode :=
  datastream "ds1" [container "checks" [ref1]].
Definition doc_no_checklists : xmlDoc :=
  collection [ds_no_checklists; component "c1" [payload "one"]].

(** Two good refs around one whose [href] is ["#"]. *)
Definition ds_short_href : xmlNode :=
  datastream "ds1" [container "checklists" [ref1; XOther " "; ref_short_href; ref2]].
Definition doc_short_href : xmlDoc :=
  collection [ds_short_href; component "c1" [payload "one"]; component "c2" [payload "two"]].

(** A component without [id] scanned before the one that is looked for,
    and a component-ref without [id] before the one looked for. *)
Definition ds_ref_missing_id : xmlNode :=
  datastream "ds1" [container "checklists" [ref_without_id; ref2]].
Definition doc_component_missing_id : xmlDoc :=
  collection [ds_ref_missing_id;
              XElement "component" ds_ns [] [payload "zero"];
              component "c2" [payload "two"]].

(** A catalog cycle: the catalog of [ref_a] names [ref_b], whose catalog
    names [ref_a]. *)
Definition ref_a : xmlNode :=
  component_ref [("id", "rA"); ("href", "#cA")] [catalog [uri "b.xml" "#rB"]].
Definition ref_b : xmlNode :=
  component_ref [("id", "rB"); ("href", "#cB")] [catalog [uri "a.xml" "#rA"]].
Definition ds_cycle : xmlNode :=
  datastream "ds1" [container "checklists" [ref_a; ref2]; container "checks" [ref_b]].
Definition doc_cycle : xmlDoc :=
  collection [ds_cycle; component "cA" [payload "A"]; component "cB" [payload "B"];
              component "c2" [payload "two"]].

(** A catalog without cycle: [ref_p], dumped as [a/b.xml], has a catalog
    entry named [sub/q.xml] for [ref_q], which has no catalog. *)
Definition ref_q : xmlNode := component_ref [("id", "rQ"); ("href", "#cQ")] [].
Definition ref_p : xmlNode :=
  component_ref [("id", "rP"); ("href", "#a/b.xml")]
    [XOther " "; catalog [uri "sub/q.xml" "#rQ"]].
Definition ds_nested : xmlNode :=
  datastream "ds1" [XOther " "; container "checklists" [ref_p];
                    container "checks" [ref_q]].
Definition doc_nested : xmlDoc :=
  collection [ds_nested; component "a/b.xml" [XOther " "; payload "P"];
              component "cQ" [payload "Q"]].

(** A component without [id] in front of the one a ref names. *)
Definition ds_only_ref2 : xmlNode := datastream "ds1" [container "checklists" [ref2]].
Definition doc_component_without_id : xmlDoc :=
  collection [ds_only_ref2;
              XElement "component" ds_ns [] [payload "zero"];
              component "c2" [payload "two"]].

(** A catalog entry that names no component-ref of the datastream. *)
Definition ref_dangling : xmlNode :=
  component_ref [("id", "r1"); ("href", "#c1")] [catalog [uri "x.xml" "#nowhere"]].
Definition ds_dangling : xmlNode :=
  datastream "ds1" [container "checklists" [ref_dangling; ref2]].
Definition doc_dangling : xmlDoc :=
  collection [ds_dangling; component "c1" [payload "one"]; component "c2" [payload "two"]].

Definition read (doc : xmlDoc) : string -> xmlDoc + option Z := fun _ => inl doc.

End Examples.

(** ** The node store

    [ds_ids_dump_component] is the one function of the decomposer that
    writes to libxml2 nodes: it clones the payload into a new document,
    makes the clone the root of that document, reconciles the namespaces
    of the clone, saves and frees the new document.  To state what this
    does to the document it reads from, the nodes are modelled here as
    cells of a store that point to each other, and the libxml2 calls as
    operations that allocate, change and free cells.  A pointer that is
    followed must be in the store; following one that is not is undefined.
    Walks over a subtree have a fuel, as the store may hold any graph. *)
Module Store.

Abbreviation addr := positive (only parsing).

Record node := mkNode {
  n_element : bool;
  n_name : string;
  n_ns : option xmlNs;
  n_nsDef : list xmlNs;
  n_properties : list (string * string);
  n_content : string;
  n_children : list addr;
  n_parent : option addr;
  n_doc : option addr
}.

Inductive cell :=
| CNode (n : node)
| CDoc (version : string) (children : list addr).

Abbreviation store := (gmap positive cell) (only parsing).

(** A computation on the store: the store after it, and the events and
    outcome as in [M]. *)
Definition SM (A : Type) : Type := store -> store * M A.

Definition sm_bind {A B} (f : A -> SM B) (m : SM A) : SM B :=
  fun σ =>
    match m σ with
    | (σ1, (t, Ret a)) => let '(σ2, (t', o)) := f a σ1 in (σ2, (t ++ t', o))
    | (σ1, (t, Undefined)) => (σ1, (t, Undefined))
    | (σ1, (t, OutOfFuel)) => (σ1, (t, OutOfFuel))
    end.

#[global] Instance SM_ret : MRet SM := fun A a σ => (σ, ([], Ret a)).
#[global] Instance SM_bind : MBind SM := @sm_bind.

Definition sm_undefined {A} : SM A := fun σ => (σ, undefined).
Definition sm_out_of_fuel {A} : SM A := fun σ => (σ, out_of_fuel).
Definition sm_emit (e : event) : SM unit := fun σ => (σ, emit e).

(** [*p] *)
Definition get (a : addr) : SM cell :=
  fun σ => match σ !! a with
           | Some c => (σ, ([], Ret c))
           | None => (σ, undefined)
           end.

Definition get_node (a : addr) : SM node :=
  c ← get a;
  match c with
  | CNode n => mret n
  | CDoc _ _ => sm_undefined
  end.

(** [malloc]: a cell at an address the store does not use. *)
Definition alloc (c : cell) : SM addr :=
  fun σ => let a := fresh (dom σ) in (<[a := c]> σ, ([], Ret a)).

(** A write through a pointer. *)
Definition modify (a : addr) (f : cell -> cell) : SM unit :=
  fun σ => (alter f a σ, ([], Ret tt)).

Definition free (a : addr) : SM unit :=
  fun σ => (delete a σ, ([], Ret tt)).

Definition snapshot : SM store := fun σ => (σ, ([], Ret σ)).

Definition on_node (f : node -> node) (c : cell) : cell :=
  match c with
  | CNode n => CNode (f n)
  | CDoc v ch => CDoc v ch
  end.

Definition set_children (kids : list addr) (n : node) : node :=
  mkNode (n_element n) (n_name n) (n_ns n) (n_nsDef n) (n_properties n) (n_content n)
         kids (n_parent n) (n_doc n).

Definition set_parent (p : option addr) (n : node) : node :=
  mkNode (n_element n) (n_name n) (n_ns n) (n_nsDef n) (n_properties n) (n_content n)
         (n_children n) p (n_doc n).

Definition set_doc (d : option addr) (n : node) : node :=
  mkNode (n_element n) (n_name n) (n_ns n) (n_nsDef n) (n_properties n) (n_content n)
         (n_children n) (n_parent n) d.

Definition set_ns (ns : option xmlNs * list xmlNs) (n : node) : node :=
  mkNode (n_element n) (n_name n) (fst ns) (snd ns) (n_properties n) (n_content n)
         (n_children n) (n_parent n) (n_doc n).

Definition remove_child (child : addr) (c : cell) : cell :=
  match c with
  | CNode n =>
      CNode (set_children (List.filter (fun k => negb (Pos.eqb k child)) (n_children n)) n)
  | CDoc v ch => CDoc v (List.filter (fun k => negb (Pos.eqb k child)) ch)
  end.

Definition set_doc_children (kids : list addr) (c : cell) : cell :=
  match c with
  | CNode n => CNode n
  | CDoc v _ => CDoc v kids
  end.

Fixpoint for_addrs (l : list addr) (body : addr -> SM unit) : SM unit :=
  match l with
  | [] => mret tt
  | a :: next => body a;; for_addrs next body
  end.

Fixpoint map_addrs {A} (f : addr -> SM A) (l : list addr) : SM (list A) :=
  match l with
  | [] => mret []
  | a :: next => x ← f a; xs ← map_addrs f next; mret (x :: xs)
  end.

(** The nodes of the subtree at [a], parents first. *)
Fixpoint walk (fuel : nat) (a : addr) : SM (list addr) :=
  match fuel with
  | O => sm_out_of_fuel
  | S fuel' =>
      n ← get_node a;
      below ← map_addrs (walk fuel') (n_children n);
      mret (a :: concat below)
  end.

Fixpoint outcome_map {A} (f : addr -> outcome A) (l : list addr) : outcome (list A) :=
  match l with
  | [] => Ret []
  | a :: next =>
      match f a with
      | Ret x =>
          match outcome_map f next with
          | Ret xs => Ret (x :: xs)
          | Undefined => Undefined
          | OutOfFuel => OutOfFuel
          end
      | Undefined => Undefined
      | OutOfFuel => OutOfFuel
      end
  end.

(** The tree value a subtree of the store stands for. *)
Fixpoint tree_at (fuel : nat) (σ : store) (a : addr) : outcome xmlNode :=
  match fuel with
  | O => OutOfFuel
  | S fuel' =>
      match σ !! a with
      | Some (CNode n) =>
          match outcome_map (tree_at fuel' σ) (n_children n) with
          | Ret kids =>
              Ret (if n_element n
                   then XElement (n_name n) (n_ns n) (n_properties n) kids
                   else XOther (n_content n))
          | Undefined => Undefined
          | OutOfFuel => OutOfFuel
          end
      | _ => Undefined
      end
  end.

Definition read_tree (fuel : nat) (a : addr) : SM xmlNode :=
  fun σ => (σ, lift (tree_at fuel σ a)).

Fixpoint first_child_element (candidates : list addr) (name : option string)
  : SM (option addr) :=
  match candidates with
  | [] => mret None
  | candidate :: next =>
      n ← get_node candidate;
      if negb (n_element n) then first_child_element next name
      else match name with
           | Some nm =>
               if negb (streq (n_name n) nm) then first_child_element next name
               else mret (Some candidate)
           | None => mret (Some candidate)
           end
  end.

Definition node_get_child_element (parent : addr) (name : option string)
  : SM (option addr) :=
  n ← get_node parent;
  first_child_element (n_children n) name.

Definition xmlDocGetRootElement (doc : addr) : SM (option addr) :=
  c ← get doc;
  match c with
  | CDoc _ ch => first_child_element ch None
  | CNode _ => sm_undefined
  end.

(** The scan of [ds_ids_dump_component] for the component. *)
Fixpoint find_component (candidates : list addr) (component_id : string)
  : SM (option addr) :=
  match candidates with
  | [] => mret None
  | candidate :: next =>
      n ← get_node candidate;
      if negb (n_element n) then find_component next component_id
      else if negb (streq (n_name n) "component") then find_component next component_id
      else match lookup_prop "id" (n_properties n) with
           | None => sm_undefined
           | Some candidate_id =>
               if streq candidate_id component_id then mret (Some candidate)
               else find_component next component_id
           end
  end.

Definition xmlNewDoc (version : string) : SM addr := alloc (CDoc version []).

(** The deep copy of [xmlDOMWrapCloneNode]: a new cell for the node, then
    copies of its children below the new cell. *)
Fixpoint clone_node (fuel : nat) (src : addr) (parent : option addr) (new_doc : addr)
  : SM addr :=
  match fuel with
  | O => sm_out_of_fuel
  | S fuel' =>
      n ← get_node src;
      a ← alloc (CNode (set_doc (Some new_doc) (set_parent parent (set_children [] n))));
      kids ← map_addrs (fun k => clone_node fuel' k (Some a) new_doc) (n_children n);
      modify a (on_node (set_children kids));;
      mret a
  end.

(** Modelled from the spec: [xmlDOMWrapCloneNode(ctxt, doc, node, &res_node,
    new_doc, NULL, 1, 0)] of the document adapter (section 6, subtree
    deep-clone into a foreign document). *)
Definition xmlDOMWrapCloneNode (fuel : nat) (node : addr) (new_doc : addr) : SM addr :=
  clone_node fuel node None new_doc.

Definition xmlUnlinkNode (cur : addr) : SM unit :=
  n ← get_node cur;
  match n_parent n with
  | None => mret tt
  | Some p => modify p (remove_child cur);; modify cur (on_node (set_parent None))
  end.

Definition xmlSetTreeDoc (fuel : nat) (tree : addr) (doc : addr) : SM unit :=
  nodes ← walk fuel tree;
  for_addrs nodes (fun a => modify a (on_node (set_doc (Some doc)))).

(** Modelled from the spec: [xmlDocSetRootElement(doc, root)] of the
    document adapter, as libxml2 has it: [root] is taken out of where it
    is, its subtree is given to [doc], and it replaces the root element of
    [doc] or becomes its last child. *)
Definition xmlDocSetRootElement (fuel : nat) (doc : addr) (root : addr) : SM unit :=
  xmlUnlinkNode root;;
  xmlSetTreeDoc fuel root doc;;
  modify root (on_node (set_parent (Some doc)));;
  c ← get doc;
  match c with
  | CDoc _ ch =>
      old ← first_child_element ch None;
      match old with
      | None => modify doc (set_doc_children (ch ++ [root]))
      | Some old =>
          modify doc (set_doc_children
                        (map (fun k => if Pos.eqb k old then root else k) ch));;
          modify old (on_node (set_parent None))
      end
  | CNode _ => sm_undefined
  end.

Section Reconcile.

(** What namespace and which declarations the reconciliation gives a
    node of the subtree.  libxml2 decides this from the declarations
    in scope; here it is any function of the store and the node. *)
Variable reconciled_ns : store -> addr -> option xmlNs * list xmlNs.

(** Modelled from the spec: [xmlDOMWrapReconcileNamespaces(ctxt, elem, 0)]
    of the document adapter (section 6, namespace reconciliation) rewrites
    the namespace fields of the nodes of the subtree at [elem]. *)
Definition xmlDOMWrapReconcileNamespaces (fuel : nat) (elem : addr) : SM unit :=
  nodes ← walk fuel elem;
  σ ← snapshot;
  for_addrs nodes (fun a => modify a (on_node (set_ns (reconciled_ns σ a)))).

(** Modelled from the spec: [xmlSaveFileEnc(filename, doc, encoding)] of
    the document adapter (section 6, serialization to a path): the event
    carries the tree of the root element; a document without root element
    is written as an empty text. *)
Definition xmlSaveFileEnc (fuel : nat) (filename : string) (doc : addr)
    (encoding : string) : SM unit :=
  root ← xmlDocGetRootElement doc;
  match root with
  | Some root =>
      tree ← read_tree fuel root;
      sm_emit (SaveFileEnc filename tree encoding)
  | None => sm_emit (SaveFileEnc filename (XOther EmptyString) encoding)
  end.

(** Modelled from the spec: [xmlFreeDoc(doc)] of the document adapter
    frees the nodes below the document and the document. *)
Definition xmlFreeDoc (fuel : nat) (doc : addr) : SM unit :=
  c ← get doc;
  match c with
  | CDoc _ ch =>
      below ← map_addrs (walk fuel) ch;
      for_addrs (concat below) free;;
      free doc
  | CNode _ => sm_undefined
  end.

(** [ds_ids_dump_component] on the store.  The wrap context that the C
    code makes and frees around the clone holds no node and is left
    out. *)
Definition ds_ids_dump_component (fuel : nat) (component_id : string) (doc : addr)
    (filename : string) : SM unit :=
  root ← xmlDocGetRootElement doc;
  match root with
  | None => sm_undefined
  | Some root =>
      r ← get_node root;
      component ← find_component (n_children r) component_id;
      match component with
      | None =>
          sm_emit (Seterr OSCAP_EFAMILY_XML 0
                     ("Component of given id '" +:+ component_id
                      +:+ "' was not found in the document."))
      | Some component =>
          inner_root ← node_get_child_element component None;
          match inner_root with
          | None =>
              sm_emit (Seterr OSCAP_EFAMILY_XML 0
                         ("Found component (id='" +:+ component_id
                          +:+ "') but it has no element contents, nothing to dump, skipping..."))
          | Some inner_root =>
              new_doc ← xmlNewDoc "1.0";
              res_node ← xmlDOMWrapCloneNode fuel inner_root new_doc;
              xmlDocSetRootElement fuel new_doc res_node;;
              xmlDOMWrapReconcileNamespaces fuel res_node;;
              xmlSaveFileEnc fuel filename new_doc "utf-8";;
              xmlFreeDoc fuel new_doc
          end
      end
  end.

End Reconcile.

(** What of a node shows in the tree that is read from it. *)
Definition tree_fields (n : node)
  : bool * string * option xmlNs * list (string * string) * string * list positive :=
  (n_element n, n_name n, n_ns n, n_properties n, n_content n, n_children n).

(** A cell without the links that do not show in a tree: the parent, the
    owning document and the namespace declarations of a node. *)
Definition cell_fields (c : cell)
  : (bool * string * option xmlNs * list (string * string) * string * list positive)
    + (string * list positive) :=
  match c with
  | CNode n => inl (tree_fields n)
  | CDoc version ch => inr (version, ch)
  end.

(** Two stores with the same cells up to those links. *)
Definition same_cells (σ1 σ2 : store) : Prop :=
  forall a, cell_fields <$> (σ1 !! a) = cell_fields <$> (σ2 !! a).

(** The same, for the nodes only: what the document cells hold is left
    open. *)
Definition node_fields (c : cell)
  : option (bool * string * option xmlNs * list (string * string) * string * list positive) :=
  match c with
  | CNode n => Some (tree_fields n)
  | CDoc _ _ => None
  end.

Definition same_nodes (σ1 σ2 : store) : Prop :=
  forall a, node_fields <$> (σ1 !! a) = node_fields <$> (σ2 !! a).

(** [σ1] holds, up to those links, the cells that [σ'] has and [σ] has
    not. *)
Definition keeps_added (σ σ' σ1 : store) : Prop :=
  forall x c, σ' !! x = Some c -> σ !! x = None ->
    exists c1, σ1 !! x = Some c1 /\ cell_fields c1 = cell_fields c.

(** The pointers a cell holds to other cells. *)
Definition pointers (c : cell) : list addr :=
  match c with
  | CNode n => n_children n ++ match n_parent n with Some p => [p] | None => [] end
  | CDoc _ ch => ch
  end.

(** With respect to the store [σ0] a call starts from: an address that
    [σ0] does not use. *)
Definition new (σ0 : store) (a : addr) : Prop := σ0 !! a = None.

(** The cells of [σ0] are in [σ] as they were, and the cells that have
    been added only point to cells that have been added. *)
Definition extends (σ0 σ : store) : Prop :=
  σ0 ⊆ σ
  /\ forall a c, σ !! a = Some c -> new σ0 a -> Forall (new σ0) (pointers c).

(** [m] keeps [extends σ0], and what it returns satisfies [Q]. *)
Definition frames (σ0 : store) {A} (m : SM A) (Q : A -> Prop) : Prop :=
  forall σ, extends σ0 σ ->
    extends σ0 (m σ).1 /\ forall a, result (m σ).2 = Ret a -> Q a.

End Store.

(** A small document in the store: the document cell at 1, the collection
    at 2, an empty datastream at 3, the component [c1] at 4 with a text at
    5 and its payload at 6, which holds the text at 7. *)
Module StoreExamples.

Import Store.

Definition element (name : string) (ns : option xmlNs) (props : list (string * string))
    (kids : list positive) (parent : positive) : cell :=
  CNode (mkNode true name ns [] props EmptyString kids (Some parent) (Some 1%positive)).

Definition text (content : string) (parent : positive) : cell :=
  CNode (mkNode false "text" None [] [] content [] (Some parent) (Some 1%positive)).

Definition σ_doc : gmap positive cell :=
  list_to_map
    [(1%positive, CDoc "1.0" [2%positive]);
     (2%positive, element "data-stream-collection" Examples.ds_ns [] [3; 4]%positive 1);
     (3%positive, element "data-stream" Examples.ds_ns [("id", "ds1")] [] 2);
     (4%positive, element "component" Examples.ds_ns [("id", "c1")] [5; 6]%positive 2);
     (5%positive, text " " 4);
     (6%positive, element "Benchmark" None [("id", "one")] [7%positive] 4);
     (7%positive, text "content" 6)].

(** The same document as a tree value. *)
Definition doc : xmlDoc :=
  Examples.collection
    [Examples.datastream "ds1" [];
     Examples.component "c1" [XOther " "; Examples.payload "one"]].

(** A reconciliation that declares on every node the namespace the node
    is bound to. *)
Definition declare_own_ns (σ : gmap positive cell) (a : positive)
  : option xmlNs * list xmlNs :=
  match σ !! a with
  | Some (CNode n) => (n_ns n, match n_ns n with Some ns => [ns] | None => [] end)
  | _ => (None, [])
  end.

End StoreExamples.

(** ** Further notions, for the properties beyond the design document's *)

(** The test of [node_get_child_element] on one child. *)
Definition child_matches (name : option string) (candidate : xmlNode) : bool :=
  is_element candidate
  && match name with
     | Some n => streq (node_name candidate) n
     | None => true
     end.

(** The test of the datastream selection of [ds_ids_decompose] on one child
    of the root: a [data-stream] element, and with an [id] asked for, one
    that has this [id]. *)
Definition datastream_matches (id : option string) (candidate : xmlNode) : bool :=
  is_named_element candidate "data-stream"
  && match id with
     | None => true
     | Some i =>
         match xmlGetProp candidate "id" with
         | Some c => streq i c
         | None => false
         end
     end.

(** A node an id scan passes over on its way to [id]: it is not an element
    of the kind scanned, or it has an [id] and a different one. *)
Definition passed_over (kind id : string) (candidate : xmlNode) : bool :=
  negb (is_named_element candidate kind) || (has_id candidate && negb (id_is id candidate)).

(** [s] starts with [prefix]; [s] ends with [suffix]. *)
Definition starts_with (prefix s : string) : Prop := exists rest, s = prefix +:+ rest.
Definition ends_with (s suffix : string) : Prop := exists pre, s = pre +:+ suffix.

(** The component-ref [ds_ids_compose_add_component_with_ref] builds, as a
    tree: the [id], the [href] made of [#] and the file path, and an empty
    [catalog]; both elements in the namespace found for the datastream. *)
Definition new_component_ref (ds_ns : option xmlNs) (filepath cref_id : string) : xmlNode :=
  XElement "component-ref" ds_ns [("id", cref_id); ("href", "#" +:+ filepath)]
    [XElement "catalog" ds_ns [] []].

(** The names of the four containers of a datastream. *)
Definition container_names : list string :=
  ["checklists"; "checks"; "dictionaries"; "extended-components"].

(** The datastream has an element child for each of the four names. *)
Definition has_containers (datastream : xmlNode) : bool :=
  forallb (fun name =>
             match node_get_child_element datastream (Some name) with
             | Some _ => true
             | None => false
             end)
          container_names.

(** A string of [n] times the character [c]. *)
Fixpoint string_repeat (c : ascii) (n : nat) : string :=
  match n with
  | O => EmptyString
  | S n' => String c (string_repeat c n')
  end.

Module MoreExamples.

(** Two datastreams, the first without [id]; each has one checklist. *)
Definition ds_first : xmlNode :=
  XElement "data-stream" Examples.ds_ns []
    [Examples.container "checklists" [Examples.ref1]].
Definition ds_second : xmlNode :=
  Examples.datastream "ds2" [Examples.container "checklists" [Examples.ref2]].
Definition doc_two_datastreams : xmlDoc :=
  Examples.collection
    [XOther " "; Examples.component "c1" [Examples.payload "one"]; ds_first; ds_second;
     Examples.component "c2" [Examples.payload "two"]].

(** Two components with the same id; the first has text before its payload
    and a second element after it. *)
Definition doc_duplicates : xmlDoc :=
  Examples.collection
    [XOther " "; Examples.component "c0" [Examples.payload "zero"];
     Examples.component "c1" [XOther " "; Examples.payload "one"; Examples.payload "extra"];
     Examples.component "c1" [Examples.payload "again"];
     Examples.datastream "ds1" [Examples.container "checklists" [Examples.ref1]]].

Definition long_dir : string := string_repeat "a" 1025.

(** A ref whose [href] does not start with [#]. *)
Definition ref_odd_href : xmlNode :=
  Examples.component_ref [("id", "other"); ("href", "Xc1")] [].

(** A catalog whose first entry has no [name] and whose second entry is
    good. *)
Definition uri_without_name : xmlNode := XElement "uri" None [("uri", "#r2")] [].
Definition ref_faulty_catalog : xmlNode :=
  Examples.component_ref [("id", "r1"); ("href", "#c1")]
    [Examples.catalog [uri_without_name; Examples.uri "two.xml" "#r2"]].
Definition ds_faulty_catalog : xmlNode :=
  Examples.datastream "ds1"
    [Examples.container "checklists" [ref_faulty_catalog];
     Examples.container "checks" [Examples.ref2]].
Definition doc_faulty_catalog : xmlDoc :=
  Examples.collection
    [ds_faulty_catalog; Examples.component "c1" [Examples.payload "one"];
     Examples.component "c2" [Examples.payload "two"]].

(** A datastream with the four containers and a ref in two of them. *)
Definition ds_filled : xmlNode :=
  Examples.datastream "ds1"
    [Examples.container "dictionaries" []; Examples.container "checklists" [Examples.ref1];
     Examples.container "checks" [Examples.ref2];
     Examples.container "extended-components" []].

End MoreExamples.
(** * Properties *)

(** ** The monad *)

Lemma bind_ret {A B} (a : A) (f : A -> M B) : (mret a ≫= f) = f a.
Proof. unfold mbind, M_bind, mret, M_ret, bind. by destruct (f a). Qed.

Lemma bind_emit {B} (e : event) (k : M B) : (emit e ;; k) = (e :: trace k, result k).
Proof. unfold mbind, M_bind, emit, bind. by destruct k. Qed.

Lemma bind_trace {A B} (m : M A) (f : A -> M B) :
  exists t', trace (m ≫= f) = trace m ++ t'.
Proof.
  destruct m as [t [a| |]]; unfold mbind, M_bind, bind; simpl.
  - destruct (f a) as [t' o]. by exists t'.
  - exists []. by rewrite app_nil_r.
  - exists []. by rewrite app_nil_r.
Qed.

Lemma bind_returns {A B} (m : M A) (f : A -> M B) t b :
  (m ≫= f) = (t, Ret b) ->
  exists t1 a t2, m = (t1, Ret a) /\ f a = (t2, Ret b) /\ t = t1 ++ t2.
Proof.
  destruct m as [t1 [a| |]]; unfold mbind, M_bind, bind; simpl; try discriminate.
  destruct (f a) as [t2 o] eqn:E. intros [= <- ->]. by exists t1, a, t2.
Qed.

Lemma bind_assoc {A B C} (m : M A) (f : A -> M B) (g : B -> M C) :
  ((m ≫= f) ≫= g) = (m ≫= fun a => f a ≫= g).
Proof.
  destruct m as [t [a| |]]; unfold mbind, M_bind, bind; simpl; try done.
  destruct (f a) as [t1 [b| |]]; simpl; try done.
  destruct (g b) as [t2 o]. by rewrite app_assoc.
Qed.

Lemma for_each_app l1 l2 body :
  for_each (l1 ++ l2) body = (for_each l1 body ;; for_each l2 body).
Proof.
  induction l1 as [|n l1 IH]; cbn [for_each app].
  - by rewrite bind_ret.
  - rewrite IH. by rewrite bind_assoc.
Qed.

(** ** C10: the id scans *)

Lemma find_component_ref_in_scan l id :
  find_component_ref_in l id = scan_ids (component_refs_of l) id.
Proof.
  induction l as [|n l IH]; simpl; [done|].
  unfold component_refs_of in *. unfold is_named_element at 1.
  destruct (is_element n); simpl; [|done].
  destruct (streq (node_name n) "component-ref"); simpl; [|done].
  by rewrite IH.
Qed.

Lemma scan_ids_app l1 l2 id :
  scan_ids (l1 ++ l2) id =
  match scan_ids l1 id with Ret None => scan_ids l2 id | o => o end.
Proof.
  induction l1 as [|n l1 IH]; simpl; [done|].
  destruct (xmlGetProp n "id"); [|done]. by destruct (streq _ _).
Qed.

Lemma find_component_ref_scan doc datastream id :
  ds_ids_find_component_ref doc datastream id =
  scan_ids (scanned_component_refs datastream) id.
Proof.
  unfold ds_ids_find_component_ref, scanned_component_refs.
  induction (node_children datastream) as [|p l IH]; simpl; [done|].
  destruct (is_element p); simpl; [|done].
  rewrite scan_ids_app, find_component_ref_in_scan, IH. done.
Qed.

Lemma find_component_scan doc component_id :
  find_component (node_children (xmlDocGetRootElement doc)) component_id =
  scan_ids (scanned_components doc) component_id.
Proof.
  unfold scanned_components.
  induction (node_children (xmlDocGetRootElement doc)) as [|n l IH]; simpl; [done|].
  unfold is_named_element at 1.
  destruct (is_element n); simpl; [|done].
  destruct (streq (node_name n) "component"); simpl; [|done].
  by rewrite IH.
Qed.

Lemma scan_ids_total nodes id :
  forallb has_id (before_first_match id nodes) = true ->
  scan_ids nodes id = Ret (first_match id nodes).
Proof.
  induction nodes as [|n l IH]; simpl; [done|].
  unfold id_is. destruct (xmlGetProp n "id") as [v|] eqn:E.
  - destruct (streq v id); [done|]. simpl. unfold has_id at 1. rewrite E. simpl. apply IH.
  - simpl. unfold has_id at 1. by rewrite E.
Qed.

Lemma scan_ids_undefined nodes id :
  forallb has_id (before_first_match id nodes) = false ->
  scan_ids nodes id = Undefined.
Proof.
  induction nodes as [|n l IH]; simpl; [done|].
  unfold id_is. destruct (xmlGetProp n "id") as [v|] eqn:E.
  - destruct (streq v id); [done|]. simpl. unfold has_id at 1. rewrite E. simpl. apply IH.
  - done.
Qed.

(** C10.  Both id scans hand the value of the [id] attribute to [strcmp]
    without a null check.  When every node scanned before the first match
    carries an [id], the lookup is total: [ds_ids_find_component_ref]
    returns the first match or "not found", and [ds_ids_dump_component]
    returns.  When some node scanned before the first match has no [id],
    the comparison is undefined behaviour. *)
Theorem id_scans_total_iff_ids_present (doc : xmlDoc) (datastream : xmlNode)
    (id filename : string) :
  ds_ids_find_component_ref doc datastream id =
    (if forallb has_id (before_first_match id (scanned_component_refs datastream))
     then Ret (first_match id (scanned_component_refs datastream))
     else Undefined)
  /\ find_component (node_children (xmlDocGetRootElement doc)) id =
    (if forallb has_id (before_first_match id (scanned_components doc))
     then Ret (first_match id (scanned_components doc))
     else Undefined)
  /\ result (ds_ids_dump_component id doc filename) =
    (if forallb has_id (before_first_match id (scanned_components doc))
     then Ret tt
     else Undefined).
Proof.
  split; [|split].
  - rewrite find_component_ref_scan.
    destruct (forallb _ _) eqn:E; [by apply scan_ids_total|by apply scan_ids_undefined].
  - rewrite find_component_scan.
    destruct (forallb _ _) eqn:E; [by apply scan_ids_total|by apply scan_ids_undefined].
  - unfold ds_ids_dump_component. rewrite find_component_scan.
    destruct (forallb _ _) eqn:E.
    + rewrite (scan_ids_total _ _ E). unfold lift.
      destruct (first_match _ _) as [c|]; [|done].
      unfold mbind, M_bind, bind. simpl.
      by destruct (node_get_child_element c None).
    + by rewrite (scan_ids_undefined _ _ E).
Qed.

Example id_scan_examples :
  ds_ids_find_component_ref Examples.doc_short_href Examples.ds_short_href "r2"
    = Ret (Some Examples.ref2)
  /\ ds_ids_find_component_ref Examples.doc_short_href Examples.ds_short_href "r9" = Ret None
  /\ ds_ids_find_component_ref Examples.doc_component_missing_id
       Examples.ds_ref_missing_id "r2" = Undefined
  /\ ds_ids_dump_component "c2" Examples.doc_component_missing_id "out/c2" = ([], Undefined)
  /\ ds_ids_dump_component "c2" Examples.doc_short_href "out/c2"
     = ([SaveFileEnc "out/c2" (Examples.payload "two") "utf-8"], Ret tt).
Proof. repeat split; reflexivity. Qed.

(** ** C2, C3: the composer *)

Lemma string_app_cons (c : ascii) (a b : string) :
  String c a +:+ b = String c (a +:+ b).
Proof. reflexivity. Qed.

Lemma string_app_nil_l (b : string) : EmptyString +:+ b = b.
Proof. reflexivity. Qed.

Lemma string_app_assoc (a b c : string) : (a +:+ b) +:+ c = a +:+ (b +:+ c).
Proof.
  induction a as [|x a IH]; [done|].
  rewrite !string_app_cons. by rewrite IH.
Qed.

Lemma str_offset_app (pre s : string) :
  str_offset (String.length pre) (pre +:+ s) = s.
Proof.
  induction pre as [|c pre IH]; [by destruct s|].
  rewrite string_app_cons. simpl. done.
Qed.

Lemma str_offset_split (n : nat) (s : string) :
  n <= String.length s ->
  exists pre, s = pre +:+ str_offset n s /\ String.length pre = n.
Proof.
  revert s. induction n as [|n IH]; intros s Hn.
  - exists EmptyString. by destruct s.
  - destruct s as [|c s]; simpl in *; [lia|].
    destruct (IH s) as (pre & Hs & Hl); [lia|].
    exists (String c pre). split; [|by simpl; rewrite Hl].
    change (String c s = String c (pre +:+ str_offset n s)). congruence.
Qed.

Lemma string_length_app (a b : string) :
  String.length (a +:+ b) = String.length a + String.length b.
Proof.
  induction a as [|c a IH]; [done|].
  rewrite string_app_cons. simpl. by rewrite IH.
Qed.

Lemma streq_true (a b : string) : streq a b = true <-> a = b.
Proof. apply String.eqb_eq. Qed.

(** For strings whose length fits an [int], [strendswith] tests for the
    suffix. *)
Lemma strendswith_spec (str suffix : string) :
  (Z.of_nat (String.length str) < 2 ^ 31)%Z ->
  (Z.of_nat (String.length suffix) < 2 ^ 31)%Z ->
  strendswith str suffix = true <-> exists pre, str = pre +:+ suffix.
Proof.
  intros Hs Hx. unfold strendswith, strlen, size_t_modulus, to_int.
  set (a := Z.of_nat (String.length str)) in *.
  set (b := Z.of_nat (String.length suffix)) in *.
  assert (0 <= a)%Z by lia. assert (0 <= b)%Z by lia.
  rewrite (Z.mod_small a), (Z.mod_small b) by lia.
  destruct (Z.le_gt_cases b a) as [Hle|Hgt].
  - rewrite (Z.mod_small (a - b)) by lia.
    rewrite (Z.mod_small (a - b + 2 ^ 31)) by lia.
    replace (a - b + 2 ^ 31 - 2 ^ 31)%Z with (a - b)%Z by lia.
    destruct (Z.ltb_spec (a - b) 0); [lia|].
    replace (Z.to_nat (a - b)) with (String.length str - String.length suffix) by lia.
    rewrite streq_true. split.
    + intros E.
      destruct (str_offset_split (String.length str - String.length suffix) str)
        as (pre & Hpre & _); [lia|].
      exists pre. by rewrite <- E.
    + intros [pre ->]. rewrite string_length_app.
      replace (String.length pre + String.length suffix - String.length suffix)
        with (String.length pre) by lia.
      apply str_offset_app.
  - assert (((a - b) mod 2 ^ 64 + 2 ^ 31) mod 2 ^ 32 - 2 ^ 31 = a - b)%Z as ->.
    { replace ((a - b) mod 2 ^ 64)%Z with (a - b + 2 ^ 64)%Z.
      - replace (a - b + 2 ^ 64 + 2 ^ 31)%Z
          with (a - b + 2 ^ 31 + 2 ^ 32 * 2 ^ 32)%Z by lia.
        rewrite Z.add_mod, Z.mul_mod, Z.mod_same, Z.mul_0_l, Z.mod_0_l, Z.add_0_r,
          Z.mod_mod by lia.
        rewrite Z.mod_small by lia. lia.
      - apply Z.mod_unique with (q := (-1)%Z); lia. }
    destruct (Z.ltb_spec (a - b) 0); [|lia].
    split; [done|]. intros [pre ->]. subst a b. rewrite string_length_app in Hgt. lia.
Qed.

(** The third test of the classification can never decide: a path that
    ends in [-cpe-oval.xml] already ends in [-oval.xml]. *)
Lemma cpe_oval_suffix_is_oval_suffix (filepath : string) :
  (Z.of_nat (String.length filepath) < 2 ^ 31)%Z ->
  strendswith filepath "-cpe-oval.xml" = true ->
  strendswith filepath "-oval.xml" = true.
Proof.
  intros Hl. rewrite !strendswith_spec by (done || (simpl; lia)).
  intros [pre ->]. exists (pre +:+ "-cpe").
  by rewrite string_app_assoc.
Qed.

(** C2.  The classification of [ds_ids_compose_add_component_with_ref] at
    the path [foo-cpe-oval.xml], in a datastream that has the four
    containers: the new component-ref lands under [checks], and
    [dictionaries] stays empty. *)
Theorem cpe_oval_is_attached_to_checks (xmlSearchNsByHref : xmlNode -> string -> option xmlNs) :
  let datastream :=
    ds_ids_compose_add_component_with_ref xmlSearchNsByHref Examples.empty_datastream
      "foo-cpe-oval.xml" "ref1" in
  (exists cref, container_refs datastream "checks" = [cref]
                /\ xmlGetProp cref "href" = Some "#foo-cpe-oval.xml")
  /\ container_refs datastream "dictionaries" = []
  /\ container_refs datastream "checklists" = []
  /\ container_refs datastream "extended-components" = [].
Proof.
  cbv zeta. split; [|done]. eexists. split; reflexivity.
Qed.

(** C3, as the code has it.  [ds_ids_compose_from_xccdf] builds the
    collection element with the four containers in the order dictionaries,
    checklists, checks, extended-components, and then hands the document,
    which has no root element, to the function it calls; the tree it has
    built is not reachable from that document.  Whatever the callee does
    and whatever the file is called, [foo-xccdf.xml] included, the four
    containers are empty when the function ends: no component-ref is under
    [checklists]. *)
Theorem compose_from_xccdf_attaches_nothing
    (ds_ids_add_component_with_ref : new_document -> string -> string -> new_document)
    (xccdf_file target_datastream : string) :
  let result :=
    ds_ids_compose_from_xccdf ds_ids_add_component_with_ref xccdf_file target_datastream in
  let root := result.2 in
  result.1 = ds_ids_add_component_with_ref None xccdf_file xccdf_file
  /\ map node_name (node_children root)
     = ["dictionaries"; "checklists"; "checks"; "extended-components"]
  /\ option_map node_children (node_get_child_element root (Some "checklists")) = Some []
  /\ container_refs root "checklists" = []
  /\ option_map node_children (node_get_child_element root (Some "dictionaries")) = Some []
  /\ option_map node_children (node_get_child_element root (Some "checks")) = Some []
  /\ option_map node_children (node_get_child_element root (Some "extended-components"))
     = Some [].
Proof. cbv zeta. repeat split. Qed.

(** ** C4, C6, C7: error handling of the decomposer *)

(** C4, as the code has it.  A component-ref without [id] gets the error
    for the missing [id] and nothing else: no directory is made, no
    component is dumped and the catalog is not walked, whatever its
    [href]. *)
Theorem dump_component_ref_as_without_id (fuel : nat) (component_ref : xmlNode)
    (doc : xmlDoc) (datastream : xmlNode) (target_dir filename : string) :
  xmlGetProp component_ref "id" = None ->
  ds_ids_dump_component_ref_as (S fuel) component_ref doc datastream target_dir filename
  = ([err_no_id], Ret tt).
Proof. intros H. cbn [ds_ids_dump_component_ref_as]. by rewrite H. Qed.

Lemma dump_component_ref_as_without_id_witness :
  xmlGetProp Examples.ref_without_id "id" = None
  /\ ds_ids_dump_component_ref_as 1 Examples.ref_without_id Examples.doc_ref_without_id
       Examples.ds_ref_without_id "out" "c1"
     = ([err_no_id], Ret tt).
Proof.
  split; [reflexivity|].
  apply (dump_component_ref_as_without_id 0). reflexivity.
Defined.

(** C4 as stated fails: the ref has no [id], its [href] is [#c1] and the
    component [c1] is there with a payload, yet nothing is dumped. *)
Lemma dump_component_ref_as_without_id_dumps_nothing :
  xmlGetProp Examples.ref_without_id "id" = None
  /\ xmlGetProp Examples.ref_without_id "href" = Some "#c1"
  /\ ds_ids_dump_component "c1" Examples.doc_ref_without_id "out/./c1"
     = ([SaveFileEnc "out/./c1" (Examples.payload "one") "utf-8"], Ret tt)
  /\ saved (trace (ds_ids_dump_component_ref_as 3 Examples.ref_without_id
                     Examples.doc_ref_without_id Examples.ds_ref_without_id "out" "c1"))
     = []
  /\ ~ (exists filename root,
          In (filename, root)
             (saved (trace (ds_ids_dump_component_ref_as 3 Examples.ref_without_id
                              Examples.doc_ref_without_id Examples.ds_ref_without_id
                              "out" "c1")))).
Proof.
  repeat split; try reflexivity.
  intros (filename & root & H). exact H.
Qed.

(** C6.  When the selected datastream has no [checklists] child,
    [ds_ids_decompose] sets the error and returns: the error is the only
    event, so no file is written and no directory is made. *)
Theorem decompose_without_checklists (xmlReadFile : string -> xmlDoc + option Z)
    (fuel : nat) (input_file : string) (id : option string) (target_dir : string)
    (doc : xmlDoc) (datastream : xmlNode) :
  xmlReadFile input_file = inl doc ->
  select_datastream (node_children (xmlDocGetRootElement doc)) id = Some datastream ->
  node_get_child_element datastream (Some "checklists") = None ->
  ds_ids_decompose xmlReadFile fuel input_file id target_dir = ([err_no_checklists], Ret tt)
  /\ saved (trace (ds_ids_decompose xmlReadFile fuel input_file id target_dir)) = [].
Proof.
  intros Hread Hsel Hcl. unfold ds_ids_decompose. rewrite Hread, Hsel, Hcl. done.
Qed.

Lemma decompose_without_checklists_witness :
  ds_ids_decompose (Examples.read Examples.doc_no_checklists) 5 "in.xml" (Some "ds1") "out"
  = ([err_no_checklists], Ret tt)
  /\ saved (trace (ds_ids_decompose (Examples.read Examples.doc_no_checklists) 5 "in.xml"
                     (Some "ds1") "out")) = [].
Proof.
  apply (decompose_without_checklists (Examples.read Examples.doc_no_checklists) 5 "in.xml"
           (Some "ds1") "out" Examples.doc_no_checklists Examples.ds_no_checklists);
    reflexivity.
Defined.

Lemma dump_checklists_app fuel refs1 refs2 doc datastream target_dir :
  dump_checklists fuel (refs1 ++ refs2) doc datastream target_dir
  = (dump_checklists fuel refs1 doc datastream target_dir;;
     dump_checklists fuel refs2 doc datastream target_dir).
Proof. apply for_each_app. Qed.

Lemma dump_checklists_cons fuel ref refs doc datastream target_dir :
  is_named_element ref "component-ref" = true ->
  dump_checklists fuel (ref :: refs) doc datastream target_dir
  = (ds_ids_dump_component_ref fuel ref doc datastream
       (if streq target_dir EmptyString then "." else target_dir);;
     dump_checklists fuel refs doc datastream target_dir).
Proof.
  unfold is_named_element. intros [He Hn]%andb_true_iff.
  unfold dump_checklists. cbn [for_each]. by rewrite He, Hn.
Qed.

(** C7.  A component-ref whose [href] is absent or shorter than two
    characters: [ds_ids_dump_component_ref] sets the error and does nothing
    else (no file, no directory); and in [ds_ids_decompose] the loop over
    [checklists] goes on: the run is the run over the siblings before the
    ref, then the error, then the run over the siblings after it. *)
Theorem short_href_is_skipped (xmlReadFile : string -> xmlDoc + option Z)
    (fuel : nat) (input_file : string) (id : option string) (target_dir : string)
    (doc : xmlDoc) (datastream checklists component_ref : xmlNode)
    (before after : list xmlNode) :
  null_or_short (xmlGetProp component_ref "href") = true ->
  is_named_element component_ref "component-ref" = true ->
  xmlReadFile input_file = inl doc ->
  select_datastream (node_children (xmlDocGetRootElement doc)) id = Some datastream ->
  node_get_child_element datastream (Some "checklists") = Some checklists ->
  node_children checklists = before ++ component_ref :: after ->
  (forall dir, ds_ids_dump_component_ref fuel component_ref doc datastream dir
               = ([err_no_href], Ret tt))
  /\ ds_ids_decompose xmlReadFile fuel input_file id target_dir
     = (dump_checklists fuel before doc datastream target_dir;;
        emit err_no_href;;
        dump_checklists fuel after doc datastream target_dir)
  /\ (forall t1, dump_checklists fuel before doc datastream target_dir = (t1, Ret tt) ->
      ds_ids_decompose xmlReadFile fuel input_file id target_dir
      = (t1 ++ err_no_href :: trace (dump_checklists fuel after doc datastream target_dir),
         result (dump_checklists fuel after doc datastream target_dir))).
Proof.
  intros Hshort Hname Hread Hsel Hcl Hch.
  assert (forall dir, ds_ids_dump_component_ref fuel component_ref doc datastream dir
                      = ([err_no_href], Ret tt)) as Hskip.
  { intros dir. unfold ds_ids_dump_component_ref. by rewrite Hshort. }
  assert (ds_ids_decompose xmlReadFile fuel input_file id target_dir
     = (dump_checklists fuel before doc datastream target_dir;;
        emit err_no_href;;
        dump_checklists fuel after doc datastream target_dir)) as Hrun.
  { unfold ds_ids_decompose. rewrite Hread, Hsel, Hcl, Hch.
    rewrite dump_checklists_app, dump_checklists_cons by done.
    by rewrite Hskip. }
  split; [done|]. split; [done|].
  intros t1 H1. rewrite Hrun, H1.
  destruct (dump_checklists fuel after doc datastream target_dir) as [t2 o2].
  unfold mbind, M_bind, bind, emit. simpl. done.
Qed.

Lemma short_href_is_skipped_witness :
  ds_ids_decompose (Examples.read Examples.doc_short_href) 5 "in.xml" (Some "ds1") "out"
  = (dump_checklists 5 [Examples.ref1; XOther " "] Examples.doc_short_href
       Examples.ds_short_href "out";;
     emit err_no_href;;
     dump_checklists 5 [Examples.ref2] Examples.doc_short_href Examples.ds_short_href "out").
Proof.
  apply (short_href_is_skipped (Examples.read Examples.doc_short_href) 5 "in.xml"
           (Some "ds1") "out" Examples.doc_short_href Examples.ds_short_href
           (Examples.container "checklists"
              [Examples.ref1; XOther " "; Examples.ref_short_href; Examples.ref2])
           Examples.ref_short_href [Examples.ref1; XOther " "] [Examples.ref2]);
    reflexivity.
Defined.

Example short_href_run :
  ds_ids_decompose (Examples.read Examples.doc_short_href) 5 "in.xml" (Some "ds1") "out"
  = ([Mkdir "out"; Mkdir "out/.";
      SaveFileEnc "out/./c1" (Examples.payload "one") "utf-8";
      err_no_href;
      Mkdir "out"; Mkdir "out/.";
      SaveFileEnc "out/./c2" (Examples.payload "two") "utf-8"], Ret tt).
Proof. reflexivity. Qed.

(** ** C8: the depth of the catalog recursion *)

Lemma dump_component_ref_as_unfold fuel component_ref doc datastream target_dir filename :
  ds_ids_dump_component_ref_as (S fuel) component_ref doc datastream target_dir filename
  = dump_component_ref_body
      (fun r dir name => ds_ids_dump_component_ref_as fuel r doc datastream dir name)
      component_ref doc datastream target_dir filename.
Proof. reflexivity. Qed.

Lemma result_bind {A B} (m : M A) (f : A -> M B) :
  result (m ≫= f) =
  match result m with
  | Ret a => result (f a)
  | Undefined => Undefined
  | OutOfFuel => OutOfFuel
  end.
Proof.
  destruct m as [t [a| |]]; unfold mbind, M_bind, bind; simpl; try done.
  by destruct (f a).
Qed.

Lemma mkdir_p_returns path : exists t z, mkdir_p path = (t, Ret z).
Proof. unfold mkdir_p. destruct (_ <? _)%Z; eauto. Qed.

Lemma scan_ids_never_out_of_fuel nodes id : scan_ids nodes id <> OutOfFuel.
Proof.
  induction nodes as [|n l IH]; simpl; [done|].
  destruct (xmlGetProp n "id"); [|done]. by destruct (streq _ _).
Qed.

Lemma dump_component_result component_id doc filename :
  result (ds_ids_dump_component component_id doc filename) <> OutOfFuel.
Proof.
  unfold ds_ids_dump_component. rewrite result_bind. unfold lift. simpl.
  rewrite find_component_scan.
  pose proof (scan_ids_never_out_of_fuel (scanned_components doc) component_id) as H.
  destruct (scan_ids _ _) as [[c|]| |]; try done.
  by destruct (node_get_child_element c None).
Qed.

Lemma for_each_bounded l (body : xmlNode -> M unit) :
  (forall x, x ∈ l -> result (body x) <> OutOfFuel) ->
  result (for_each l body) <> OutOfFuel.
Proof.
  induction l as [|x l IH]; intros H; cbn [for_each]; [done|].
  rewrite result_bind.
  pose proof (H x (list_elem_of_here _ _)) as Hx.
  destruct (result (body x)); try done.
  apply IH. intros y Hy. apply H. by apply list_elem_of_further.
Qed.

Lemma for_each_never_returns l (body : xmlNode -> M unit) x :
  x ∈ l -> result (body x) <> Ret tt -> result (for_each l body) <> Ret tt.
Proof.
  induction l as [|y l IH]; intros Hin Hx; [by apply elem_of_nil in Hin|].
  cbn [for_each]. rewrite result_bind.
  apply elem_of_cons in Hin as [->|Hin].
  - destruct (result (body y)) as [[]| |]; done.
  - destruct (result (body y)) as [[]| |]; try done. by apply IH.
Qed.

Lemma for_each_ext l (body1 body2 : xmlNode -> M unit) :
  (forall x, x ∈ l -> result (body1 x) <> OutOfFuel -> body2 x = body1 x) ->
  result (for_each l body1) <> OutOfFuel ->
  for_each l body2 = for_each l body1.
Proof.
  induction l as [|x l IH]; intros H Hr; cbn [for_each] in *; [done|].
  rewrite result_bind in Hr.
  assert (result (body1 x) <> OutOfFuel) as Hx by (by destruct (result (body1 x))).
  rewrite (H x (list_elem_of_here _ _) Hx).
  destruct (body1 x) as [t [[]| |]] eqn:E; simpl in *; try done.
  rewrite IH; [done| |done].
  intros y Hy. apply H. by apply list_elem_of_further.
Qed.

(** A catalog entry either makes the function call itself on its target,
    with the entry's [name] as the file name, or is dealt with on the
    spot. *)
Lemma dump_catalog_entry_target self doc datastream dir uri target :
  catalog_entry_target doc datastream uri = Some target ->
  exists name,
    xmlGetProp uri "name" = Some name
    /\ dump_catalog_entry self doc datastream dir uri = self target dir name.
Proof.
  unfold catalog_entry_target, dump_catalog_entry, is_named_element.
  destruct (is_element uri); simpl; [|done].
  destruct (streq (node_name uri) "uri"); simpl; [|done].
  destruct (xmlGetProp uri "name") as [name|]; [|done].
  destruct (null_or_short _); [done|].
  destruct (ds_ids_find_component_ref _ _ _) as [[r|]| |]; try done.
  intros [= ->]. exists name. split; [done|].
  unfold lift. unfold mbind, M_bind, bind. by destruct (self target dir name).
Qed.

Lemma dump_catalog_entry_no_target self doc datastream dir uri :
  catalog_entry_target doc datastream uri = None ->
  result (dump_catalog_entry self doc datastream dir uri) <> OutOfFuel
  /\ forall self',
       dump_catalog_entry self' doc datastream dir uri
       = dump_catalog_entry self doc datastream dir uri.
Proof.
  unfold catalog_entry_target, dump_catalog_entry, is_named_element.
  destruct (is_element uri); simpl; [|done].
  destruct (streq (node_name uri) "uri"); simpl; [|done].
  destruct (xmlGetProp uri "name") as [name|]; [|done].
  destruct (null_or_short _); [done|].
  pose proof (scan_ids_never_out_of_fuel (scanned_component_refs datastream)
                (str_next (default EmptyString (xmlGetProp uri "uri")))) as Hs.
  rewrite <- (find_component_ref_scan doc) in Hs.
  destruct (ds_ids_find_component_ref _ _ _) as [[r|]| |]; done.
Qed.

Lemma catalog_targets_checked doc datastream component_ref cref_id :
  xmlGetProp component_ref "id" = Some cref_id ->
  null_or_short (xmlGetProp component_ref "href") = false ->
  catalog_targets doc datastream component_ref =
  match node_get_child_element component_ref (Some "catalog") with
  | Some catalog => omap (catalog_entry_target doc datastream) (node_children catalog)
  | None => []
  end.
Proof. intros Hid Hh. unfold catalog_targets, has_id. by rewrite Hid, Hh. Qed.

Section Body.

Context (doc : xmlDoc) (datastream : xmlNode).

Local Abbreviation edge := (catalog_edge doc datastream).

Lemma body_bounded self component_ref target_dir filename :
  (forall target, edge component_ref target ->
     forall dir name, result (self target dir name) <> OutOfFuel) ->
  result (dump_component_ref_body self component_ref doc datastream target_dir filename)
  <> OutOfFuel.
Proof.
  intros H. unfold dump_component_ref_body.
  destruct (xmlGetProp component_ref "id") as [cref_id|] eqn:Hid; [|done].
  destruct (null_or_short (xmlGetProp component_ref "href")) eqn:Hh; [done|].
  unfold catalog_edge in H. rewrite (catalog_targets_checked _ _ _ _ Hid Hh) in H.
  rewrite result_bind.
  destruct (mkdir_p_returns (target_dir +:+ "/" +:+ dirname ("./" +:+ filename)))
    as (t & z & ->). simpl.
  rewrite result_bind.
  pose proof (dump_component_result
                (str_next (default EmptyString (xmlGetProp component_ref "href"))) doc
                (target_dir +:+ "/" +:+ dirname ("./" +:+ filename) +:+ "/"
                 +:+ basename filename)) as Hd.
  destruct (result (ds_ids_dump_component _ _ _)); try done.
  destruct (node_get_child_element component_ref (Some "catalog")) as [catalog|]; [|done].
  apply for_each_bounded. intros uri Huri.
  destruct (catalog_entry_target doc datastream uri) as [target|] eqn:Ht.
  - destruct (dump_catalog_entry_target self doc datastream
                (target_dir +:+ "/" +:+ dirname ("./" +:+ filename)) uri target Ht)
      as (name & _ & ->).
    apply H. apply list_elem_of_omap. eauto.
  - by apply dump_catalog_entry_no_target.
Qed.

Lemma body_never_returns self component_ref target target_dir filename :
  edge component_ref target ->
  (forall dir name, result (self target dir name) <> Ret tt) ->
  result (dump_component_ref_body self component_ref doc datastream target_dir filename)
  <> Ret tt.
Proof.
  intros He H. unfold dump_component_ref_body.
  unfold catalog_edge, catalog_targets, has_id in He.
  destruct (xmlGetProp component_ref "id") as [cref_id|] eqn:Hid;
    [|by apply elem_of_nil in He].
  destruct (null_or_short (xmlGetProp component_ref "href")) eqn:Hh;
    [by apply elem_of_nil in He|].
  simpl in He.
  rewrite result_bind.
  destruct (mkdir_p_returns (target_dir +:+ "/" +:+ dirname ("./" +:+ filename)))
    as (t & z & ->). simpl.
  rewrite result_bind.
  destruct (result (ds_ids_dump_component _ _ _)); try done.
  destruct (node_get_child_element component_ref (Some "catalog")) as [catalog|];
    [|by apply elem_of_nil in He].
  apply list_elem_of_omap in He as (uri & Huri & Ht).
  apply (for_each_never_returns _ _ uri Huri).
  destruct (dump_catalog_entry_target self doc datastream
              (target_dir +:+ "/" +:+ dirname ("./" +:+ filename)) uri target Ht)
    as (name & _ & ->).
  apply H.
Qed.

Lemma body_ext self1 self2 component_ref target_dir filename :
  (forall target, edge component_ref target -> forall dir name,
     result (self1 target dir name) <> OutOfFuel ->
     self2 target dir name = self1 target dir name) ->
  result (dump_component_ref_body self1 component_ref doc datastream target_dir filename)
  <> OutOfFuel ->
  dump_component_ref_body self2 component_ref doc datastream target_dir filename
  = dump_component_ref_body self1 component_ref doc datastream target_dir filename.
Proof.
  intros H. unfold dump_component_ref_body.
  destruct (xmlGetProp component_ref "id") as [cref_id|] eqn:Hid; [|done].
  destruct (null_or_short (xmlGetProp component_ref "href")) eqn:Hh; [done|].
  unfold catalog_edge in H. rewrite (catalog_targets_checked _ _ _ _ Hid Hh) in H.
  destruct (mkdir_p_returns (target_dir +:+ "/" +:+ dirname ("./" +:+ filename)))
    as (t & z & ->).
  rewrite !result_bind. simpl.
  destruct (ds_ids_dump_component _ _ _) as [t1 [[]| |]]; simpl; try done.
  destruct (node_get_child_element component_ref (Some "catalog")) as [catalog|]; [|done].
  intros Hr.
  assert (for_each (node_children catalog)
            (dump_catalog_entry self2 doc datastream
               (target_dir +:+ "/" +:+ dirname ("./" +:+ filename)))
          = for_each (node_children catalog)
              (dump_catalog_entry self1 doc datastream
                 (target_dir +:+ "/" +:+ dirname ("./" +:+ filename)))) as ->; [|done].
  apply for_each_ext; [|done].
  intros uri Huri Hu.
  destruct (catalog_entry_target doc datastream uri) as [target|] eqn:Ht.
  - destruct (dump_catalog_entry_target self1 doc datastream
                (target_dir +:+ "/" +:+ dirname ("./" +:+ filename)) uri target Ht)
      as (name & Hn & E1).
    destruct (dump_catalog_entry_target self2 doc datastream
                (target_dir +:+ "/" +:+ dirname ("./" +:+ filename)) uri target Ht)
      as (name' & Hn' & E2).
    rewrite Hn in Hn'. injection Hn' as <-.
    rewrite E1, E2. rewrite E1 in Hu. apply H; [|done].
    apply list_elem_of_omap. eauto.
  - by apply dump_catalog_entry_no_target.
Qed.

(** More fuel does not change a run that did not run out of fuel. *)
Lemma dump_component_ref_as_fuel_mono fuel fuel' component_ref target_dir filename :
  fuel <= fuel' ->
  result (ds_ids_dump_component_ref_as fuel component_ref doc datastream target_dir filename)
  <> OutOfFuel ->
  ds_ids_dump_component_ref_as fuel' component_ref doc datastream target_dir filename
  = ds_ids_dump_component_ref_as fuel component_ref doc datastream target_dir filename.
Proof.
  revert fuel' component_ref target_dir filename.
  induction fuel as [|fuel IH]; intros fuel' component_ref target_dir filename Hle Hr;
    [done|].
  destruct fuel' as [|fuel']; [lia|].
  rewrite !dump_component_ref_as_unfold in *.
  apply body_ext; [|done].
  intros target _ dir name Ht. apply IH; [lia|done].
Qed.

(** Along the edges of an acyclic part of the graph the recursion is
    bounded. *)
Lemma dump_component_ref_as_bounded component_ref :
  Acc (flip edge) component_ref ->
  exists fuel, forall target_dir filename,
    result (ds_ids_dump_component_ref_as fuel component_ref doc datastream
              target_dir filename) <> OutOfFuel.
Proof.
  induction 1 as [component_ref _ IH].
  assert (exists fuel, forall target, target ∈ catalog_targets doc datastream component_ref ->
            forall dir name,
              result (ds_ids_dump_component_ref_as fuel target doc datastream dir name)
              <> OutOfFuel) as [fuel Hfuel].
  { assert (forall target, target ∈ catalog_targets doc datastream component_ref ->
              exists fuel, forall dir name,
                result (ds_ids_dump_component_ref_as fuel target doc datastream dir name)
                <> OutOfFuel) as Hall by (intros target Ht; by apply IH).
    induction (catalog_targets doc datastream component_ref) as [|x l IHl].
    - exists 0. intros target Ht. by apply elem_of_nil in Ht.
    - destruct IHl as [n1 H1].
      { intros target Ht. apply Hall. by apply list_elem_of_further. }
      destruct (Hall x (list_elem_of_here _ _)) as [n2 H2].
      exists (n1 `max` n2). intros target Ht dir name.
      apply elem_of_cons in Ht as [->|Ht].
      + rewrite (dump_component_ref_as_fuel_mono n2); [apply H2|lia|apply H2].
      + rewrite (dump_component_ref_as_fuel_mono n1); [by apply H1|lia|by apply H1]. }
  exists (S fuel). intros target_dir filename.
  rewrite dump_component_ref_as_unfold. apply body_bounded.
  intros target Ht dir name. by apply Hfuel.
Qed.

Lemma catalog_entry_target_scanned uri target :
  catalog_entry_target doc datastream uri = Some target ->
  target ∈ scanned_component_refs datastream.
Proof.
  unfold catalog_entry_target.
  destruct (is_named_element uri "uri"); [|done].
  destruct (xmlGetProp uri "name"); [|done].
  destruct (null_or_short _); [done|].
  rewrite find_component_ref_scan.
  generalize (str_next (default EmptyString (xmlGetProp uri "uri"))) as id.
  intros id.
  induction (scanned_component_refs datastream) as [|n l IH]; simpl; [done|].
  destruct (xmlGetProp n "id"); [|done].
  destruct (streq _ _).
  - intros [= ->]. apply list_elem_of_here.
  - intros H. apply list_elem_of_further. by apply IH.
Qed.

Lemma catalog_edge_scanned component_ref target :
  edge component_ref target -> target ∈ scanned_component_refs datastream.
Proof.
  unfold catalog_edge, catalog_targets.
  destruct (_ && _); [|by intros ?%elem_of_nil].
  destruct (node_get_child_element _ _); [|by intros ?%elem_of_nil].
  intros (uri & _ & Ht)%list_elem_of_omap. by eapply catalog_entry_target_scanned.
Qed.

Lemma catalog_acyclic_sn component_ref :
  catalog_acyclic doc datastream -> Acc (flip edge) component_ref.
Proof.
  intros Hacyclic. apply tc_finite_sn.
  - intros x. apply Hacyclic.
  - exists (scanned_component_refs datastream). intros target Ht.
    induction Ht as [x y Hxy|x y z _ _ IH]; [|done].
    by eapply catalog_edge_scanned.
Qed.

Lemma reaches_catalog_cycle_step component_ref :
  reaches_catalog_cycle doc datastream component_ref ->
  exists target, edge component_ref target /\ reaches_catalog_cycle doc datastream target.
Proof.
  intros (c & Hrtc & Htc).
  destruct Hrtc as [x|x y z Hxy Hyz].
  - inversion Htc as [? y Hxy|? y ? Hxy Hyx]; subst.
    + exists x. split; [done|]. exists x. split; [apply rtc_refl|done].
    + exists y. split; [done|]. exists x. split; [by apply tc_rtc|done].
  - exists y. split; [done|]. by exists z.
Qed.

Lemma dump_component_ref_as_never_returns fuel component_ref target_dir filename :
  reaches_catalog_cycle doc datastream component_ref ->
  result (ds_ids_dump_component_ref_as fuel component_ref doc datastream target_dir filename)
  <> Ret tt.
Proof.
  revert component_ref target_dir filename.
  induction fuel as [|fuel IH]; intros component_ref target_dir filename Hc; [done|].
  rewrite dump_component_ref_as_unfold.
  destruct (reaches_catalog_cycle_step _ Hc) as (target & He & Ht).
  eapply body_never_returns; [exact He|].
  intros dir name. by apply IH.
Qed.

End Body.

Lemma tc_first_step {A} (R : relation A) x z : tc R x z -> exists y, R x y.
Proof. destruct 1; eauto. Qed.

Lemma tc_last_step {A} (R : relation A) x z : tc R x z -> exists y, R y z.
Proof. induction 1; eauto. Qed.

Lemma doc_nested_acyclic : catalog_acyclic Examples.doc_nested Examples.ds_nested.
Proof.
  assert (forall z, ~ catalog_edge Examples.doc_nested Examples.ds_nested Examples.ref_q z)
    as Hq.
  { intros z Hz. unfold catalog_edge in Hz.
    change (catalog_targets Examples.doc_nested Examples.ds_nested Examples.ref_q)
      with (@nil xmlNode) in Hz.
    by apply elem_of_nil in Hz. }
  assert (forall z, catalog_edge Examples.doc_nested Examples.ds_nested Examples.ref_p z ->
                    z = Examples.ref_q) as Hp.
  { intros z Hz. unfold catalog_edge in Hz.
    change (catalog_targets Examples.doc_nested Examples.ds_nested Examples.ref_p)
      with [Examples.ref_q] in Hz.
    by apply list_elem_of_singleton in Hz. }
  intros x Hx.
  destruct (tc_last_step _ _ _ Hx) as [y Hy].
  apply catalog_edge_scanned in Hy.
  change (scanned_component_refs Examples.ds_nested)
    with [Examples.ref_p; Examples.ref_q] in Hy.
  apply elem_of_cons in Hy as [->|Hy].
  - inversion Hx as [? ? H1|? y' ? H1 H2]; subst.
    + apply Hp in H1. discriminate.
    + apply Hp in H1 as ->. destruct (tc_first_step _ _ _ H2) as [z Hz]. by apply Hq in Hz.
  - apply list_elem_of_singleton in Hy as ->.
    destruct (tc_first_step _ _ _ Hx) as [z Hz]. by apply Hq in Hz.
Qed.

Lemma doc_cycle_reaches_cycle :
  reaches_catalog_cycle Examples.doc_cycle Examples.ds_cycle Examples.ref_a.
Proof.
  exists Examples.ref_a. split; [apply rtc_refl|].
  apply tc_l with Examples.ref_b; [|apply tc_once];
    unfold catalog_edge; apply list_elem_of_here.
Qed.

Example cycle_runs :
  ds_ids_dump_component_ref_as 2 Examples.ref_a Examples.doc_cycle Examples.ds_cycle
    "out" "cA"
  = ([Mkdir "out"; Mkdir "out/.";
      SaveFileEnc "out/./cA" (Examples.payload "A") "utf-8";
      Mkdir "out"; Mkdir "out/."; Mkdir "out/./.";
      SaveFileEnc "out/././b.xml" (Examples.payload "B") "utf-8"], OutOfFuel)
  /\ result (ds_ids_dump_component_ref_as 40 Examples.ref_a Examples.doc_cycle
               Examples.ds_cycle "out" "cA") = OutOfFuel.
Proof. split; reflexivity. Qed.

Example nested_run :
  ds_ids_dump_component_ref_as 2 Examples.ref_p Examples.doc_nested Examples.ds_nested
    "out" "a/b.xml"
  = ([Mkdir "out"; Mkdir "out/."; Mkdir "out/./a";
      SaveFileEnc "out/./a/b.xml" (Examples.payload "P") "utf-8";
      Mkdir "out"; Mkdir "out/."; Mkdir "out/./a"; Mkdir "out/./a/.";
      Mkdir "out/./a/./sub";
      SaveFileEnc "out/./a/./sub/q.xml" (Examples.payload "Q") "utf-8"], Ret tt).
Proof. reflexivity. Qed.

(** ** Paths *)

Lemma list_ascii_app (a b : string) :
  list_ascii_of_string (a +:+ b) = list_ascii_of_string a ++ list_ascii_of_string b.
Proof.
  induction a as [|c a IH]; [done|].
  rewrite string_app_cons. simpl. by rewrite IH.
Qed.

Lemma split_slash_not_nil l : split_slash l <> [].
Proof.
  induction l as [|c l IH]; simpl; [done|].
  destruct (is_slash c); [done|]. by destruct (split_slash l).
Qed.

(** Splitting at a slash: the parts before it, then the parts after it. *)
Lemma split_slash_app a b :
  split_slash (a ++ "/"%char :: b) = split_slash a ++ split_slash b.
Proof.
  induction a as [|c a IH]; simpl; [done|].
  destruct (is_slash c); [by rewrite IH|].
  rewrite IH. pose proof (split_slash_not_nil a). by destruct (split_slash a).
Qed.

Lemma split_slash_no_slash a :
  forallb not_slash a = true -> split_slash a = [a].
Proof.
  induction a as [|c a IH]; simpl; [done|].
  unfold not_slash at 1. destruct (is_slash c); simpl; [done|].
  intros H. by rewrite IH.
Qed.

Lemma components_app a b :
  components (a ++ "/"%char :: b) = components a ++ components b.
Proof. unfold components. by rewrite split_slash_app, List.filter_app. Qed.

Lemma components_slashes s : forallb is_slash s = true -> components s = [].
Proof.
  induction s as [|c s IH]; [done|]. simpl. intros [Hc Hs]%andb_true_iff.
  unfold components in *. simpl. rewrite Hc. simpl. by apply IH.
Qed.

Lemma is_slash_true c : is_slash c = true -> c = "/"%char.
Proof. unfold is_slash. by intros ?%Ascii.eqb_eq. Qed.

(** Slashes at the end of a path do not change its components. *)
Lemma components_trailing_slashes a s :
  forallb is_slash s = true -> components (a ++ s) = components a.
Proof.
  destruct s as [|c s]; [by rewrite app_nil_r|].
  simpl. intros [Hc Hs]%andb_true_iff. apply is_slash_true in Hc as ->.
  by rewrite components_app, (components_slashes s Hs), app_nil_r.
Qed.

Lemma components_no_slash a :
  forallb not_slash a = true ->
  components a = if keep_segment a then [a] else [].
Proof. intros H. unfold components. rewrite split_slash_no_slash by done. done. Qed.

Lemma path_components_eq (p : string) :
  path_components p = map string_of_list_ascii (components (list_ascii_of_string p)).
Proof. reflexivity. Qed.

Lemma take_drop_while p l : take_while p l ++ drop_while p l = l.
Proof.
  induction l as [|c l IH]; simpl; [done|].
  destruct (p c); simpl; [by rewrite IH|done].
Qed.

Lemma take_while_all p l : forallb p (take_while p l) = true.
Proof.
  induction l as [|c l IH]; simpl; [done|].
  destruct (p c) eqn:E; simpl; [by rewrite E|done].
Qed.

Lemma drop_while_head p l c l' : drop_while p l = c :: l' -> p c = false.
Proof.
  induction l as [|x l IH]; simpl; [done|].
  destruct (p x) eqn:E; [done|]. by intros [= <- <-].
Qed.

Lemma forallb_rev {A} (p : A -> bool) l : forallb p (rev l) = forallb p l.
Proof.
  induction l as [|c l IH]; simpl; [done|].
  rewrite forallb_app, IH. simpl. rewrite andb_true_r. apply andb_comm.
Qed.

Lemma drop_slashes_dot_slash r :
  drop_while is_slash (r ++ ["/"; "."]%char) =
  match drop_while is_slash r with
  | [] => ["."%char]
  | r0 => r0 ++ ["/"; "."]%char
  end.
Proof.
  induction r as [|c r IH]; simpl; [done|].
  destruct (is_slash c); [done|done].
Qed.

Lemma drop_component_dot_slash r :
  drop_while not_slash (r ++ ["/"; "."]%char) = drop_while not_slash r ++ ["/"; "."]%char.
Proof.
  induction r as [|c r IH]; simpl; [done|].
  destruct (not_slash c); [done|done].
Qed.

Section DirBase.

Variable filename : string.

Lemma dirname_components :
  components (list_ascii_of_string (dirname ("./" +:+ filename)))
  = components (rev (rev_before_last filename)).
Proof.
  unfold dirname, rev_before_last. rewrite list_ascii_app, rev_app_distr.
  change (rev (list_ascii_of_string "./")) with ["/"; "."]%char.
  generalize (rev (list_ascii_of_string filename)). intros r.
  rewrite drop_slashes_dot_slash.
  destruct (drop_while is_slash r) as [|c0 r0] eqn:E0; [done|].
  cbn [app]. rewrite app_comm_cons, drop_component_dot_slash.
  set (r1 := drop_while not_slash (c0 :: r0)).
  destruct r1 as [|c1 r1'] eqn:E1.
  - simpl. done.
  - cbn [app]. rewrite app_comm_cons, drop_slashes_dot_slash.
    pose proof (take_drop_while is_slash (c1 :: r1')) as Hsplit.
    pose proof (take_while_all is_slash (c1 :: r1')) as Hall.
    destruct (drop_while is_slash (c1 :: r1')) as [|c2 r2] eqn:E2.
    + rewrite app_nil_r in Hsplit. rewrite Hsplit in Hall.
      rewrite (components_slashes (rev (c1 :: r1'))) by (by rewrite forallb_rev). done.
    + cbn [app]. rewrite list_ascii_of_string_of_list_ascii.
      rewrite <- Hsplit. rewrite (rev_app_distr (take_while _ _)).
      rewrite components_trailing_slashes by (by rewrite forallb_rev).
      rewrite app_comm_cons, rev_app_distr.
      change (rev ["/"; "."]%char) with (["."] ++ ["/"])%char.
      rewrite <- app_assoc. cbn [app].
      change (components (["."%char] ++ "/"%char :: rev (c2 :: r2))
              = components (rev (c2 :: r2))).
      by rewrite components_app.
Qed.

Lemma basename_components :
  components (list_ascii_of_string (basename filename))
  = components (rev (rev_last_component filename)).
Proof.
  unfold basename, rev_last_component.
  generalize (rev (list_ascii_of_string filename)). intros r.
  destruct r as [|c r'] eqn:Er; [done|].
  destruct (drop_while is_slash (c :: r')) as [|c0 r0] eqn:E0; [done|].
  by rewrite list_ascii_of_string_of_list_ascii.
Qed.

Lemma filename_components :
  components (list_ascii_of_string filename)
  = components (rev (rev_before_last filename))
    ++ components (rev (rev_last_component filename)).
Proof.
  unfold rev_before_last, rev_last_component.
  rewrite <- (rev_involutive (list_ascii_of_string filename)) at 1.
  generalize (rev (list_ascii_of_string filename)). intros r.
  rewrite <- (take_drop_while is_slash r) at 1.
  rewrite rev_app_distr.
  rewrite components_trailing_slashes
    by (rewrite forallb_rev; apply take_while_all).
  rewrite <- (take_drop_while not_slash (drop_while is_slash r)) at 1.
  rewrite rev_app_distr.
  destruct (drop_while not_slash (drop_while is_slash r)) as [|c1 r1] eqn:E1; [done|].
  apply drop_while_head in E1. unfold not_slash in E1.
  apply negb_false_iff, is_slash_true in E1 as ->.
  simpl. rewrite <- app_assoc. cbn [app].
  rewrite !components_app. by rewrite app_nil_r.
Qed.

(** The directory part of [./filename] followed by the last component of
    [filename] names what [filename] names. *)
Lemma dirname_basename_components :
  path_components (dirname ("./" +:+ filename) +:+ "/" +:+ basename filename)
  = path_components filename.
Proof.
  rewrite !path_components_eq. f_equal.
  rewrite !list_ascii_app.
  change (list_ascii_of_string "/") with ["/"%char]. cbn [app].
  rewrite components_app, dirname_components, basename_components.
  by rewrite filename_components.
Qed.

End DirBase.

Lemma path_components_app (a b : string) :
  path_components (a +:+ "/" +:+ b) = path_components a ++ path_components b.
Proof.
  rewrite !path_components_eq, !list_ascii_app.
  change (list_ascii_of_string "/") with ["/"%char]. cbn [app].
  by rewrite components_app, map_app.
Qed.

(** On a file name that is not empty and does not end in a slash the two
    variants of [basename] agree. *)
Lemma basename_gnu_posix (filename : string) c l :
  rev (list_ascii_of_string filename) = c :: l ->
  is_slash c = false ->
  basename_gnu filename = basename filename.
Proof.
  intros Hr Hc. unfold basename_gnu, basename. rewrite Hr. simpl. by rewrite Hc.
Qed.

(** ** C5: where a catalog entry is written *)

Lemma saved_app t1 t2 : saved (t1 ++ t2) = saved t1 ++ saved t2.
Proof. unfold saved. apply flat_map_app. Qed.

Lemma mkdir_p_saves_nothing path : saved (trace (mkdir_p path)) = [].
Proof.
  unfold mkdir_p. destruct (_ <? _)%Z; [reflexivity|]. unfold trace, fst.
  induction (seq 0 (S (String.length path))) as [|i l IH]; [done|].
  simpl. rewrite saved_app, IH, app_nil_r.
  unfold mkdir_p_step. destruct (String.get i path) as [c|]; [|done].
  by destruct (is_slash c).
Qed.

Lemma trace_bind_returned {A B} (m : M A) (f : A -> M B) a :
  result m = Ret a -> trace (m ≫= f) = trace m ++ trace (f a).
Proof.
  destruct m as [t o]. simpl. intros ->.
  unfold mbind, M_bind, bind. by destruct (f a).
Qed.

Lemma trace_bind_prefix {A B} (m : M A) (f : A -> M B) e :
  e ∈ trace m -> e ∈ trace (m ≫= f).
Proof.
  intros He. destruct (bind_trace m f) as [t' ->]. apply elem_of_app. by left.
Qed.

Lemma saved_elem filename root encoding t :
  SaveFileEnc filename root encoding ∈ t -> (filename, root) ∈ saved t.
Proof.
  induction t as [|e t IH]; [by intros ?%elem_of_nil|].
  intros [<-|H]%elem_of_cons; unfold saved; simpl.
  - apply list_elem_of_here.
  - apply elem_of_app. right. by apply IH.
Qed.

Lemma destination_assoc target_dir filename :
  destination target_dir filename
  = destination_dir target_dir filename +:+ "/" +:+ basename filename.
Proof. unfold destination, destination_dir. by rewrite !string_app_assoc. Qed.

(** The run of the body on a ref that passes the checks and resolves: the
    directories, the file of the ref, then the catalog. *)
Lemma body_run self component_ref doc datastream target_dir filename payload :
  has_id component_ref = true ->
  resolved_payload doc component_ref = Some payload ->
  exists catalog_run : M unit,
    dump_component_ref_body self component_ref doc datastream target_dir filename
    = (trace (mkdir_p (destination_dir target_dir filename))
         ++ SaveFileEnc (destination target_dir filename) payload "utf-8"
         :: trace catalog_run,
       result catalog_run)
    /\ catalog_run =
       match node_get_child_element component_ref (Some "catalog") with
       | None => mret tt
       | Some catalog =>
           for_each (node_children catalog)
             (dump_catalog_entry self doc datastream (destination_dir target_dir filename))
       end.
Proof.
  unfold has_id, resolved_payload, dump_component_ref_body.
  destruct (xmlGetProp component_ref "id") as [cref_id|]; [intros _|done].
  destruct (null_or_short _); [done|].
  unfold ds_ids_dump_component.
  destruct (find_component _ _) as [[component|]| |]; try done.
  intros Hp. eexists. split; [|reflexivity].
  fold (destination_dir target_dir filename). fold (destination target_dir filename).
  destruct (mkdir_p_returns (destination_dir target_dir filename)) as (t & z & ->).
  unfold lift, emit, mbind, M_bind, bind. simpl. rewrite Hp.
  destruct (match node_get_child_element component_ref (Some "catalog") with
            | Some _ => _ | None => _ end) as [tc oc].
  reflexivity.
Qed.

Lemma body_saves_own_file self component_ref doc datastream target_dir filename payload :
  has_id component_ref = true ->
  resolved_payload doc component_ref = Some payload ->
  (destination target_dir filename, payload)
  ∈ saved (trace (dump_component_ref_body self component_ref doc datastream
                    target_dir filename)).
Proof.
  intros Hid Hp.
  destruct (body_run self component_ref doc datastream target_dir filename payload Hid Hp)
    as (catalog_run & -> & _).
  simpl. eapply saved_elem. apply elem_of_app. right. apply list_elem_of_here.
Qed.

Lemma for_each_reaches before x after (body : xmlNode -> M unit) e :
  result (for_each before body) = Ret tt ->
  e ∈ trace (body x) ->
  e ∈ trace (for_each (before ++ x :: after) body).
Proof.
  intros Hb He. rewrite for_each_app, (trace_bind_returned _ _ tt Hb).
  apply elem_of_app. right. cbn [for_each]. by apply trace_bind_prefix.
Qed.

(** The file of a catalog entry, for a ref that is itself dumped as
    [filename]: it is written under the directory of [filename]. *)
Lemma catalog_file_destination (fuel : nat) (doc : xmlDoc)
    (datastream component_ref target catalog uri : xmlNode)
    (before after : list xmlNode) (target_dir filename name : string) (payload : xmlNode) :
  has_id component_ref = true ->
  null_or_short (xmlGetProp component_ref "href") = false ->
  result (ds_ids_dump_component
            (str_next (default EmptyString (xmlGetProp component_ref "href"))) doc
            (destination target_dir filename)) = Ret tt ->
  node_get_child_element component_ref (Some "catalog") = Some catalog ->
  node_children catalog = before ++ uri :: after ->
  result (for_each before
            (dump_catalog_entry
               (fun r dir n => ds_ids_dump_component_ref_as (S fuel) r doc datastream dir n)
               doc datastream (destination_dir target_dir filename))) = Ret tt ->
  xmlGetProp uri "name" = Some name ->
  catalog_entry_target doc datastream uri = Some target ->
  has_id target = true ->
  resolved_payload doc target = Some payload ->
  (destination (destination_dir target_dir filename) name, payload)
  ∈ saved (trace (ds_ids_dump_component_ref_as (S (S fuel)) component_ref doc datastream
                    target_dir filename))
  /\ path_components (destination (destination_dir target_dir filename) name)
     = path_components target_dir ++ path_components (dirname ("./" +:+ filename))
       ++ path_components name.
Proof.
  intros Hid Hh Hdump Hcat Hch Hbefore Hname Htarget Hid2 Hp2. split.
  - rewrite dump_component_ref_as_unfold. unfold dump_component_ref_body.
    unfold has_id in Hid. destruct (xmlGetProp component_ref "id"); [|done].
    rewrite Hh, Hcat, Hch.
    fold (destination_dir target_dir filename). fold (destination target_dir filename).
    destruct (mkdir_p_returns (destination_dir target_dir filename)) as (t & z & Hm).
    rewrite (trace_bind_returned _ _ z) by (by rewrite Hm).
    rewrite saved_app. apply elem_of_app. right.
    rewrite (trace_bind_returned _ _ tt Hdump).
    rewrite saved_app. apply elem_of_app. right.
    destruct (dump_catalog_entry_target
                (fun r dir n => ds_ids_dump_component_ref_as (S fuel) r doc datastream dir n)
                doc datastream (destination_dir target_dir filename) uri target Htarget)
      as (name' & Hname' & Hentry).
    rewrite Hname in Hname'. injection Hname' as <-.
    pose proof (body_saves_own_file
                  (fun r dir n => ds_ids_dump_component_ref_as fuel r doc datastream dir n)
                  target doc datastream (destination_dir target_dir filename) name payload
                  Hid2 Hp2) as Hsaved.
    rewrite <- dump_component_ref_as_unfold, <- Hentry in Hsaved.
    unfold saved in *. apply list_elem_of_In, in_flat_map.
    apply list_elem_of_In, in_flat_map in Hsaved as (e & He & Hroot).
    exists e. split; [|done].
    apply list_elem_of_In. apply for_each_reaches; [done|]. by apply list_elem_of_In.
  - unfold destination. rewrite path_components_app, dirname_basename_components.
    unfold destination_dir. rewrite path_components_app. by rewrite app_assoc.
Qed.

(** C5.  A ref is dumped as [a/b.xml] under the target directory, and an
    entry of its catalog, with attribute [name], resolves to a second ref.
    When the run gets to that entry (the component of the first ref is
    looked up without undefined behaviour and the entries before return),
    the file of the second ref is written at [a/<name>] below the target
    directory: the path is [target_dir/./a/] followed by the directory and
    last component of [name], its components are those of the target
    directory, then [a], then those of [name]; it is not [<name>] directly
    under the target directory. *)
Theorem catalog_file_is_nested (fuel : nat) (doc : xmlDoc)
    (datastream component_ref target catalog uri : xmlNode)
    (before after : list xmlNode) (target_dir name : string) (payload : xmlNode) :
  has_id component_ref = true ->
  null_or_short (xmlGetProp component_ref "href") = false ->
  result (ds_ids_dump_component
            (str_next (default EmptyString (xmlGetProp component_ref "href"))) doc
            (destination target_dir "a/b.xml")) = Ret tt ->
  node_get_child_element component_ref (Some "catalog") = Some catalog ->
  node_children catalog = before ++ uri :: after ->
  result (for_each before
            (dump_catalog_entry
               (fun r dir n => ds_ids_dump_component_ref_as (S fuel) r doc datastream dir n)
               doc datastream (destination_dir target_dir "a/b.xml"))) = Ret tt ->
  xmlGetProp uri "name" = Some name ->
  catalog_entry_target doc datastream uri = Some target ->
  has_id target = true ->
  resolved_payload doc target = Some payload ->
  exists path,
    (path, payload)
    ∈ saved (trace (ds_ids_dump_component_ref_as (S (S fuel)) component_ref doc datastream
                      target_dir "a/b.xml"))
    /\ path = target_dir +:+ "/./a/" +:+ dirname ("./" +:+ name) +:+ "/" +:+ basename name
    /\ path_components path = path_components target_dir ++ ["a"] ++ path_components name
    /\ path_components path <> path_components target_dir ++ path_components name.
Proof.
  intros Hid Hh Hdump Hcat Hch Hbefore Hname Htarget Hid2 Hp2.
  destruct (catalog_file_destination fuel doc datastream component_ref target catalog uri
              before after target_dir "a/b.xml" name payload
              Hid Hh Hdump Hcat Hch Hbefore Hname Htarget Hid2 Hp2) as [Hin Hcomp].
  change (path_components (dirname ("./" +:+ "a/b.xml"))) with ["a"] in Hcomp.
  exists (destination (destination_dir target_dir "a/b.xml") name).
  split; [done|]. split; [|split; [done|]].
  - unfold destination, destination_dir.
    change (dirname ("./" +:+ "a/b.xml")) with "./a".
    rewrite !string_app_assoc. done.
  - rewrite Hcomp. intros E. apply app_inv_head in E.
    apply (f_equal length) in E. simpl in E. lia.
Qed.

Lemma catalog_file_is_nested_witness :
  exists path,
    (path, Examples.payload "Q")
    ∈ saved (trace (ds_ids_dump_component_ref_as 2 Examples.ref_p Examples.doc_nested
                      Examples.ds_nested "out" "a/b.xml"))
    /\ path = "out" +:+ "/./a/" +:+ dirname ("./" +:+ "sub/q.xml") +:+ "/"
              +:+ basename "sub/q.xml"
    /\ path_components path = path_components "out" ++ ["a"] ++ path_components "sub/q.xml"
    /\ path_components path <> path_components "out" ++ path_components "sub/q.xml".
Proof.
  apply (catalog_file_is_nested 0 Examples.doc_nested Examples.ds_nested Examples.ref_p
           Examples.ref_q (Examples.catalog [Examples.uri "sub/q.xml" "#rQ"])
           (Examples.uri "sub/q.xml" "#rQ") [] [] "out" "sub/q.xml" (Examples.payload "Q"));
    reflexivity.
Defined.

Example catalog_file_path :
  destination (destination_dir "out" "a/b.xml") "sub/q.xml" = "out/./a/./sub/q.xml"
  /\ path_components "out/./a/./sub/q.xml" = ["out"; "a"; "sub"; "q.xml"].
Proof. split; reflexivity. Qed.

(** ** C1: what a decomposition writes *)

Lemma for_each_defined l (body : xmlNode -> M unit) :
  (forall x, x ∈ l -> result (body x) <> Undefined) ->
  result (for_each l body) <> Undefined.
Proof.
  induction l as [|x l IH]; intros H; cbn [for_each]; [done|].
  rewrite result_bind.
  pose proof (H x (list_elem_of_here _ _)) as Hx.
  destruct (result (body x)); try done.
  apply IH. intros y Hy. apply H. by apply list_elem_of_further.
Qed.

Lemma scan_ids_defined nodes id :
  forallb has_id nodes = true -> scan_ids nodes id <> Undefined.
Proof.
  induction nodes as [|n l IH]; simpl; [done|].
  unfold has_id at 1. destruct (xmlGetProp n "id"); [|done]. simpl.
  intros H. destruct (streq _ _); [done|by apply IH].
Qed.

Section Defined.

Context (doc : xmlDoc) (datastream : xmlNode).
Hypothesis Hids : ids_present doc datastream = true.
Hypothesis Hresolve : catalogs_resolve doc datastream = true.

Local Abbreviation edge := (catalog_edge doc datastream).

Lemma dump_component_defined component_id filename :
  result (ds_ids_dump_component component_id doc filename) = Ret tt.
Proof.
  apply andb_true_iff in Hids as [Hc _].
  unfold ds_ids_dump_component. rewrite result_bind. unfold lift. simpl.
  rewrite find_component_scan.
  pose proof (scan_ids_defined _ component_id Hc) as Hd.
  pose proof (scan_ids_never_out_of_fuel (scanned_components doc) component_id) as Hf.
  destruct (scan_ids _ _) as [[c|]| |]; try done.
  by destruct (node_get_child_element c None).
Qed.

Lemma entry_defined self dir uri :
  entry_resolves doc datastream uri = true ->
  (forall target, catalog_entry_target doc datastream uri = Some target ->
     forall name, result (self target dir name) <> Undefined) ->
  result (dump_catalog_entry self doc datastream dir uri) <> Undefined.
Proof.
  unfold entry_resolves, catalog_entry_target, dump_catalog_entry, is_named_element.
  destruct (is_element uri); simpl; [|done].
  destruct (streq (node_name uri) "uri"); simpl; [|done].
  destruct (xmlGetProp uri "name") as [name|]; [|done].
  destruct (null_or_short _); [done|].
  destruct (ds_ids_find_component_ref _ _ _) as [[r|]| |]; try done.
  intros _ H. specialize (H r eq_refl name). revert H.
  unfold lift, mbind, M_bind, bind. simpl. by destruct (self r dir name).
Qed.

Lemma body_defined self component_ref target_dir filename :
  catalog_resolves doc datastream component_ref = true ->
  (forall target, edge component_ref target ->
     forall dir name, result (self target dir name) <> Undefined) ->
  result (dump_component_ref_body self component_ref doc datastream target_dir filename)
  <> Undefined.
Proof.
  intros Hr H. unfold dump_component_ref_body. unfold catalog_resolves, has_id in Hr.
  destruct (xmlGetProp component_ref "id") as [cref_id|] eqn:Hid; [|done].
  destruct (null_or_short (xmlGetProp component_ref "href")) eqn:Hh; [done|].
  unfold catalog_edge in H. rewrite (catalog_targets_checked _ _ _ _ Hid Hh) in H.
  simpl in Hr.
  rewrite result_bind.
  destruct (mkdir_p_returns (target_dir +:+ "/" +:+ dirname ("./" +:+ filename)))
    as (t & z & ->). simpl.
  rewrite result_bind, dump_component_defined.
  destruct (node_get_child_element component_ref (Some "catalog")) as [catalog|]; [|done].
  apply for_each_defined. intros uri Huri.
  apply entry_defined.
  - rewrite forallb_forall in Hr. apply Hr. by apply list_elem_of_In.
  - intros target Ht name. apply H. apply list_elem_of_omap. eauto.
Qed.

Lemma catalog_resolves_scanned component_ref :
  component_ref ∈ scanned_component_refs datastream ->
  catalog_resolves doc datastream component_ref = true.
Proof.
  intros Hin. unfold catalogs_resolve in Hresolve.
  rewrite forallb_forall in Hresolve. apply Hresolve. by apply list_elem_of_In.
Qed.

Lemma dump_component_ref_as_defined fuel component_ref target_dir filename :
  component_ref ∈ scanned_component_refs datastream ->
  result (ds_ids_dump_component_ref_as fuel component_ref doc datastream
            target_dir filename) <> Undefined.
Proof.
  revert component_ref target_dir filename.
  induction fuel as [|fuel IH]; intros component_ref target_dir filename Hin; [done|].
  rewrite dump_component_ref_as_unfold. apply body_defined.
  - by apply catalog_resolves_scanned.
  - intros target Ht dir name. apply IH. by eapply catalog_edge_scanned.
Qed.

(** Without cycles, one depth is enough for every ref of the
    datastream, and every run with that depth or more returns. *)
Lemma dump_component_ref_as_returns :
  catalog_acyclic doc datastream ->
  exists fuel, forall fuel' component_ref target_dir filename,
    fuel <= fuel' ->
    component_ref ∈ scanned_component_refs datastream ->
    result (ds_ids_dump_component_ref_as fuel' component_ref doc datastream
              target_dir filename) = Ret tt.
Proof.
  intros Hacyclic.
  assert (exists fuel, forall component_ref,
            component_ref ∈ scanned_component_refs datastream ->
            forall target_dir filename,
              result (ds_ids_dump_component_ref_as fuel component_ref doc datastream
                        target_dir filename) <> OutOfFuel) as [fuel Hfuel].
  { induction (scanned_component_refs datastream) as [|x l IHl].
    - exists 0. intros r Hr. by apply elem_of_nil in Hr.
    - destruct IHl as [n1 H1].
      destruct (dump_component_ref_as_bounded doc datastream x
                  (catalog_acyclic_sn doc datastream x Hacyclic)) as [n2 H2].
      exists (n1 `max` n2). intros r Hr dir name.
      apply elem_of_cons in Hr as [->|Hr].
      + rewrite (dump_component_ref_as_fuel_mono doc datastream n2); [apply H2|lia|apply H2].
      + rewrite (dump_component_ref_as_fuel_mono doc datastream n1);
          [by apply H1|lia|by apply H1]. }
  exists fuel. intros fuel' component_ref target_dir filename Hle Hin.
  rewrite (dump_component_ref_as_fuel_mono doc datastream fuel fuel') by auto.
  pose proof (Hfuel component_ref Hin target_dir filename) as Hb.
  pose proof (dump_component_ref_as_defined fuel component_ref target_dir filename Hin)
    as Hd.
  by destruct (result _) as [[]| |].
Qed.

End Defined.

(** C8.  [ds_ids_dump_component_ref_as] has no depth or cycle guard, and
    its recursion follows the catalog graph.  When the graph has no cycle,
    the recursion is bounded for every ref: some depth is enough, and with
    that depth or more the run is the same and does not exhaust it; and
    when, besides, the lookups are defined (the scanned nodes have ids and
    the catalog entries resolve), the call on a ref of the datastream
    returns.  When the ref lies on a catalog cycle or reaches one, no depth
    is enough: the call never returns. *)
Theorem catalog_recursion_depth (doc : xmlDoc) (datastream component_ref : xmlNode)
    (target_dir filename : string) :
  (catalog_acyclic doc datastream ->
   exists fuel, forall fuel', fuel <= fuel' ->
     result (ds_ids_dump_component_ref_as fuel' component_ref doc datastream
               target_dir filename) <> OutOfFuel
     /\ ds_ids_dump_component_ref_as fuel' component_ref doc datastream target_dir filename
        = ds_ids_dump_component_ref_as fuel component_ref doc datastream target_dir filename)
  /\ (catalog_acyclic doc datastream ->
      ids_present doc datastream = true ->
      catalogs_resolve doc datastream = true ->
      component_ref ∈ scanned_component_refs datastream ->
      exists fuel, forall fuel', fuel <= fuel' ->
        result (ds_ids_dump_component_ref_as fuel' component_ref doc datastream
                  target_dir filename) = Ret tt)
  /\ (reaches_catalog_cycle doc datastream component_ref ->
      forall fuel,
        result (ds_ids_dump_component_ref_as fuel component_ref doc datastream
                  target_dir filename) <> Ret tt).
Proof.
  split; [|split].
  - intros Hacyclic.
    destruct (dump_component_ref_as_bounded doc datastream component_ref
                (catalog_acyclic_sn doc datastream component_ref Hacyclic)) as [fuel Hfuel].
    exists fuel. intros fuel' Hle.
    rewrite (dump_component_ref_as_fuel_mono doc datastream fuel fuel') by done.
    split; [apply Hfuel|done].
  - intros Hacyclic Hids Hresolve Hin.
    destruct (dump_component_ref_as_returns doc datastream Hids Hresolve Hacyclic)
      as [fuel Hfuel].
    exists fuel. intros fuel' Hle. by apply Hfuel.
  - intros Hcycle fuel. by apply dump_component_ref_as_never_returns.
Qed.

Lemma catalog_recursion_depth_witness :
  (exists fuel, forall fuel', fuel <= fuel' ->
     result (ds_ids_dump_component_ref_as fuel' Examples.ref_p Examples.doc_nested
               Examples.ds_nested "out" "a/b.xml") <> OutOfFuel
     /\ ds_ids_dump_component_ref_as fuel' Examples.ref_p Examples.doc_nested
          Examples.ds_nested "out" "a/b.xml"
        = ds_ids_dump_component_ref_as fuel Examples.ref_p Examples.doc_nested
            Examples.ds_nested "out" "a/b.xml")
  /\ (exists fuel, forall fuel', fuel <= fuel' ->
        result (ds_ids_dump_component_ref_as fuel' Examples.ref_p Examples.doc_nested
                  Examples.ds_nested "out" "a/b.xml") = Ret tt)
  /\ (forall fuel,
        result (ds_ids_dump_component_ref_as fuel Examples.ref_a Examples.doc_cycle
                  Examples.ds_cycle "out" "cA") <> Ret tt).
Proof.
  split; [|split].
  - apply (catalog_recursion_depth Examples.doc_nested Examples.ds_nested Examples.ref_p
             "out" "a/b.xml").
    exact doc_nested_acyclic.
  - apply (catalog_recursion_depth Examples.doc_nested Examples.ds_nested Examples.ref_p
             "out" "a/b.xml").
    + exact doc_nested_acyclic.
    + reflexivity.
    + reflexivity.
    + apply list_elem_of_here.
  - apply (catalog_recursion_depth Examples.doc_cycle Examples.ds_cycle Examples.ref_a
             "out" "cA").
    exact doc_cycle_reaches_cycle.
Defined.


Lemma dump_checklists_refs fuel nodes doc datastream target_dir :
  dump_checklists fuel nodes doc datastream target_dir
  = for_each (component_refs_of nodes)
      (fun component_ref =>
         ds_ids_dump_component_ref fuel component_ref doc datastream
           (effective_target_dir target_dir)).
Proof.
  unfold dump_checklists, component_refs_of, effective_target_dir.
  induction nodes as [|n l IH]; [done|].
  cbn [for_each List.filter]. unfold is_named_element at 1.
  destruct (is_element n); cbn [negb andb]; [|by rewrite bind_ret].
  destruct (streq (node_name n) "component-ref"); cbn [negb]; [|by rewrite bind_ret].
  cbn [for_each]. by rewrite IH.
Qed.

Lemma first_child_element_in candidates name child :
  first_child_element candidates name = Some child ->
  child ∈ candidates /\ is_element child = true.
Proof.
  induction candidates as [|c l IH]; simpl; [done|].
  destruct (is_element c) eqn:E; simpl.
  - destruct name as [n|].
    + destruct (streq (node_name c) n); simpl.
      * intros [= <-]. split; [apply list_elem_of_here|done].
      * intros H. destruct (IH H). split; [by apply list_elem_of_further|done].
    + intros [= <-]. split; [apply list_elem_of_here|done].
  - intros H. destruct (IH H). split; [by apply list_elem_of_further|done].
Qed.

Lemma container_refs_scanned datastream name container component_ref :
  node_get_child_element datastream (Some name) = Some container ->
  component_ref ∈ component_refs_of (node_children container) ->
  component_ref ∈ scanned_component_refs datastream.
Proof.
  intros Hc Hr. apply first_child_element_in in Hc as [Hin He].
  unfold scanned_component_refs. apply list_elem_of_In, in_flat_map.
  exists container. split; [by apply list_elem_of_In|].
  rewrite He. by apply list_elem_of_In.
Qed.

Lemma resolved_payload_href doc component_ref payload :
  resolved_payload doc component_ref = Some payload ->
  null_or_short (xmlGetProp component_ref "href") = false.
Proof. unfold resolved_payload. by destruct (null_or_short _). Qed.

Example nested_decomposition :
  ds_ids_decompose (Examples.read Examples.doc_nested) 2 "in.xml" (Some "ds1") EmptyString
  = ([Mkdir "."; Mkdir "./."; Mkdir "././a";
      SaveFileEnc "././a/b.xml" (Examples.payload "P") "utf-8";
      Mkdir "."; Mkdir "./."; Mkdir "././a"; Mkdir "././a/."; Mkdir "././a/./sub";
      SaveFileEnc "././a/./sub/q.xml" (Examples.payload "Q") "utf-8"], Ret tt).
Proof. reflexivity. Qed.

(** The lookup of a component is undefined when a component without [id]
    stands in front of the one that is looked for.  A catalog entry that
    names no component-ref is reported, with a message built from the
    freed [uri], and the run goes on. *)
Example undefined_runs :
  ds_ids_decompose (Examples.read Examples.doc_component_without_id) 3 "in.xml"
    (Some "ds1") "out"
  = ([Mkdir "out"; Mkdir "out/."], Undefined)
  /\ ds_ids_decompose (Examples.read Examples.doc_dangling) 3 "in.xml" (Some "ds1") "out"
     = ([Mkdir "out"; Mkdir "out/.";
         SaveFileEnc "out/./c1" (Examples.payload "one") "utf-8";
         SeterrFreed OSCAP_EFAMILY_XML 0
           "component-ref with given id '%s' wasn't found in the document!" "nowhere";
         Mkdir "out"; Mkdir "out/.";
         SaveFileEnc "out/./c2" (Examples.payload "two") "utf-8"], Ret tt).
Proof. split; reflexivity. Qed.

(** *** Every file written is the payload of a ref the catalogs lead to *)

Lemma trace_bind_elem {A B} (m : M A) (f : A -> M B) e :
  e ∈ trace (m ≫= f) ->
  e ∈ trace m \/ exists a, result m = Ret a /\ e ∈ trace (f a).
Proof.
  destruct m as [t [a| |]]; unfold mbind, M_bind, bind; simpl; auto.
  destruct (f a) as [t' o] eqn:E. simpl. intros [H|H]%elem_of_app; [by left|].
  right. exists a. by rewrite E.
Qed.

Lemma for_each_trace_elem l (body : xmlNode -> M unit) e :
  e ∈ trace (for_each l body) -> exists x, x ∈ l /\ e ∈ trace (body x).
Proof.
  induction l as [|x l IH]; cbn [for_each]; [by intros ?%elem_of_nil|].
  intros [H|(_ & _ & H)]%trace_bind_elem.
  - exists x. split; [apply list_elem_of_here|done].
  - destruct (IH H) as (y & Hy & He). exists y. split; [by apply list_elem_of_further|done].
Qed.

Lemma mkdir_p_trace_elem path e : e ∈ trace (mkdir_p path) -> exists d, e = Mkdir d.
Proof.
  unfold mkdir_p. destruct (_ <? _)%Z; [by intros ?%elem_of_nil|]. unfold trace, fst.
  intros (i & _ & Hi)%list_elem_of_In%in_flat_map.
  unfold mkdir_p_step in Hi. destruct (String.get i path) as [c|].
  - destruct (is_slash c); [|done]. destruct Hi as [<-|[]]. eauto.
  - destruct Hi as [<-|[]]. eauto.
Qed.

Section Saved.

Context (doc : xmlDoc) (datastream : xmlNode).

Local Abbreviation edge := (catalog_edge doc datastream).

Lemma entry_saved self dir uri path root enc :
  SaveFileEnc path root enc ∈ trace (dump_catalog_entry self doc datastream dir uri) ->
  exists target name,
    catalog_entry_target doc datastream uri = Some target
    /\ SaveFileEnc path root enc ∈ trace (self target dir name).
Proof.
  destruct (catalog_entry_target doc datastream uri) as [target|] eqn:Ht.
  - destruct (dump_catalog_entry_target self doc datastream dir uri target Ht)
      as (name & _ & ->). eauto.
  - revert Ht.
    unfold catalog_entry_target, dump_catalog_entry, is_named_element.
    destruct (is_element uri); simpl; [|by intros _ ?%elem_of_nil].
    destruct (streq (node_name uri) "uri"); simpl; [|by intros _ ?%elem_of_nil].
    destruct (xmlGetProp uri "name") as [name|];
      [|by intros _ [=]%list_elem_of_singleton].
    destruct (null_or_short _); [by intros _ [=]%list_elem_of_singleton|].
    destruct (ds_ids_find_component_ref _ _ _) as [[r|]| |]; try done;
      (by intros _ ?%elem_of_nil) || (by intros _ [=]%list_elem_of_singleton).
Qed.

Lemma body_saved self component_ref target_dir filename path root enc :
  SaveFileEnc path root enc
  ∈ trace (dump_component_ref_body self component_ref doc datastream target_dir filename) ->
  resolved_payload doc component_ref = Some root
  \/ exists target dir name,
       edge component_ref target /\ SaveFileEnc path root enc ∈ trace (self target dir name).
Proof.
  unfold dump_component_ref_body, resolved_payload.
  destruct (xmlGetProp component_ref "id") as [cref_id|] eqn:Hid;
    [|by intros [=]%list_elem_of_singleton].
  destruct (null_or_short (xmlGetProp component_ref "href")) eqn:Hh;
    [by intros [=]%list_elem_of_singleton|].
  intros [H|(_ & _ & H)]%trace_bind_elem.
  { by apply mkdir_p_trace_elem in H as [d [=]]. }
  apply trace_bind_elem in H as [H|(_ & _ & H)].
  - left. revert H. unfold ds_ids_dump_component.
    destruct (find_component _ _) as [[component|]| |]; simpl;
      try by intros ?%elem_of_nil.
    + destruct (node_get_child_element component None) as [inner_root|]; simpl.
      * by intros [= _ -> _]%list_elem_of_singleton.
      * by intros [=]%list_elem_of_singleton.
    + by intros [=]%list_elem_of_singleton.
  - right.
    destruct (node_get_child_element component_ref (Some "catalog")) as [catalog|] eqn:Hc;
      [|by apply elem_of_nil in H].
    apply for_each_trace_elem in H as (uri & Huri & H).
    apply entry_saved in H as (target & name & Ht & H).
    exists target, (target_dir +:+ "/" +:+ dirname ("./" +:+ filename)), name.
    split; [|done]. unfold catalog_edge.
    rewrite (catalog_targets_checked _ _ _ _ Hid Hh), Hc.
    apply list_elem_of_omap. eauto.
Qed.

Lemma dump_component_ref_as_saved fuel component_ref target_dir filename path root enc :
  SaveFileEnc path root enc
  ∈ trace (ds_ids_dump_component_ref_as fuel component_ref doc datastream
             target_dir filename) ->
  exists r, rtc edge component_ref r /\ resolved_payload doc r = Some root.
Proof.
  revert component_ref target_dir filename.
  induction fuel as [|fuel IH]; intros component_ref target_dir filename;
    [by intros ?%elem_of_nil|].
  rewrite dump_component_ref_as_unfold.
  intros [H|(target & dir & name & He & H)]%body_saved.
  - exists component_ref. split; [apply rtc_refl|done].
  - destruct (IH _ _ _ H) as (r & Hr & Hp). exists r. split; [|done].
    by eapply rtc_l.
Qed.

End Saved.

Lemma saved_elem_inv path root t :
  (path, root) ∈ saved t -> exists enc, SaveFileEnc path root enc ∈ t.
Proof.
  unfold saved. intros (e & He & H)%list_elem_of_In%in_flat_map.
  destruct e as [| | |filename root' enc]; try done.
  destruct H as [[= -> ->]|[]]. exists enc. by apply list_elem_of_In.
Qed.

Lemma doc_cycle_reachable r :
  rtc (catalog_edge Examples.doc_cycle Examples.ds_cycle) Examples.ref_a r ->
  r = Examples.ref_a \/ r = Examples.ref_b.
Proof.
  assert (forall x, x = Examples.ref_a \/ x = Examples.ref_b ->
            rtc (catalog_edge Examples.doc_cycle Examples.ds_cycle) x r ->
            r = Examples.ref_a \/ r = Examples.ref_b) as H; [|by apply H; left].
  intros x Hx Hrtc. induction Hrtc as [x|x y z Hxy _ IH]; [done|].
  apply IH. unfold catalog_edge in Hxy. destruct Hx as [->| ->].
  - change (catalog_targets Examples.doc_cycle Examples.ds_cycle Examples.ref_a)
      with [Examples.ref_b] in Hxy.
    apply list_elem_of_singleton in Hxy. by right.
  - change (catalog_targets Examples.doc_cycle Examples.ds_cycle Examples.ref_b)
      with [Examples.ref_a] in Hxy.
    apply list_elem_of_singleton in Hxy. by left.
Qed.

(** *** The files of a decomposition *)

Lemma forallb_before_first_match id l :
  forallb has_id l = true -> forallb has_id (before_first_match id l) = true.
Proof.
  induction l as [|n l IH]; simpl; [done|].
  intros [Hn Hl]%andb_true_iff. destruct (id_is id n); [done|].
  simpl. rewrite Hn. by apply IH.
Qed.

Lemma scan_ids_first_match l id :
  forallb has_id l = true -> scan_ids l id = Ret (first_match id l).
Proof. intros H. apply scan_ids_total. by apply forallb_before_first_match. Qed.

Lemma node_get_child_element_any parent :
  node_get_child_element parent None = List.find is_element (node_children parent).
Proof.
  unfold node_get_child_element.
  induction (node_children parent) as [|c l IH]; simpl; [done|].
  by destruct (is_element c).
Qed.

Lemma node_get_child_element_named parent name :
  node_get_child_element parent (Some name)
  = List.find (fun n => is_named_element n name) (node_children parent).
Proof.
  unfold node_get_child_element.
  induction (node_children parent) as [|c l IH]; simpl; [done|].
  unfold is_named_element at 1. destruct (is_element c); simpl; [|done].
  by destruct (streq (node_name c) name).
Qed.

(** The two notions that are read off the document pin down what they
    speak of. *)
Lemma payload_of_functional doc component_ref payload1 payload2 :
  payload_of doc component_ref payload1 -> payload_of doc component_ref payload2 ->
  payload1 = payload2.
Proof.
  intros (h1 & c1 & Hh1 & _ & Hc1 & Hp1) (h2 & c2 & Hh2 & _ & Hc2 & Hp2).
  rewrite Hh1 in Hh2. injection Hh2 as <-.
  rewrite Hc1 in Hc2. injection Hc2 as <-. congruence.
Qed.

Lemma entry_names_functional datastream uri name1 target1 name2 target2 :
  entry_names datastream uri name1 target1 -> entry_names datastream uri name2 target2 ->
  name1 = name2 /\ target1 = target2.
Proof.
  intros (_ & Hn1 & u1 & Hu1 & _ & Ht1) (_ & Hn2 & u2 & Hu2 & _ & Ht2).
  rewrite Hu1 in Hu2. injection Hu2 as <-. split; congruence.
Qed.

Lemma own_file_functional doc component_ref target_dir filename files1 files2 :
  own_file doc component_ref target_dir filename files1 ->
  own_file doc component_ref target_dir filename files2 ->
  files1 = files2.
Proof.
  intros [(p1 & Hp1 & ->)|[Hn1 ->]] [(p2 & Hp2 & ->)|[Hn2 ->]]; try done.
  - by rewrite (payload_of_functional _ _ _ _ Hp1 Hp2).
  - by destruct (Hn2 p1).
  - by destruct (Hn1 p2).
Qed.

(** The walk of a component-ref has one list of files, and so has the walk
    of a catalog. *)
Lemma walk_files_functional doc datastream component_ref target_dir filename files1 files2 :
  walk_files doc datastream component_ref target_dir filename files1 ->
  walk_files doc datastream component_ref target_dir filename files2 ->
  files1 = files2.
Proof.
  intros H. revert files2.
  apply (walk_files_both doc datastream
           (fun r T f l => forall l', walk_files doc datastream r T f l' -> l = l')
           (fun dir es l => forall l', walk_catalog doc datastream dir es l' -> l = l'));
    try exact H; clear.
  - intros r T f Hbad l' H'. inversion H' as [|? ? ? own below Hid Hh]; subst; [done|].
    destruct Hbad; congruence.
  - intros r T f own below Hid Hh Hown _ IH l' H'.
    inversion H' as [? ? ? Hbad|? ? ? own' below' _ _ Hown' Hbelow']; subst.
    + destruct Hbad; congruence.
    + rewrite (own_file_functional _ _ _ _ _ _ Hown Hown'). f_equal. by apply IH.
  - intros dir l' H'. by inversion H'.
  - intros dir uri es files Hnone _ IH l' H'.
    inversion H' as [|? ? ? ? _ Hrest|? ? ? name target ft fs Hn]; subst.
    + by apply IH.
    + by destruct (Hnone name target).
  - intros dir uri es name target ft fs Hn _ IHt _ IHs l' H'.
    inversion H' as [|? ? ? ? Hnone|? ? ? name' target' ft' fs' Hn' Ht' Hs']; subst.
    + by destruct (Hnone name target).
    + destruct (entry_names_functional _ _ _ _ _ _ Hn Hn') as [<- <-].
      f_equal; [by apply IHt|by apply IHs].
Qed.

Lemma walk_catalog_functional doc datastream dir entries files1 files2 :
  walk_catalog doc datastream dir entries files1 ->
  walk_catalog doc datastream dir entries files2 ->
  files1 = files2.
Proof.
  intros H. revert files2. induction H as [dir|dir uri es files Hnone _ IH
                                           |dir uri es name target ft fs Hn Ht _ IH];
    intros l' H'.
  - by inversion H'.
  - inversion H' as [|? ? ? ? _ Hrest|? ? ? name target ft fs Hn]; subst.
    + by apply IH.
    + by destruct (Hnone name target).
  - inversion H' as [|? ? ? ? Hnone|? ? ? name' target' ft' fs' Hn' Ht' Hs']; subst.
    + by destruct (Hnone name target).
    + destruct (entry_names_functional _ _ _ _ _ _ Hn Hn') as [<- <-].
      f_equal; [by eapply walk_files_functional|by apply IH].
Qed.

Lemma files_of_ref_functional doc datastream target_dir component_ref files1 files2 :
  files_of_ref doc datastream target_dir component_ref files1 ->
  files_of_ref doc datastream target_dir component_ref files2 ->
  files1 = files2.
Proof.
  intros (p1 & c1 & Hp1 & -> & Hc1) (p2 & c2 & Hp2 & -> & Hc2).
  rewrite (payload_of_functional _ _ _ _ Hp1 Hp2).
  by rewrite (walk_catalog_functional _ _ _ _ _ _ Hc1 Hc2).
Qed.

Section Walk.

Context (doc : xmlDoc) (datastream : xmlNode).
Hypothesis Hids : ids_present doc datastream = true.

Lemma find_component_first_match component_id :
  find_component (node_children (xmlDocGetRootElement doc)) component_id
  = Ret (first_match component_id (scanned_components doc)).
Proof.
  rewrite find_component_scan. apply scan_ids_first_match.
  by apply andb_true_iff in Hids as [? _].
Qed.

Lemma find_component_ref_first_match id :
  ds_ids_find_component_ref doc datastream id
  = Ret (first_match id (scanned_component_refs datastream)).
Proof.
  rewrite find_component_ref_scan. apply scan_ids_first_match.
  by apply andb_true_iff in Hids as [_ ?].
Qed.

(** What the lookups of the code find is what the document says. *)
Lemma resolved_payload_spec component_ref payload :
  resolved_payload doc component_ref = Some payload <-> payload_of doc component_ref payload.
Proof.
  unfold resolved_payload, payload_of.
  destruct (xmlGetProp component_ref "href") as [href|] eqn:Hh.
  - change (default EmptyString (Some href)) with href.
    destruct (null_or_short (Some href)) eqn:Hs.
    + split; [done|]. intros (h & c & [= <-] & Hs' & _). congruence.
    + rewrite find_component_first_match.
      destruct (first_match _ _) as [c|] eqn:Hc.
      * rewrite node_get_child_element_any. split.
        -- intros Hp. by exists href, c.
        -- intros (h & c' & [= <-] & _ & Hc' & Hp). rewrite Hc in Hc'.
           by injection Hc' as <-.
      * split; [done|]. intros (h & c' & [= <-] & _ & Hc' & _). congruence.
  - split; [done|]. by intros (h & c & [=] & _).
Qed.

Lemma catalog_entry_target_spec uri target :
  catalog_entry_target doc datastream uri = Some target
  <-> exists name, entry_names datastream uri name target.
Proof.
  unfold catalog_entry_target, entry_names.
  destruct (is_named_element uri "uri"); [|split; [done|by intros (n & [=] & _)]].
  destruct (xmlGetProp uri "name") as [name|];
    [|split; [done|by intros (n & _ & [=] & _)]].
  destruct (xmlGetProp uri "uri") as [u|] eqn:Hu.
  - change (default EmptyString (Some u)) with u.
    destruct (null_or_short (Some u)) eqn:Hs.
    + split; [done|]. intros (n & _ & _ & u' & [= <-] & Hs' & _). congruence.
    + rewrite find_component_ref_first_match.
      destruct (first_match _ _) as [t|] eqn:Ht.
      * split.
        -- intros [= <-]. exists name. split; [done|]. split; [done|]. by exists u.
        -- intros (n & _ & _ & u' & [= <-] & _ & Ht'). congruence.
      * split; [done|]. intros (n & _ & _ & u' & [= <-] & _ & Ht'). congruence.
  - split; [done|]. by intros (n & _ & _ & u' & [=] & _).
Qed.

Lemma own_file_saved component_ref target_dir filename :
  null_or_short (xmlGetProp component_ref "href") = false ->
  result (ds_ids_dump_component
            (str_next (default EmptyString (xmlGetProp component_ref "href"))) doc
            (destination target_dir filename)) = Ret tt
  /\ own_file doc component_ref target_dir filename
       (saved (trace (ds_ids_dump_component
                        (str_next (default EmptyString (xmlGetProp component_ref "href")))
                        doc (destination target_dir filename)))).
Proof.
  intros Hh.
  pose proof (resolved_payload_spec component_ref) as Hspec.
  unfold resolved_payload in Hspec. rewrite Hh in Hspec.
  unfold ds_ids_dump_component, own_file.
  destruct (find_component _ _) as [[c|]| |] eqn:Hfind;
    try (by rewrite find_component_first_match in Hfind).
  - unfold lift, mbind, M_bind, bind. cbv beta iota.
    destruct (node_get_child_element c None) as [p|] eqn:Hp.
    + split; [done|]. left. exists p. split; [by apply Hspec|done].
    + split; [done|]. right. split; [|done]. intros p Hpay%Hspec. done.
  - unfold lift, mbind, M_bind, bind. cbv beta iota.
    split; [done|]. right. split; [|done]. intros p Hpay%Hspec. done.
Qed.

Lemma entry_no_target_saved self dir uri :
  catalog_entry_target doc datastream uri = None ->
  saved (trace (dump_catalog_entry self doc datastream dir uri)) = [].
Proof.
  unfold catalog_entry_target, dump_catalog_entry, is_named_element.
  destruct (is_element uri); simpl; [|done].
  destruct (streq (node_name uri) "uri"); simpl; [|done].
  destruct (xmlGetProp uri "name") as [name|]; [|done].
  destruct (null_or_short _); [done|].
  by destruct (ds_ids_find_component_ref _ _ _) as [[r|]| |].
Qed.

Section Step.

Variable self : xmlNode -> string -> string -> M unit.

(** The calls [self] stands for write the files of the walk of the ref
    they are made on. *)
Hypothesis self_walks :
  forall target dir name,
    result (self target dir name) = Ret tt ->
    walk_files doc datastream target dir name (saved (trace (self target dir name))).

Lemma catalog_walk dir entries :
  result (for_each entries (dump_catalog_entry self doc datastream dir)) = Ret tt ->
  walk_catalog doc datastream dir entries
    (saved (trace (for_each entries (dump_catalog_entry self doc datastream dir)))).
Proof.
  induction entries as [|uri entries IH]; intros Hret; cbn [for_each] in *.
  - apply walk_end.
  - rewrite result_bind in Hret.
    destruct (result (dump_catalog_entry self doc datastream dir uri)) as [[]| |] eqn:Hu;
      try done.
    rewrite (trace_bind_returned _ _ tt Hu), saved_app.
    destruct (catalog_entry_target doc datastream uri) as [target|] eqn:Ht.
    + destruct (dump_catalog_entry_target self doc datastream dir uri target Ht)
        as (name & Hname & Hentry).
      rewrite Hentry in *.
      apply catalog_entry_target_spec in Ht as [name' Hn].
      assert (name' = name) as ->.
      { destruct Hn as (_ & Hn & _). congruence. }
      eapply walk_follow; [exact Hn|by apply self_walks|by apply IH].
    + rewrite (entry_no_target_saved self dir uri Ht). cbn [app].
      apply walk_skip; [|by apply IH].
      intros name target Hn.
      assert (catalog_entry_target doc datastream uri = Some target) as Ht'
          by (apply catalog_entry_target_spec; eauto).
      congruence.
Qed.

(** The body on a ref that passes the checks: the file of the ref, then
    the files of its catalog. *)
Lemma body_walk component_ref target_dir filename :
  has_id component_ref = true ->
  null_or_short (xmlGetProp component_ref "href") = false ->
  result (dump_component_ref_body self component_ref doc datastream target_dir filename)
  = Ret tt ->
  exists own below,
    saved (trace (dump_component_ref_body self component_ref doc datastream
                    target_dir filename)) = own ++ below
    /\ own_file doc component_ref target_dir filename own
    /\ walk_catalog doc datastream (destination_dir target_dir filename)
         (catalog_entries component_ref) below.
Proof.
  intros Hid Hh. unfold dump_component_ref_body, has_id in *.
  destruct (xmlGetProp component_ref "id") as [cref_id|]; [|done]. rewrite Hh.
  fold (destination_dir target_dir filename). fold (destination target_dir filename).
  destruct (own_file_saved component_ref target_dir filename Hh) as [Hdump Hown].
  destruct (mkdir_p_returns (destination_dir target_dir filename)) as (t & z & Hm).
  assert (result (mkdir_p (destination_dir target_dir filename)) = Ret z) as Hmr
      by (by rewrite Hm).
  rewrite result_bind, Hmr, result_bind, Hdump. intros Hcat.
  rewrite (trace_bind_returned _ _ z Hmr), saved_app, mkdir_p_saves_nothing.
  rewrite (trace_bind_returned _ _ tt Hdump), saved_app. cbn [app].
  eexists _, _. split; [reflexivity|]. split; [exact Hown|].
  unfold catalog_entries. rewrite <- node_get_child_element_named.
  destruct (node_get_child_element component_ref (Some "catalog")) as [catalog|].
  - by apply catalog_walk.
  - apply walk_end.
Qed.

End Step.

(** A call that returns has written the files of the walk of its ref. *)
Lemma dump_component_ref_as_walks fuel :
  forall component_ref target_dir filename,
    result (ds_ids_dump_component_ref_as fuel component_ref doc datastream
              target_dir filename) = Ret tt ->
    walk_files doc datastream component_ref target_dir filename
      (saved (trace (ds_ids_dump_component_ref_as fuel component_ref doc datastream
                       target_dir filename))).
Proof.
  induction fuel as [|fuel IH]; intros component_ref target_dir filename Hret; [done|].
  rewrite dump_component_ref_as_unfold in *.
  destruct (has_id component_ref) eqn:Hid.
  - destruct (null_or_short (xmlGetProp component_ref "href")) eqn:Hh.
    + unfold dump_component_ref_body, has_id in *.
      destruct (xmlGetProp component_ref "id"); [|done]. rewrite Hh.
      apply walk_unchecked. by right.
    + destruct (body_walk _ IH component_ref target_dir filename Hid Hh Hret)
        as (own & below & -> & Hown & Hbelow).
      by apply walk_checked.
  - unfold dump_component_ref_body. unfold has_id in Hid.
    destruct (xmlGetProp component_ref "id") eqn:E; [done|].
    apply walk_unchecked. left. unfold has_id. by rewrite E.
Qed.

(** One ref of [checklists] whose run returns: its own file, then the
    files of the walk of its catalog. *)
Lemma dump_component_ref_files fuel component_ref target_dir payload :
  has_id component_ref = true ->
  payload_of doc component_ref payload ->
  result (ds_ids_dump_component_ref fuel component_ref doc datastream
            (effective_target_dir target_dir)) = Ret tt ->
  files_of_ref doc datastream target_dir component_ref
    (saved (trace (ds_ids_dump_component_ref fuel component_ref doc datastream
                     (effective_target_dir target_dir)))).
Proof.
  intros Hid Hp. pose proof Hp as Hp'. apply resolved_payload_spec in Hp'.
  unfold ds_ids_dump_component_ref.
  rewrite (resolved_payload_href _ _ _ Hp'). fold (href_filename component_ref).
  destruct fuel as [|fuel]; [done|].
  rewrite dump_component_ref_as_unfold. intros Hret.
  destruct (body_walk _ (dump_component_ref_as_walks fuel) component_ref
              (effective_target_dir target_dir) (href_filename component_ref)
              Hid (resolved_payload_href _ _ _ Hp') Hret)
    as (own & below & -> & Hown & Hbelow).
  destruct Hown as [(p & Hpay & ->)|[Hnone ->]]; [|by destruct (Hnone payload)].
  by exists p, below.
Qed.

Lemma dump_refs_files fuel refs target_dir :
  (forall r, r ∈ refs -> has_id r = true) ->
  (forall r, r ∈ refs -> exists payload, payload_of doc r payload) ->
  (forall r, r ∈ refs ->
     result (ds_ids_dump_component_ref fuel r doc datastream
               (effective_target_dir target_dir)) = Ret tt) ->
  let run :=
    for_each refs (fun r => ds_ids_dump_component_ref fuel r doc datastream
                              (effective_target_dir target_dir)) in
  result run = Ret tt
  /\ exists files,
       saved (trace run) = concat files
       /\ Forall2 (files_of_ref doc datastream target_dir) refs files.
Proof.
  induction refs as [|r refs IH]; intros Hid Hp Hret; cbn zeta.
  - split; [done|]. exists []. split; [done|constructor].
  - cbn [for_each].
    destruct IH as [Hrest (files & Hfiles & Hall)].
    { intros x Hx. apply Hid. by apply list_elem_of_further. }
    { intros x Hx. apply Hp. by apply list_elem_of_further. }
    { intros x Hx. apply Hret. by apply list_elem_of_further. }
    pose proof (Hret r (list_elem_of_here _ _)) as Hr.
    destruct (Hp r (list_elem_of_here _ _)) as [payload Hpayload].
    split.
    + rewrite result_bind, Hr. done.
    + exists (saved (trace (ds_ids_dump_component_ref fuel r doc datastream
                              (effective_target_dir target_dir))) :: files).
      split.
      * rewrite (trace_bind_returned _ _ tt Hr), saved_app. cbn [concat].
        by rewrite Hfiles.
      * constructor; [|done].
        by apply (dump_component_ref_files fuel r target_dir payload);
          [apply Hid, list_elem_of_here| |].
Qed.

End Walk.

(** C1, as the code has it.  The document has a datastream [D] with a
    [checklists] container; every ref of the container stands for a
    payload (its [href] names a component that has an element child);
    every component and component-ref that is scanned has an [id], every
    catalog entry resolves, and the catalog graph has no cycle.  Then
    [ds_ids_decompose] with [D] returns, for every depth from some depth
    on, and the files it writes are, ref by ref in document order: one
    file for the ref, at the destination its [href] gives, holding the
    payload the ref stands for, then the files of the walk of the ref's
    catalog: for every entry that names a component-ref, in document
    order, the files of that ref written as the entry's [name] under the
    directory of the file of the ref, and so on through the catalogs. *)
Theorem decompose_writes_each_checklist (xmlReadFile : string -> xmlDoc + option Z)
    (input_file datastream_id target_dir : string) (doc : xmlDoc)
    (datastream checklists : xmlNode) :
  xmlReadFile input_file = inl doc ->
  select_datastream (node_children (xmlDocGetRootElement doc)) (Some datastream_id)
    = Some datastream ->
  node_get_child_element datastream (Some "checklists") = Some checklists ->
  (forall r, r ∈ component_refs_of (node_children checklists) ->
     exists payload, payload_of doc r payload) ->
  ids_present doc datastream = true ->
  catalogs_resolve doc datastream = true ->
  catalog_acyclic doc datastream ->
  exists fuel, forall fuel', fuel <= fuel' ->
    let run := ds_ids_decompose xmlReadFile fuel' input_file (Some datastream_id) target_dir in
    result run = Ret tt
    /\ exists files,
         saved (trace run) = concat files
         /\ Forall2 (files_of_ref doc datastream target_dir)
              (component_refs_of (node_children checklists)) files.
Proof.
  intros Hread Hsel Hcl Hpayload Hids Hresolve Hacyclic.
  destruct (dump_component_ref_as_returns doc datastream Hids Hresolve Hacyclic)
    as [fuel Hfuel].
  exists fuel. intros fuel' Hle. cbn zeta.
  unfold ds_ids_decompose. rewrite Hread, Hsel, Hcl, dump_checklists_refs.
  assert (forall r, r ∈ component_refs_of (node_children checklists) ->
            r ∈ scanned_component_refs datastream) as Hscanned
      by (intros r Hr; by eapply container_refs_scanned).
  apply dump_refs_files; [done| | |].
  - intros r Hr. pose proof Hids as Hids'. apply andb_true_iff in Hids' as [_ Hrefs].
    rewrite forallb_forall in Hrefs. apply Hrefs, list_elem_of_In. by apply Hscanned.
  - done.
  - intros r Hr. unfold ds_ids_dump_component_ref.
    destruct (Hpayload r Hr) as [payload Hp].
    apply (resolved_payload_spec doc datastream Hids) in Hp.
    rewrite (resolved_payload_href _ _ _ Hp).
    apply Hfuel; [done|by apply Hscanned].
Qed.

Lemma decompose_writes_each_checklist_witness :
  exists fuel, forall fuel', fuel <= fuel' ->
    let run := ds_ids_decompose (Examples.read Examples.doc_nested) fuel' "in.xml"
                 (Some "ds1") "out" in
    result run = Ret tt
    /\ exists files,
         saved (trace run) = concat files
         /\ Forall2 (files_of_ref Examples.doc_nested Examples.ds_nested "out")
              [Examples.ref_p] files.
Proof.
  apply (decompose_writes_each_checklist (Examples.read Examples.doc_nested) "in.xml" "ds1"
           "out" Examples.doc_nested Examples.ds_nested
           (Examples.container "checklists" [Examples.ref_p])); try reflexivity.
  - intros r Hr.
    change (component_refs_of
              (node_children (Examples.container "checklists" [Examples.ref_p])))
      with [Examples.ref_p] in Hr.
    apply list_elem_of_singleton in Hr. rewrite Hr.
    exists (Examples.payload "P"), "#a/b.xml",
      (Examples.component "a/b.xml" [XOther " "; Examples.payload "P"]).
    repeat split; reflexivity.
  - exact doc_nested_acyclic.
Defined.

(** On the nested document the files of the one ref of [checklists] are
    its own file and the file of the ref its catalog names, and no other
    list of files will do. *)
Example nested_files (files : list (string * xmlNode)) :
  files_of_ref Examples.doc_nested Examples.ds_nested "out" Examples.ref_p files
  <-> files = [("out/./a/b.xml", Examples.payload "P");
               ("out/./a/./sub/q.xml", Examples.payload "Q")].
Proof.
  assert (files_of_ref Examples.doc_nested Examples.ds_nested "out" Examples.ref_p
            [("out/./a/b.xml", Examples.payload "P");
             ("out/./a/./sub/q.xml", Examples.payload "Q")]) as Hfiles.
  { exists (Examples.payload "P"), [("out/./a/./sub/q.xml", Examples.payload "Q")].
    split; [|split; [reflexivity|]].
    - exists "#a/b.xml", (Examples.component "a/b.xml" [XOther " "; Examples.payload "P"]).
      repeat split; reflexivity.
    - change (catalog_entries Examples.ref_p) with [Examples.uri "sub/q.xml" "#rQ"].
      apply (walk_follow _ _ _ _ [] "sub/q.xml" Examples.ref_q
               [("out/./a/./sub/q.xml", Examples.payload "Q")] []).
      + split; [reflexivity|]. split; [reflexivity|]. exists "#rQ". repeat split; reflexivity.
      + apply (walk_checked _ _ Examples.ref_q _ "sub/q.xml"
                 [("out/./a/./sub/q.xml", Examples.payload "Q")] []);
          [reflexivity|reflexivity| |apply walk_end].
        left. exists (Examples.payload "Q"). split; [|reflexivity].
        exists "#cQ", (Examples.component "cQ" [Examples.payload "Q"]).
        repeat split; reflexivity.
      + apply walk_end. }
  split; [|by intros ->].
  intros H. by apply (files_of_ref_functional _ _ _ _ _ _ H Hfiles).
Qed.

(** C1 as stated fails, in two ways.  A ref of [checklists] without [id]:
    its [href] resolves to a component with a payload, and no file is
    written.  A catalog cycle: every ref has its [id], every [href] and
    every catalog entry resolves, and the decomposition never returns; the
    ref of [checklists] that comes after the cycle never gets its file. *)
Lemma decompose_misses_checklists :
  (container_refs Examples.ds_ref_without_id "checklists" = [Examples.ref_without_id]
   /\ resolved_payload Examples.doc_ref_without_id Examples.ref_without_id
      = Some (Examples.payload "one")
   /\ ds_ids_decompose (Examples.read Examples.doc_ref_without_id) 3 "in.xml"
        (Some "ds1") "out" = ([err_no_id], Ret tt)
   /\ forall fuel,
        saved (trace (ds_ids_decompose (Examples.read Examples.doc_ref_without_id) fuel
                        "in.xml" (Some "ds1") "out")) = [])
  /\ (container_refs Examples.ds_cycle "checklists" = [Examples.ref_a; Examples.ref2]
      /\ resolved_payload Examples.doc_cycle Examples.ref2 = Some (Examples.payload "two")
      /\ ids_present Examples.doc_cycle Examples.ds_cycle = true
      /\ catalogs_resolve Examples.doc_cycle Examples.ds_cycle = true
      /\ forall fuel,
           let run := ds_ids_decompose (Examples.read Examples.doc_cycle) fuel "in.xml"
                        (Some "ds1") "out" in
           result run <> Ret tt
           /\ forall path, (path, Examples.payload "two") ∉ saved (trace run)).
Proof.
  split.
  - repeat split; try reflexivity. intros [|fuel]; reflexivity.
  - repeat split; try reflexivity.
    + assert (ds_ids_decompose (Examples.read Examples.doc_cycle) fuel "in.xml"
                (Some "ds1") "out"
              = (ds_ids_dump_component_ref_as fuel Examples.ref_a Examples.doc_cycle
                   Examples.ds_cycle "out" "cA";;
                 ds_ids_dump_component_ref_as fuel Examples.ref2 Examples.doc_cycle
                   Examples.ds_cycle "out" "c2";; mret tt)) as -> by reflexivity.
      rewrite result_bind.
      pose proof (dump_component_ref_as_never_returns Examples.doc_cycle Examples.ds_cycle
                    fuel Examples.ref_a "out" "cA" doc_cycle_reaches_cycle) as Hn.
      by destruct (result (ds_ids_dump_component_ref_as fuel Examples.ref_a _ _ _ _))
        as [[]| |].
    + intros path Hin.
      assert (ds_ids_decompose (Examples.read Examples.doc_cycle) fuel "in.xml"
                (Some "ds1") "out"
              = (ds_ids_dump_component_ref_as fuel Examples.ref_a Examples.doc_cycle
                   Examples.ds_cycle "out" "cA";;
                 ds_ids_dump_component_ref_as fuel Examples.ref2 Examples.doc_cycle
                   Examples.ds_cycle "out" "c2";; mret tt)) as E by reflexivity.
      rewrite E in Hin. clear E.
      apply saved_elem_inv in Hin as [enc Hin].
      apply trace_bind_elem in Hin as [Hin|([] & Hret & _)].
      * apply dump_component_ref_as_saved in Hin as (r & Hr & Hp).
        apply doc_cycle_reachable in Hr as [-> | ->]; discriminate Hp.
      * by apply (dump_component_ref_as_never_returns Examples.doc_cycle Examples.ds_cycle
                    fuel Examples.ref_a "out" "cA" doc_cycle_reaches_cycle).
Qed.

(** ** C9: the clone and the document it is taken from *)

(** The dump of [c1] over the tree value of the example document. *)
Lemma value_run_c1 :
  ds_ids_dump_component "c1" StoreExamples.doc "out/c1"
  = ([SaveFileEnc "out/c1" (Examples.payload "one") "utf-8"], Ret tt).
Proof. reflexivity. Qed.

Module StoreFrame.

Import Store.

Section Frame.

Variable σ0 : store.

Lemma frames_ret {A} (a : A) (Q : A -> Prop) : Q a -> frames σ0 (mret a) Q.
Proof. intros HQ σ Hσ. split; [done|]. by intros a' [= <-]. Qed.

Lemma frames_stuck {A} (m : SM A) (Q : A -> Prop) :
  (forall σ, (m σ).1 = σ /\ forall a, result (m σ).2 <> Ret a) -> frames σ0 m Q.
Proof.
  intros H σ Hσ. destruct (H σ) as [-> Hn]. split; [done|].
  intros a Ha. by apply Hn in Ha.
Qed.

Lemma frames_undefined {A} (Q : A -> Prop) : frames σ0 sm_undefined Q.
Proof. apply frames_stuck. by intros σ. Qed.

Lemma frames_out_of_fuel {A} (Q : A -> Prop) : frames σ0 sm_out_of_fuel Q.
Proof. apply frames_stuck. by intros σ. Qed.

Lemma frames_emit e : frames σ0 (sm_emit e) (fun _ => True).
Proof. by intros σ Hσ. Qed.

Lemma frames_weaken {A} (m : SM A) (P Q : A -> Prop) :
  frames σ0 m P -> (forall a, P a -> Q a) -> frames σ0 m Q.
Proof.
  intros Hm HPQ σ Hσ. destruct (Hm σ Hσ) as [H1 H2]. split; [done|].
  intros a Ha. by apply HPQ, H2.
Qed.

Lemma frames_bind {A B} (m : SM A) (f : A -> SM B) (P : A -> Prop) (Q : B -> Prop) :
  frames σ0 m P -> (forall a, P a -> frames σ0 (f a) Q) -> frames σ0 (m ≫= f) Q.
Proof.
  intros Hm Hf σ Hσ. destruct (Hm σ Hσ) as [H1 H2].
  unfold mbind, SM_bind, sm_bind.
  destruct (m σ) as [σ1 [t [a| |]]]; simpl in *; try done.
  destruct (Hf a (H2 a eq_refl) σ1 H1) as [H3 H4].
  destruct (f a σ1) as [σ2 [t' o]]; simpl in *. done.
Qed.

Lemma new_fresh σ : σ0 ⊆ σ -> new σ0 (fresh (dom σ)).
Proof.
  intros Hsub. unfold new.
  destruct (σ0 !! fresh (dom σ)) as [c|] eqn:E; [|done].
  pose proof (lookup_weaken _ _ _ _ E Hsub) as Hσ.
  pose proof (is_fresh (dom σ)) as Hf.
  apply not_elem_of_dom in Hf. congruence.
Qed.

Lemma frames_get a :
  frames σ0 (get a) (fun c => new σ0 a -> Forall (new σ0) (pointers c)).
Proof.
  intros σ Hσ. unfold get. destruct (σ !! a) as [c|] eqn:E; simpl; [|done].
  split; [done|]. intros c' [= <-]. by apply Hσ.
Qed.

Lemma frames_get_node a :
  frames σ0 (get_node a) (fun n => new σ0 a -> Forall (new σ0) (pointers (CNode n))).
Proof.
  unfold get_node. eapply frames_bind; [apply frames_get|].
  intros [n|v ch] Hc; [by apply frames_ret|apply frames_undefined].
Qed.

Lemma frames_alloc c :
  Forall (new σ0) (pointers c) -> frames σ0 (alloc c) (new σ0).
Proof.
  intros Hc σ [Hsub Hnew]. unfold alloc. simpl.
  pose proof (is_fresh (dom σ)) as Hf. apply not_elem_of_dom in Hf.
  split; [split|].
  - etrans; [exact Hsub|]. by apply insert_subseteq.
  - intros a c'. destruct (decide (a = fresh (dom σ))) as [->|Hne].
    + rewrite lookup_insert_eq. by intros [= <-].
    + rewrite lookup_insert_ne by done. apply Hnew.
  - intros a [= <-]. by apply new_fresh.
Qed.

Lemma frames_modify a f :
  new σ0 a ->
  (forall c, Forall (new σ0) (pointers c) -> Forall (new σ0) (pointers (f c))) ->
  frames σ0 (modify a f) (fun _ => True).
Proof.
  intros Ha Hf σ [Hsub Hnew]. unfold modify. simpl. split; [split|done].
  - apply map_subseteq_spec. intros i x Hi.
    rewrite lookup_alter_ne by (intros ->; unfold new in Ha; congruence).
    by eapply lookup_weaken.
  - intros i c. destruct (decide (a = i)) as [->|Hne].
    + rewrite lookup_alter_eq. destruct (σ !! i) as [c0|] eqn:E; [|done].
      simpl. intros [= <-] Hi. apply Hf. by eapply Hnew.
    + rewrite lookup_alter_ne by done. apply Hnew.
Qed.

Lemma frames_free a : new σ0 a -> frames σ0 (free a) (fun _ => True).
Proof.
  intros Ha σ [Hsub Hnew]. unfold free. simpl. split; [split|done].
  - apply map_subseteq_spec. intros i x Hi.
    rewrite lookup_delete_ne by (intros ->; unfold new in Ha; congruence).
    by eapply lookup_weaken.
  - intros i c Hi. apply Hnew. by apply lookup_delete_Some in Hi as [_ Hi].
Qed.

Lemma frames_snapshot : frames σ0 snapshot (fun _ => True).
Proof. by intros σ Hσ. Qed.

Lemma frames_read_tree fuel a : frames σ0 (read_tree fuel a) (fun _ => True).
Proof. by intros σ Hσ. Qed.

Lemma frames_for_addrs l body :
  Forall (new σ0) l ->
  (forall a, new σ0 a -> frames σ0 (body a) (fun _ => True)) ->
  frames σ0 (for_addrs l body) (fun _ => True).
Proof.
  intros Hl Hbody. induction Hl as [|a l Ha _ IH]; cbn [for_addrs].
  - by apply frames_ret.
  - eapply frames_bind; [by apply Hbody|]. intros _ _. apply IH.
Qed.

Lemma frames_map_addrs {A} (f : addr -> SM A) l (P : addr -> Prop) (Q : A -> Prop) :
  Forall P l ->
  (forall a, P a -> frames σ0 (f a) Q) ->
  frames σ0 (map_addrs f l) (Forall Q).
Proof.
  intros Hl Hf. induction Hl as [|a l Ha _ IH]; cbn [map_addrs].
  - by apply frames_ret.
  - eapply frames_bind; [by apply Hf|]. intros x Hx.
    eapply frames_bind; [apply IH|]. intros xs Hxs.
    apply frames_ret. by constructor.
Qed.

Lemma frames_first_child_element l name :
  frames σ0 (first_child_element l name) (fun r => forall x, r = Some x -> x ∈ l).
Proof.
  induction l as [|c l IH]; cbn [first_child_element].
  - by apply frames_ret.
  - eapply frames_bind; [apply frames_get_node|]. intros n _.
    assert (frames σ0 (first_child_element l name)
              (fun r => forall x, r = Some x -> x ∈ c :: l)) as Hnext.
    { eapply frames_weaken; [apply IH|]. intros r Hr x Hx.
      apply list_elem_of_further. by apply Hr. }
    assert (frames σ0 (mret (Some c) : SM (option positive))
              (fun r => forall x, r = Some x -> x ∈ c :: l)) as Hhere.
    { apply frames_ret. intros x [= <-]. apply list_elem_of_here. }
    destruct (negb (n_element n)); [done|].
    destruct name as [nm|]; [|done].
    by destruct (negb (streq (n_name n) nm)).
Qed.

Lemma frames_find_component l component_id :
  frames σ0 (find_component l component_id) (fun _ => True).
Proof.
  induction l as [|c l IH]; cbn [find_component].
  - by apply frames_ret.
  - eapply frames_bind; [apply frames_get_node|]. intros n _.
    destruct (negb (n_element n)); [done|].
    destruct (negb (streq (n_name n) "component")); [done|].
    destruct (lookup_prop "id" (n_properties n)) as [candidate_id|];
      [|apply frames_undefined].
    destruct (streq candidate_id component_id); [by apply frames_ret|done].
Qed.

Lemma frames_node_get_child_element parent name :
  frames σ0 (node_get_child_element parent name) (fun _ => True).
Proof.
  unfold node_get_child_element.
  eapply frames_bind; [apply frames_get_node|]. intros n _.
  eapply frames_weaken; [apply frames_first_child_element|done].
Qed.

Lemma frames_xmlDocGetRootElement doc :
  frames σ0 (xmlDocGetRootElement doc) (fun r => forall x, r = Some x -> new σ0 doc -> new σ0 x).
Proof.
  unfold xmlDocGetRootElement.
  eapply frames_bind; [apply frames_get|]. intros [n|v ch] Hc; [apply frames_undefined|].
  eapply frames_weaken; [apply frames_first_child_element|].
  intros r Hr x Hx Hdoc. simpl in Hc.
  specialize (Hc Hdoc). rewrite Forall_forall in Hc. by apply Hc, Hr.
Qed.

Lemma node_children_new n :
  Forall (new σ0) (pointers (CNode n)) -> Forall (new σ0) (n_children n).
Proof. simpl. by intros [H _]%Forall_app. Qed.

(** A walk from an added node only meets added nodes. *)
Lemma frames_walk fuel a :
  new σ0 a -> frames σ0 (walk fuel a) (Forall (new σ0)).
Proof.
  revert a. induction fuel as [|fuel IH]; intros a Ha; cbn [walk].
  - apply frames_out_of_fuel.
  - eapply frames_bind; [apply frames_get_node|]. intros n Hn.
    eapply frames_bind.
    + apply (frames_map_addrs (walk fuel) (n_children n) (new σ0)
               (Forall (new σ0))); [by apply node_children_new, Hn|done].
    + intros below Hbelow. apply frames_ret. constructor; [done|].
      apply Forall_concat. done.
Qed.

(** The copy is made of added nodes. *)
Lemma frames_clone_node fuel src parent new_doc :
  (forall p, parent = Some p -> new σ0 p) ->
  frames σ0 (clone_node fuel src parent new_doc) (new σ0).
Proof.
  revert src parent. induction fuel as [|fuel IH]; intros src parent Hp;
    cbn [clone_node].
  - apply frames_out_of_fuel.
  - eapply frames_bind; [apply frames_get_node|]. intros n _.
    eapply frames_bind.
    { apply frames_alloc. simpl. destruct parent as [p|]; [|done].
      constructor; [by apply Hp|done]. }
    intros a Ha.
    eapply frames_bind.
    { apply (frames_map_addrs _ (n_children n) (fun _ => True) (new σ0)).
      - by apply Forall_true.
      - intros k _. apply IH. by intros p [= <-]. }
    intros kids Hkids.
    eapply frames_bind.
    { apply frames_modify; [done|]. intros [m|v ch]; [|done]. simpl.
      intros [_ Hparent]%Forall_app. by apply Forall_app. }
    intros _ _. by apply frames_ret.
Qed.

Lemma filter_new (p : positive -> bool) l :
  Forall (new σ0) l -> Forall (new σ0) (List.filter p l).
Proof.
  rewrite !Forall_forall. intros H x Hx. apply H.
  apply list_elem_of_In in Hx. apply list_elem_of_In. by apply filter_In in Hx as [Hx _].
Qed.

Lemma frames_xmlUnlinkNode cur :
  new σ0 cur -> frames σ0 (xmlUnlinkNode cur) (fun _ => True).
Proof.
  intros Hcur. unfold xmlUnlinkNode.
  eapply frames_bind; [apply frames_get_node|]. intros n Hn.
  specialize (Hn Hcur). simpl in Hn. apply Forall_app in Hn as [_ Hparent].
  destruct (n_parent n) as [p|]; [|by apply frames_ret].
  rewrite Forall_singleton in Hparent.
  eapply frames_bind.
  - apply frames_modify; [done|]. intros [m|v ch]; simpl.
    + intros [H1 H2]%Forall_app. apply Forall_app. split; [by apply filter_new|done].
    + apply filter_new.
  - intros _ _. apply frames_modify; [done|]. intros [m|v ch]; simpl; [|done].
    intros [H1 _]%Forall_app. by rewrite app_nil_r.
Qed.

Lemma frames_xmlSetTreeDoc fuel tree doc :
  new σ0 tree -> frames σ0 (xmlSetTreeDoc fuel tree doc) (fun _ => True).
Proof.
  intros Htree. unfold xmlSetTreeDoc.
  eapply frames_bind; [by apply frames_walk|]. intros nodes Hnodes.
  apply frames_for_addrs; [done|]. intros a Ha.
  apply frames_modify; [done|]. by intros [m|v ch].
Qed.

Lemma frames_xmlDocSetRootElement fuel doc root :
  new σ0 doc -> new σ0 root ->
  frames σ0 (xmlDocSetRootElement fuel doc root) (fun _ => True).
Proof.
  intros Hdoc Hroot. unfold xmlDocSetRootElement.
  eapply frames_bind; [by apply frames_xmlUnlinkNode|]. intros _ _.
  eapply frames_bind; [by apply frames_xmlSetTreeDoc|]. intros _ _.
  eapply frames_bind.
  { apply frames_modify; [done|]. intros [m|v ch]; simpl; [|done].
    intros [H1 _]%Forall_app. apply Forall_app. split; [done|by constructor]. }
  intros _ _.
  eapply frames_bind; [apply frames_get|]. intros [n|v ch] Hc; [apply frames_undefined|].
  specialize (Hc Hdoc). simpl in Hc.
  eapply frames_bind; [apply frames_first_child_element|]. intros [old|] Hold.
  - assert (new σ0 old) as Hnew_old.
    { rewrite Forall_forall in Hc. by apply Hc, Hold. }
    eapply frames_bind.
    + apply frames_modify; [done|]. intros [m|v' ch']; simpl; [done|].
      intros _. rewrite Forall_forall in Hc. apply Forall_forall.
      intros x (k & -> & Hk)%list_elem_of_fmap.
      destruct (Pos.eqb k old); [done|by apply Hc].
    + intros _ _. apply frames_modify; [done|]. intros [m|v' ch']; simpl; [|done].
      intros [H1 _]%Forall_app. by rewrite app_nil_r.
  - apply frames_modify; [done|]. intros [m|v' ch']; simpl; [done|].
    intros _. apply Forall_app. split; [done|by constructor].
Qed.

Section WithReconcile.

Variable reconciled_ns : gmap positive cell -> positive -> option xmlNs * list xmlNs.

Lemma frames_xmlDOMWrapReconcileNamespaces fuel elem :
  new σ0 elem ->
  frames σ0 (xmlDOMWrapReconcileNamespaces reconciled_ns fuel elem) (fun _ => True).
Proof.
  intros Helem. unfold xmlDOMWrapReconcileNamespaces.
  eapply frames_bind; [by apply frames_walk|]. intros nodes Hnodes.
  eapply frames_bind; [apply frames_snapshot|]. intros σ _.
  apply frames_for_addrs; [done|]. intros a Ha.
  apply frames_modify; [done|]. by intros [m|v ch].
Qed.

Lemma frames_xmlSaveFileEnc fuel filename doc encoding :
  frames σ0 (xmlSaveFileEnc fuel filename doc encoding) (fun _ => True).
Proof.
  unfold xmlSaveFileEnc.
  eapply frames_bind; [apply frames_xmlDocGetRootElement|]. intros [root|] _.
  - eapply frames_bind; [apply frames_read_tree|]. intros tree _. apply frames_emit.
  - apply frames_emit.
Qed.

Lemma frames_xmlFreeDoc fuel doc :
  new σ0 doc -> frames σ0 (xmlFreeDoc fuel doc) (fun _ => True).
Proof.
  intros Hdoc. unfold xmlFreeDoc.
  eapply frames_bind; [apply frames_get|]. intros [n|v ch] Hc; [apply frames_undefined|].
  specialize (Hc Hdoc). simpl in Hc.
  eapply frames_bind.
  { apply (frames_map_addrs (walk fuel) ch (new σ0) (Forall (new σ0)));
      [done|]. intros a Ha. by apply frames_walk. }
  intros below Hbelow.
  eapply frames_bind.
  - apply frames_for_addrs; [by apply Forall_concat|]. intros a Ha.
    by apply frames_free.
  - intros _ _. by apply frames_free.
Qed.

Lemma frames_ds_ids_dump_component fuel component_id doc filename :
  frames σ0 (ds_ids_dump_component reconciled_ns fuel component_id doc filename)
    (fun _ => True).
Proof.
  unfold ds_ids_dump_component.
  eapply frames_bind; [apply frames_xmlDocGetRootElement|]. intros [root|] _;
    [|apply frames_undefined].
  eapply frames_bind; [apply frames_get_node|]. intros r _.
  eapply frames_bind; [apply frames_find_component|]. intros [component|] _;
    [|apply frames_emit].
  eapply frames_bind; [apply frames_node_get_child_element|]. intros [inner_root|] _;
    [|apply frames_emit].
  eapply frames_bind; [by apply frames_alloc|]. intros new_doc Hnew_doc.
  eapply frames_bind; [by apply frames_clone_node|]. intros res_node Hres.
  eapply frames_bind; [by apply frames_xmlDocSetRootElement|]. intros _ _.
  eapply frames_bind; [by apply frames_xmlDOMWrapReconcileNamespaces|]. intros _ _.
  eapply frames_bind; [apply frames_xmlSaveFileEnc|]. intros _ _.
  by apply frames_xmlFreeDoc.
Qed.

End WithReconcile.

End Frame.

Lemma extends_refl (σ0 : gmap positive cell) : extends σ0 σ0.
Proof.
  split; [done|]. intros a c Ha Hnew. unfold new in Hnew. congruence.
Qed.

Lemma outcome_map_weaken {A} (f g : positive -> outcome A) l xs :
  (forall a x, a ∈ l -> f a = Ret x -> g a = Ret x) ->
  outcome_map f l = Ret xs -> outcome_map g l = Ret xs.
Proof.
  revert xs. induction l as [|a l IH]; intros xs H; simpl; [done|].
  destruct (f a) as [x| |] eqn:Ef; try done.
  rewrite (H a x (list_elem_of_here _ _) Ef).
  destruct (outcome_map f l) as [ys| |] eqn:El; try done.
  rewrite (IH ys); [done| |done].
  intros b y Hb. apply H. by apply list_elem_of_further.
Qed.

(** A tree that is read from a store is read from every larger store. *)
Lemma tree_at_weaken fuel (σ σ' : gmap positive cell) a tree :
  σ ⊆ σ' -> tree_at fuel σ a = Ret tree -> tree_at fuel σ' a = Ret tree.
Proof.
  intros Hsub. revert a tree. induction fuel as [|fuel IH]; intros a tree; simpl; [done|].
  destruct (σ !! a) as [c|] eqn:E; [|done].
  rewrite (lookup_weaken _ _ _ _ E Hsub).
  destruct c as [n|v ch]; [|done].
  destruct (outcome_map (tree_at fuel σ) (n_children n)) as [kids| |] eqn:Ek; try done.
  rewrite (outcome_map_weaken (tree_at fuel σ) (tree_at fuel σ') _ kids); [done| |done].
  intros b x _. apply IH.
Qed.

(** C9.  [ds_ids_dump_component] does not change the document it reads:
    whatever the store, the component id, the document and the file name,
    and however the call ends, every cell that was in the store before
    the call is in the store after it with the same content, so every
    tree that could be read before the call, the document's among them,
    is read the same after it.  The clone, the new document and what is
    done to them only concern cells added during the call. *)
Theorem dump_component_leaves_document
    (reconciled_ns : gmap positive cell -> positive -> option xmlNs * list xmlNs)
    (fuel : nat) (component_id : string) (doc : positive) (filename : string)
    (σ : gmap positive cell) :
  let σ' := (ds_ids_dump_component reconciled_ns fuel component_id doc filename σ).1 in
  (forall a c, σ !! a = Some c -> σ' !! a = Some c)
  /\ (forall depth a tree, tree_at depth σ a = Ret tree -> tree_at depth σ' a = Ret tree).
Proof.
  cbn zeta.
  destruct (frames_ds_ids_dump_component σ reconciled_ns fuel component_id doc filename
              σ (extends_refl σ)) as [[Hsub _] _].
  split.
  - intros a c Ha. by eapply lookup_weaken.
  - intros depth a tree. by apply tree_at_weaken.
Qed.

(** The two models on one document: the store holds the tree value, the
    call on the store writes the file the call on the tree value writes,
    and the store after the call is the store before it. *)
Example store_run :
  tree_at 5 StoreExamples.σ_doc 2 = Ret StoreExamples.doc
  /\ (ds_ids_dump_component StoreExamples.declare_own_ns 5 "c1" 1 "out/c1"
        StoreExamples.σ_doc).2
     = ([SaveFileEnc "out/c1" (Examples.payload "one") "utf-8"], Ret tt)
  /\ (ds_ids_dump_component StoreExamples.declare_own_ns 5 "c1" 1 "out/c1"
        StoreExamples.σ_doc).1 = StoreExamples.σ_doc.
Proof. repeat split; vm_compute; reflexivity. Qed.

End StoreFrame.

(** ** The store model and the tree model of [ds_ids_dump_component] *)

Lemma sm_bind_pure {A B} (m : Store.SM A) (f : A -> Store.SM B) σ σ1 a :
  m σ = (σ1, ([], Ret a)) -> (m ≫= f) σ = f a σ1.
Proof.
  intros Hm. unfold mbind, Store.SM_bind, Store.sm_bind. rewrite Hm.
  by destruct (f a σ1) as [σ2 [t' o]].
Qed.

Lemma sm_bind_undefined {A B} (m : Store.SM A) (f : A -> Store.SM B) σ σ1 t :
  m σ = (σ1, (t, Undefined)) -> (m ≫= f) σ = (σ1, (t, Undefined)).
Proof. intros Hm. unfold mbind, Store.SM_bind, Store.sm_bind. by rewrite Hm. Qed.

Lemma get_node_run σ a n :
  σ !! a = Some (Store.CNode n) -> Store.get_node a σ = (σ, ([], Ret n)).
Proof.
  intros Ha. unfold Store.get_node.
  rewrite (sm_bind_pure _ _ σ σ (Store.CNode n)); [done|].
  unfold Store.get. by rewrite Ha.
Qed.

Lemma get_run σ a c : σ !! a = Some c -> Store.get a σ = (σ, ([], Ret c)).
Proof. intros Ha. unfold Store.get. by rewrite Ha. Qed.

(** The top of the tree that is read at a node. *)
Lemma tree_at_node d σ a tree :
  Store.tree_at d σ a = Ret tree ->
  exists d' n kids,
    d = S d'
    /\ σ !! a = Some (Store.CNode n)
    /\ Store.outcome_map (Store.tree_at d' σ) (Store.n_children n) = Ret kids
    /\ tree = (if Store.n_element n
               then XElement (Store.n_name n) (Store.n_ns n) (Store.n_properties n) kids
               else XOther (Store.n_content n)).
Proof.
  destruct d as [|d']; simpl; [done|].
  destruct (σ !! a) as [[n|v ch]|]; try done.
  destruct (Store.outcome_map _ _) as [kids| |] eqn:Ek; try done.
  intros [= <-]. by exists d', n, kids.
Qed.

Lemma tree_at_element d σ a tree n :
  Store.tree_at d σ a = Ret tree ->
  σ !! a = Some (Store.CNode n) ->
  is_element tree = Store.n_element n
  /\ (Store.n_element n = true ->
      node_name tree = Store.n_name n /\ node_properties tree = Store.n_properties n).
Proof.
  intros (d' & n' & kids & _ & Hn & _ & ->)%tree_at_node Ha.
  rewrite Hn in Ha. injection Ha as ->.
  destruct (Store.n_element n); simpl; [done|]. split; [done|discriminate].
Qed.

Lemma outcome_map_cons {A} (f : positive -> outcome A) a l xs :
  Store.outcome_map f (a :: l) = Ret xs ->
  exists x xs', xs = x :: xs' /\ f a = Ret x /\ Store.outcome_map f l = Ret xs'.
Proof.
  simpl. destruct (f a) as [x| |]; try done.
  destruct (Store.outcome_map f l) as [xs'| |]; try done.
  intros [= <-]. by exists x, xs'.
Qed.

(** [node_get_child_element] on the store finds the node whose tree
    [node_get_child_element] finds among the trees. *)
Lemma first_child_element_refines d σ l kids name :
  Store.outcome_map (Store.tree_at d σ) l = Ret kids ->
  exists r,
    Store.first_child_element l name σ = (σ, ([], Ret r))
    /\ match r with
       | Some a =>
           exists k, a ∈ l /\ Store.tree_at d σ a = Ret k
                     /\ first_child_element kids name = Some k
       | None => first_child_element kids name = None
       end.
Proof.
  revert kids. induction l as [|a l IH]; intros kids Hk.
  - injection Hk as <-. by exists None.
  - apply outcome_map_cons in Hk as (k & kids' & -> & Ha & Hl).
    destruct (tree_at_node _ _ _ _ Ha) as (d' & n & ks & _ & Hn & _ & _).
    destruct (tree_at_element _ _ _ _ _ Ha Hn) as [Hel Hnm].
    destruct (IH kids' Hl) as (r & Hr & Hmatch).
    assert (exists r',
              Store.first_child_element l name σ = (σ, ([], Ret r'))
              /\ match r' with
                 | Some b =>
                     exists k', b ∈ a :: l /\ Store.tree_at d σ b = Ret k'
                                /\ first_child_element kids' name = Some k'
                 | None => first_child_element kids' name = None
                 end) as Hnext.
    { exists r. split; [done|]. destruct r as [b|]; [|done].
      destruct Hmatch as (k' & Hb & Hb' & Hf). exists k'.
      split; [by apply list_elem_of_further|done]. }
    cbn [Store.first_child_element first_child_element].
    rewrite (sm_bind_pure _ _ σ σ n (get_node_run _ _ _ Hn)). rewrite Hel.
    destruct (Store.n_element n) eqn:He; cbn [negb]; [|done].
    destruct (Hnm eq_refl) as [-> _].
    destruct name as [nm|].
    + destruct (streq (Store.n_name n) nm); cbn [negb]; [|done].
      exists (Some a). split; [done|]. exists k. split; [apply list_elem_of_here|done].
    + exists (Some a). split; [done|]. exists k. split; [apply list_elem_of_here|done].
Qed.

(** The scan for the component on the store and on the trees. *)
Lemma find_component_refines d σ l kids component_id :
  Store.outcome_map (Store.tree_at d σ) l = Ret kids ->
  exists o,
    Store.find_component l component_id σ = (σ, ([], o))
    /\ match o with
       | Ret (Some a) =>
           exists k, Store.tree_at d σ a = Ret k
                     /\ find_component kids component_id = Ret (Some k)
       | Ret None => find_component kids component_id = Ret None
       | Undefined => find_component kids component_id = Undefined
       | OutOfFuel => False
       end.
Proof.
  revert kids. induction l as [|a l IH]; intros kids Hk.
  - injection Hk as <-. by exists (Ret None).
  - apply outcome_map_cons in Hk as (k & kids' & -> & Ha & Hl).
    destruct (tree_at_node _ _ _ _ Ha) as (d' & n & ks & _ & Hn & _ & _).
    destruct (tree_at_element _ _ _ _ _ Ha Hn) as [Hel Hnm].
    specialize (IH kids' Hl).
    cbn [Store.find_component find_component].
    rewrite (sm_bind_pure _ _ σ σ n (get_node_run _ _ _ Hn)). rewrite Hel.
    destruct (Store.n_element n) eqn:He; cbn [negb]; [|done].
    destruct (Hnm eq_refl) as [-> Hprops].
    destruct (streq (Store.n_name n) "component"); cbn [negb]; [|done].
    unfold xmlGetProp. rewrite Hprops.
    destruct (lookup_prop "id" (Store.n_properties n)) as [candidate_id|].
    + destruct (streq candidate_id component_id); [|done].
      exists (Ret (Some a)). split; [done|]. by exists k.
    + by exists Undefined.
Qed.

Lemma find_component_element candidates component_id component :
  find_component candidates component_id = Ret (Some component) ->
  is_element component = true.
Proof.
  induction candidates as [|c l IH]; simpl; [done|].
  destruct (is_element c) eqn:E; simpl; [|done].
  destruct (streq (node_name c) "component"); simpl; [|done].
  destruct (xmlGetProp c "id") as [v|]; [|done].
  destruct (streq v component_id); [|done]. by intros [= <-].
Qed.

Lemma tree_at_fuel d d' σ a tree :
  Store.tree_at d σ a = Ret tree -> d <= d' -> Store.tree_at d' σ a = Ret tree.
Proof.
  revert d' a tree. induction d as [|d IH]; intros d' a tree; [done|].
  intros Ht Hle. destruct d' as [|d']; [lia|].
  simpl in *. destruct (σ !! a) as [[n|v ch]|]; try done.
  destruct (Store.outcome_map (Store.tree_at d σ) (Store.n_children n)) as [kids| |] eqn:Ek;
    try done.
  rewrite (StoreFrame.outcome_map_weaken (Store.tree_at d σ) (Store.tree_at d' σ) _ kids);
    [done| |done].
  intros b x _ Hb. apply IH; [done|lia].
Qed.

Lemma same_cells_nodes σ1 σ2 : Store.same_cells σ1 σ2 -> Store.same_nodes σ1 σ2.
Proof.
  intros Hsame a. specialize (Hsame a).
  destruct (σ1 !! a) as [c1|], (σ2 !! a) as [c2|]; simpl in *; try done.
  injection Hsame as Hsame. f_equal.
  destruct c1, c2; simpl in *; congruence.
Qed.

(** The tree at a node only depends on the tree fields of the nodes. *)
Lemma tree_at_same d σ1 σ2 a :
  Store.same_nodes σ1 σ2 -> Store.tree_at d σ1 a = Store.tree_at d σ2 a.
Proof.
  intros Hsame. revert a. induction d as [|d IH]; intros a; [done|].
  simpl. specialize (Hsame a).
  destruct (σ1 !! a) as [c1|], (σ2 !! a) as [c2|]; simpl in Hsame; try done.
  injection Hsame as Hsame.
  destruct c1 as [n1|v1 ch1], c2 as [n2|v2 ch2]; simpl in Hsame; try done.
  injection Hsame as He Hn Hns Hp Hc Hch. rewrite He, Hn, Hns, Hp, Hc, Hch.
  assert (forall l, Store.outcome_map (Store.tree_at d σ1) l
                    = Store.outcome_map (Store.tree_at d σ2) l) as ->; [|done].
  intros l. induction l as [|k l IHl]; simpl; [done|].
  rewrite IH. rewrite IHl. reflexivity.
Qed.

Lemma same_cells_refl σ : Store.same_cells σ σ.
Proof. by intros a. Qed.

Lemma same_cells_trans σ1 σ2 σ3 :
  Store.same_cells σ1 σ2 -> Store.same_cells σ2 σ3 -> Store.same_cells σ1 σ3.
Proof. intros H1 H2 a. by rewrite H1. Qed.

(** A write that keeps the fields of the cell it changes. *)
Lemma same_cells_alter σ0 σ a f :
  Store.same_cells σ0 σ ->
  (forall c, σ !! a = Some c -> Store.cell_fields (f c) = Store.cell_fields c) ->
  Store.same_cells σ0 (alter f a σ).
Proof.
  intros Hsame Hf x. rewrite (Hsame x).
  destruct (decide (a = x)) as [->|Hne].
  - rewrite lookup_alter_eq. destruct (σ !! x) as [c|] eqn:E; [|done].
    simpl. f_equal. symmetry. by apply Hf.
  - by rewrite lookup_alter_ne.
Qed.

Lemma for_addrs_modify_same σ0 l (g : positive -> Store.cell -> Store.cell) σ :
  Store.same_cells σ0 σ ->
  (forall a c c0, σ0 !! a = Some c0 ->
     Store.cell_fields c = Store.cell_fields c0 ->
     Store.cell_fields (g a c) = Store.cell_fields c0) ->
  exists σ',
    Store.for_addrs l (fun a => Store.modify a (g a)) σ = (σ', ([], Ret tt))
    /\ Store.same_cells σ0 σ'.
Proof.
  intros Hsame Hg. revert σ Hsame. induction l as [|a l IH]; intros σ Hsame.
  - by exists σ.
  - cbn [Store.for_addrs].
    destruct (IH (alter (g a) a σ)) as (σ' & Hrun & Hsame').
    { apply same_cells_alter; [done|]. intros c Hc.
      pose proof (Hsame a) as Ha. rewrite Hc in Ha.
      destruct (σ0 !! a) as [c0|] eqn:E0; [|done]. simpl in Ha. injection Ha as Ha.
      rewrite (Hg a c c0 E0); by rewrite Ha. }
    exists σ'. split; [|done].
    by rewrite (sm_bind_pure _ _ σ (alter (g a) a σ) tt).
Qed.

Lemma map_addrs_pure {A} (f : positive -> Store.SM A) l σ :
  (forall a, a ∈ l -> exists x, f a σ = (σ, ([], Ret x))) ->
  exists xs, Store.map_addrs f l σ = (σ, ([], Ret xs)).
Proof.
  induction l as [|a l IH]; intros H; [by exists []|].
  destruct (H a (list_elem_of_here _ _)) as [x Hx].
  destruct IH as [xs Hxs]. { intros b Hb. apply H. by apply list_elem_of_further. }
  exists (x :: xs). cbn [Store.map_addrs].
  rewrite (sm_bind_pure _ _ σ σ x Hx). by rewrite (sm_bind_pure _ _ σ σ xs Hxs).
Qed.

Lemma outcome_map_elem {A} (f : positive -> outcome A) l xs a :
  Store.outcome_map f l = Ret xs -> a ∈ l -> exists x, f a = Ret x.
Proof.
  revert xs. induction l as [|b l IH]; intros xs Hxs Ha; [by apply elem_of_nil in Ha|].
  apply outcome_map_cons in Hxs as (x & xs' & _ & Hb & Hl).
  apply elem_of_cons in Ha as [->|Ha]; eauto.
Qed.

(** Where a tree can be read, the walk over the subtree ends. *)
Lemma walk_succeeds d fuel σ a tree :
  Store.tree_at d σ a = Ret tree -> d <= fuel ->
  exists l, Store.walk fuel a σ = (σ, ([], Ret l)).
Proof.
  revert fuel a tree. induction d as [|d IH]; intros fuel a tree Ht Hle; [done|].
  destruct fuel as [|fuel]; [lia|].
  apply tree_at_node in Ht as (d' & n & kids & [= <-] & Hn & Hk & _).
  cbn [Store.walk]. rewrite (sm_bind_pure _ _ σ σ n (get_node_run _ _ _ Hn)).
  destruct (map_addrs_pure (Store.walk fuel) (Store.n_children n) σ) as [below Hbelow].
  { intros k Hin. destruct (outcome_map_elem _ _ _ _ Hk Hin) as [x Hx].
    apply (IH fuel k x Hx). lia. }
  rewrite (sm_bind_pure _ _ σ σ below Hbelow). by eexists.
Qed.

Lemma for_addrs_free l σ :
  exists σ', Store.for_addrs l Store.free σ = (σ', ([], Ret tt)).
Proof.
  revert σ. induction l as [|a l IH]; intros σ; [by exists σ|].
  cbn [Store.for_addrs]. destruct (IH (delete a σ)) as [σ' Hσ'].
  exists σ'. by rewrite (sm_bind_pure _ _ σ (delete a σ) tt).
Qed.

Lemma outcome_map_store_weaken d (σ σ' : gmap positive Store.cell) l kids :
  σ ⊆ σ' ->
  Store.outcome_map (Store.tree_at d σ) l = Ret kids ->
  Store.outcome_map (Store.tree_at d σ') l = Ret kids.
Proof.
  intros Hsub. apply StoreFrame.outcome_map_weaken.
  intros a x _. by apply StoreFrame.tree_at_weaken.
Qed.

Section Clone.

Variables (d : nat) (fuel : nat) (new_doc : positive).

(** What the copy of a subtree of depth [d] gives: new cells, the old ones
    untouched, and the same tree at the copy in every store that holds the
    new cells. *)
Hypothesis clone_subtree :
  forall (σ : gmap positive Store.cell) src tree parent,
    Store.tree_at d σ src = Ret tree ->
    exists σ' a,
      Store.clone_node fuel src parent new_doc σ = (σ', ([], Ret a))
      /\ σ ⊆ σ'
      /\ σ !! a = None
      /\ (exists n, σ' !! a = Some (Store.CNode n) /\ Store.n_parent n = parent)
      /\ forall σ1, Store.keeps_added σ σ' σ1 -> Store.tree_at d σ1 a = Ret tree.

Lemma clone_children parent l :
  forall (σ1 : gmap positive Store.cell) kids,
    Store.outcome_map (Store.tree_at d σ1) l = Ret kids ->
    exists σ2 l',
      Store.map_addrs (fun k => Store.clone_node fuel k parent new_doc) l σ1
      = (σ2, ([], Ret l'))
      /\ σ1 ⊆ σ2
      /\ forall σ3, Store.keeps_added σ1 σ2 σ3 ->
           Store.outcome_map (Store.tree_at d σ3) l' = Ret kids.
Proof.
  induction l as [|k l IH]; intros σ1 kids Hk.
  - injection Hk as <-. exists σ1, []. split; [done|]. split; [done|]. done.
  - apply outcome_map_cons in Hk as (t & kids' & -> & Ht & Hl).
    destruct (clone_subtree σ1 k t parent Ht) as (σa & a & Hrun & Hsub & Hnew & _ & Htree).
    destruct (IH σa kids') as (σ2 & l' & Hrun' & Hsub' & Htrees).
    { by eapply outcome_map_store_weaken. }
    exists σ2, (a :: l'). split; [|split].
    + cbn [Store.map_addrs]. rewrite (sm_bind_pure _ _ σ1 σa a Hrun).
      by rewrite (sm_bind_pure _ _ σa σ2 l' Hrun').
    + by etrans.
    + intros σ3 Hkeep. simpl.
      rewrite (Htree σ3).
      * rewrite (Htrees σ3); [done|].
        intros x c Hx Hnone. apply Hkeep; [done|].
        destruct (σ1 !! x) as [c'|] eqn:E; [|done].
        pose proof (lookup_weaken _ _ _ _ E Hsub). congruence.
      * intros x c Hx Hnone. apply Hkeep; [|done]. by eapply lookup_weaken.
Qed.

End Clone.

(** The copy of a subtree that can be read as [tree] reads as [tree]. *)
Lemma clone_node_refines d fuel new_doc :
  d <= fuel ->
  forall (σ : gmap positive Store.cell) src tree parent,
    Store.tree_at d σ src = Ret tree ->
    exists σ' a,
      Store.clone_node fuel src parent new_doc σ = (σ', ([], Ret a))
      /\ σ ⊆ σ'
      /\ σ !! a = None
      /\ (exists n, σ' !! a = Some (Store.CNode n) /\ Store.n_parent n = parent)
      /\ forall σ1, Store.keeps_added σ σ' σ1 -> Store.tree_at d σ1 a = Ret tree.
Proof.
  revert fuel. induction d as [|d IH]; intros fuel Hle σ src tree parent Ht; [done|].
  destruct fuel as [|fuel]; [lia|].
  apply tree_at_node in Ht as (d' & n & kids & [= <-] & Hn & Hk & ->).
  pose proof (is_fresh (dom σ)) as Hfresh. apply not_elem_of_dom in Hfresh.
  set (a := fresh (dom σ)) in *.
  set (n0 := Store.set_doc (Some new_doc)
               (Store.set_parent parent (Store.set_children [] n))).
  set (σ1 := <[a := Store.CNode n0]> σ).
  assert (σ ⊆ σ1) as Hsub1 by (by apply insert_subseteq).
  destruct (clone_children d fuel new_doc (IH fuel ltac:(lia)) (Some a)
              (Store.n_children n) σ1 kids) as (σ2 & l' & Hrun & Hsub2 & Htrees).
  { by eapply outcome_map_store_weaken. }
  assert (σ2 !! a = Some (Store.CNode n0)) as Ha2.
  { eapply lookup_weaken; [|exact Hsub2]. subst σ1. by rewrite lookup_insert_eq. }
  exists (alter (Store.on_node (Store.set_children l')) a σ2), a.
  split; [|split; [|split; [|split]]].
  - cbn [Store.clone_node].
    rewrite (sm_bind_pure _ _ σ σ n (get_node_run _ _ _ Hn)).
    rewrite (sm_bind_pure _ _ σ σ1 a) by reflexivity.
    rewrite (sm_bind_pure _ _ σ1 σ2 l' Hrun).
    by rewrite (sm_bind_pure _ _ σ2 (alter (Store.on_node (Store.set_children l')) a σ2) tt).
  - apply map_subseteq_spec. intros i x Hi.
    rewrite lookup_alter_ne by (intros ->; congruence).
    eapply lookup_weaken; [|exact Hsub2]. by eapply lookup_weaken.
  - done.
  - exists (Store.set_children l' n0). rewrite lookup_alter_eq, Ha2. done.
  - intros σ3 Hkeep.
    destruct (Hkeep a (Store.CNode (Store.set_children l' n0))) as (c1 & Hc1 & Hfields);
      [by rewrite lookup_alter_eq, Ha2|done|].
    destruct c1 as [n1|v ch]; [|done]. simpl in Hfields.
    injection Hfields as He Hnm Hns Hp Hc Hch.
    simpl. rewrite Hc1, Hch.
    rewrite (Htrees σ3).
    + by rewrite He, Hnm, Hns, Hp, Hc.
    + intros x c Hx Hnone. apply Hkeep.
      * rewrite lookup_alter_ne; [done|]. intros <-. subst σ1.
        rewrite lookup_insert_eq in Hnone. done.
      * destruct (σ !! x) as [c'|] eqn:E; [|done].
        pose proof (lookup_weaken _ _ _ _ E Hsub1). congruence.
Qed.

Ltac sm_step H := erewrite sm_bind_pure; [|exact H]; cbv beta iota.

Lemma cell_fields_doc c version ch :
  Store.cell_fields c = inr (version, ch) -> c = Store.CDoc version ch.
Proof. destruct c as [n|v' ch']; simpl; [done|]. by intros [= -> ->]. Qed.

Lemma same_cells_lookup_doc σ σ' a version ch :
  Store.same_cells σ σ' ->
  σ !! a = Some (Store.CDoc version ch) -> σ' !! a = Some (Store.CDoc version ch).
Proof.
  intros Hsame Ha. specialize (Hsame a). rewrite Ha in Hsame.
  destruct (σ' !! a) as [c|]; [|done]. simpl in Hsame. injection Hsame as Hsame.
  f_equal. by apply cell_fields_doc.
Qed.

Lemma xmlUnlinkNode_run σ cur n :
  σ !! cur = Some (Store.CNode n) -> Store.n_parent n = None ->
  Store.xmlUnlinkNode cur σ = (σ, ([], Ret tt)).
Proof.
  intros Hn Hp. unfold Store.xmlUnlinkNode.
  sm_step (get_node_run _ _ _ Hn). by rewrite Hp.
Qed.

Lemma xmlDocSetRootElement_run fuel d σ new_doc res version n tree :
  σ !! new_doc = Some (Store.CDoc version []) ->
  σ !! res = Some (Store.CNode n) ->
  Store.n_parent n = None ->
  Store.tree_at d σ res = Ret tree ->
  d <= fuel ->
  exists σ',
    Store.xmlDocSetRootElement fuel new_doc res σ = (σ', ([], Ret tt))
    /\ σ' !! new_doc = Some (Store.CDoc version [res])
    /\ Store.same_nodes σ σ'.
Proof.
  intros Hdoc Hres Hparent Htree Hle.
  destruct (walk_succeeds d fuel σ res tree Htree Hle) as [l Hwalk].
  destruct (for_addrs_modify_same σ l
              (fun _ => Store.on_node (Store.set_doc (Some new_doc))) σ
              (same_cells_refl σ)) as (σ3 & Hrun3 & Hsame3).
  { intros a c c0 _ <-. by destruct c. }
  set (σ4 := alter (Store.on_node (Store.set_parent (Some new_doc))) res σ3).
  assert (Store.same_cells σ σ4) as Hsame4.
  { apply same_cells_alter; [done|]. intros c _. by destruct c. }
  pose proof (same_cells_lookup_doc _ _ _ _ _ Hsame4 Hdoc) as Hdoc4.
  exists (alter (Store.set_doc_children [res]) new_doc σ4).
  split; [|split].
  - unfold Store.xmlDocSetRootElement.
    sm_step (xmlUnlinkNode_run _ _ _ Hres Hparent).
    assert (Store.xmlSetTreeDoc fuel res new_doc σ = (σ3, ([], Ret tt))) as Hset.
    { unfold Store.xmlSetTreeDoc. by sm_step Hwalk. }
    sm_step Hset.
    erewrite (sm_bind_pure _ _ σ3 σ4 tt) by reflexivity.
    sm_step (get_run _ _ _ Hdoc4).
    cbn [Store.first_child_element].
    by erewrite (sm_bind_pure _ _ σ4 σ4 None) by reflexivity.
  - by rewrite lookup_alter_eq, Hdoc4.
  - intros x. rewrite (same_cells_nodes _ _ Hsame4 x).
    destruct (decide (new_doc = x)) as [<-|Hne].
    + by rewrite lookup_alter_eq, Hdoc4.
    + by rewrite lookup_alter_ne.
Qed.

Lemma xmlDOMWrapReconcileNamespaces_run reconciled_ns fuel d σ elem tree :
  (forall (σ : gmap positive Store.cell) a n,
     σ !! a = Some (Store.CNode n) -> (reconciled_ns σ a).1 = Store.n_ns n) ->
  Store.tree_at d σ elem = Ret tree ->
  d <= fuel ->
  exists σ',
    Store.xmlDOMWrapReconcileNamespaces reconciled_ns fuel elem σ = (σ', ([], Ret tt))
    /\ Store.same_cells σ σ'.
Proof.
  intros Hns Htree Hle.
  destruct (walk_succeeds d fuel σ elem tree Htree Hle) as [l Hwalk].
  destruct (for_addrs_modify_same σ l
              (fun a => Store.on_node (Store.set_ns (reconciled_ns σ a))) σ
              (same_cells_refl σ)) as (σ' & Hrun & Hsame).
  { intros a c c0 Ha Hc. rewrite <- Hc. destruct c as [n|v ch]; [|done].
    destruct c0 as [n0|v0 ch0]; [|done]. simpl in *.
    injection Hc as He Hn Hnsn Hp Hcont Hch.
    unfold Store.tree_fields. simpl. by rewrite (Hns σ a n0 Ha), Hnsn. }
  exists σ'. split; [|done].
  unfold Store.xmlDOMWrapReconcileNamespaces.
  sm_step Hwalk. by erewrite (sm_bind_pure _ _ σ σ σ) by reflexivity.
Qed.

Lemma sm_bind_emit {B} e (k : Store.SM B) σ :
  (Store.sm_emit e ;; k) σ = (let '(σ', (t, o)) := k σ in (σ', (e :: t, o))).
Proof. unfold mbind, Store.SM_bind, Store.sm_bind, Store.sm_emit, emit. by simpl. Qed.

Lemma xmlSaveFileEnc_run fuel d σ new_doc res version tree filename encoding :
  σ !! new_doc = Some (Store.CDoc version [res]) ->
  Store.tree_at d σ res = Ret tree ->
  is_element tree = true ->
  d <= fuel ->
  Store.xmlSaveFileEnc fuel filename new_doc encoding σ
  = (σ, ([SaveFileEnc filename tree encoding], Ret tt)).
Proof.
  intros Hdoc Htree Hel Hle.
  destruct (tree_at_node _ _ _ _ Htree) as (d' & n & kids & _ & Hn & _ & _).
  destruct (tree_at_element _ _ _ _ _ Htree Hn) as [He _]. rewrite Hel in He.
  unfold Store.xmlSaveFileEnc, Store.xmlDocGetRootElement.
  assert ((c ← Store.get new_doc;
           match c with
           | Store.CNode _ => Store.sm_undefined
           | Store.CDoc _ ch => Store.first_child_element ch None
           end) σ = (σ, ([], Ret (Some res)))) as Hroot.
  { sm_step (get_run _ _ _ Hdoc). cbn [Store.first_child_element].
    sm_step (get_node_run _ _ _ Hn). by rewrite <- He. }
  sm_step Hroot.
  erewrite (sm_bind_pure _ _ σ σ tree); [done|].
  unfold Store.read_tree. by rewrite (tree_at_fuel d fuel σ res tree Htree Hle).
Qed.

Lemma xmlFreeDoc_run fuel d σ new_doc res version tree :
  σ !! new_doc = Some (Store.CDoc version [res]) ->
  Store.tree_at d σ res = Ret tree ->
  d <= fuel ->
  exists σ', Store.xmlFreeDoc fuel new_doc σ = (σ', ([], Ret tt)).
Proof.
  intros Hdoc Htree Hle.
  destruct (walk_succeeds d fuel σ res tree Htree Hle) as [l Hwalk].
  destruct (for_addrs_free (concat [l]) σ) as [σ1 Hfree].
  exists (delete new_doc σ1).
  unfold Store.xmlFreeDoc. sm_step (get_run _ _ _ Hdoc).
  assert (Store.map_addrs (Store.walk fuel) [res] σ = (σ, ([], Ret [l]))) as Hmap.
  { cbn [Store.map_addrs]. sm_step Hwalk.
    by erewrite (sm_bind_pure _ _ σ σ []) by reflexivity. }
  sm_step Hmap. by sm_step Hfree.
Qed.

Lemma get_node_cases σ a :
  (exists n, σ !! a = Some (Store.CNode n) /\ Store.get_node a σ = (σ, ([], Ret n)))
  \/ Store.get_node a σ = (σ, ([], Undefined)).
Proof.
  destruct (σ !! a) as [[n|v ch]|] eqn:E.
  - left. exists n. split; [done|]. by apply get_node_run.
  - right. unfold Store.get_node. by sm_step (get_run _ _ _ E).
  - right. unfold Store.get_node. erewrite sm_bind_undefined; [done|].
    unfold Store.get. by rewrite E.
Qed.

Lemma first_child_element_found l name σ σ1 t a :
  Store.first_child_element l name σ = (σ1, (t, Ret (Some a))) ->
  exists n, σ !! a = Some (Store.CNode n) /\ Store.n_element n = true.
Proof.
  induction l as [|c l IH]; cbn [Store.first_child_element]; [done|].
  destruct (get_node_cases σ c) as [(n & Hn & Hrun)|Hrun].
  - sm_step Hrun. destruct (Store.n_element n) eqn:He; cbn [negb]; [|done].
    destruct name as [nm|].
    + destruct (streq (Store.n_name n) nm); cbn [negb]; [|done].
      intros [= <- <- <-]. eauto.
    + intros [= <- <- <-]. eauto.
  - by rewrite (sm_bind_undefined _ _ σ σ [] Hrun).
Qed.

(** From the new document to its release: one file, whose content is the
    tree of the node that is cloned. *)
Lemma dump_clone_run reconciled_ns fuel d σ inner_root tree filename :
  (forall (σ : gmap positive Store.cell) a n,
     σ !! a = Some (Store.CNode n) -> (reconciled_ns σ a).1 = Store.n_ns n) ->
  Store.tree_at d σ inner_root = Ret tree ->
  is_element tree = true ->
  d <= fuel ->
  exists σ',
    (new_doc ← Store.xmlNewDoc "1.0";
     res_node ← Store.xmlDOMWrapCloneNode fuel inner_root new_doc;
     Store.xmlDocSetRootElement fuel new_doc res_node;;
     Store.xmlDOMWrapReconcileNamespaces reconciled_ns fuel res_node;;
     Store.xmlSaveFileEnc fuel filename new_doc "utf-8";;
     Store.xmlFreeDoc fuel new_doc) σ
    = (σ', ([SaveFileEnc filename tree "utf-8"], Ret tt)).
Proof.
  intros Hns Htree Hel Hle.
  pose proof (is_fresh (dom σ)) as Hfresh. apply not_elem_of_dom in Hfresh.
  set (new_doc := fresh (dom σ)) in *.
  set (σ1 := <[new_doc := Store.CDoc "1.0" []]> σ).
  assert (σ ⊆ σ1) as Hsub1 by (by apply insert_subseteq).
  destruct (clone_node_refines d fuel new_doc Hle σ1 inner_root tree None)
    as (σ2 & res & Hclone & Hsub2 & _ & (n & Hres & Hparent) & Hkeep).
  { by eapply StoreFrame.tree_at_weaken. }
  assert (σ2 !! new_doc = Some (Store.CDoc "1.0" [])) as Hdoc2.
  { eapply lookup_weaken; [|exact Hsub2]. subst σ1. by rewrite lookup_insert_eq. }
  assert (Store.tree_at d σ2 res = Ret tree) as Htree2.
  { apply Hkeep. intros x c Hx _. eauto. }
  destruct (xmlDocSetRootElement_run fuel d σ2 new_doc res "1.0" n tree
              Hdoc2 Hres Hparent Htree2 Hle) as (σ5 & Hroot & Hdoc5 & Hsame5).
  assert (Store.tree_at d σ5 res = Ret tree) as Htree5
      by (by rewrite <- (tree_at_same d σ2 σ5 res Hsame5)).
  destruct (xmlDOMWrapReconcileNamespaces_run reconciled_ns fuel d σ5 res tree
              Hns Htree5 Hle) as (σ6 & Hrec & Hsame6).
  pose proof (same_cells_lookup_doc _ _ _ _ _ Hsame6 Hdoc5) as Hdoc6.
  assert (Store.tree_at d σ6 res = Ret tree) as Htree6
      by (by rewrite <- (tree_at_same d σ5 σ6 res (same_cells_nodes _ _ Hsame6))).
  destruct (xmlFreeDoc_run fuel d σ6 new_doc res "1.0" tree Hdoc6 Htree6 Hle)
    as [σ7 Hfree].
  exists σ7.
  erewrite (sm_bind_pure _ _ σ σ1 new_doc) by reflexivity.
  unfold Store.xmlDOMWrapCloneNode. sm_step Hclone. sm_step Hroot. sm_step Hrec.
  unfold mbind, Store.SM_bind, Store.sm_bind.
  rewrite (xmlSaveFileEnc_run fuel d σ6 new_doc res "1.0" tree filename "utf-8"
             Hdoc6 Htree6 Hel Hle).
  by rewrite Hfree.
Qed.

Lemma lift_bind {A B} (a : A) (f : A -> M B) : (lift (Ret a) ≫= f) = f a.
Proof. apply bind_ret. Qed.

(** The two models of [ds_ids_dump_component] agree.  When the store
    holds a document whose root element reads as [tree], the fuel covers
    the depth of the tree, and the reconciliation leaves every node the
    namespace it is bound to, the call on the store has the events and the
    outcome of the call on [tree]: in particular the file that is written
    from the clone holds the payload as the tree model has it. *)
Theorem store_dump_refines
    (reconciled_ns : gmap positive Store.cell -> positive -> option xmlNs * list xmlNs)
    (fuel d : nat) (σ : gmap positive Store.cell) (doc : positive) (version : string)
    (ch : list positive) (root : positive) (tree : xmlNode)
    (component_id filename : string) :
  (forall (σ : gmap positive Store.cell) a n,
     σ !! a = Some (Store.CNode n) -> (reconciled_ns σ a).1 = Store.n_ns n) ->
  σ !! doc = Some (Store.CDoc version ch) ->
  Store.first_child_element ch None σ = (σ, ([], Ret (Some root))) ->
  Store.tree_at d σ root = Ret tree ->
  d <= fuel ->
  (Store.ds_ids_dump_component reconciled_ns fuel component_id doc filename σ).2
  = ds_ids_dump_component component_id tree filename.
Proof.
  intros Hns Hdoc Hroot Htree Hle.
  destruct (first_child_element_found _ _ _ _ _ _ Hroot) as (r & Hr & Her).
  destruct (tree_at_node _ _ _ _ Htree) as (d1 & r' & kids & -> & Hr' & Hkids & ->).
  rewrite Hr in Hr'. injection Hr' as <-. rewrite Her.
  unfold Store.ds_ids_dump_component, ds_ids_dump_component, xmlDocGetRootElement.
  cbn [node_children].
  assert (Store.xmlDocGetRootElement doc σ = (σ, ([], Ret (Some root)))) as Hget.
  { unfold Store.xmlDocGetRootElement. by sm_step (get_run _ _ _ Hdoc). }
  sm_step Hget. sm_step (get_node_run _ _ _ Hr).
  destruct (find_component_refines d1 σ (Store.n_children r) kids component_id Hkids)
    as (o & Hfind & Hmatch).
  destruct o as [[component|]| |]; [| | |done].
  - destruct Hmatch as (k & Hk & Hfound). rewrite Hfound, lift_bind.
    sm_step Hfind.
    pose proof (find_component_element _ _ _ Hfound) as Hkel. clear Hfound.
    destruct (tree_at_node _ _ _ _ Hk) as (d2 & nc & kkids & -> & Hnc & Hkkids & ->).
    pose proof (tree_at_element _ _ _ _ _ Hk Hnc) as [Hcel _].
    rewrite Hkel in Hcel. rewrite <- Hcel in *.
    unfold Store.node_get_child_element, node_get_child_element. cbn [node_children].
    destruct (first_child_element_refines d2 σ (Store.n_children nc) kkids None Hkkids)
      as (inner & Hinner & Hm).
    assert ((n ← Store.get_node component;
             Store.first_child_element (Store.n_children n) None) σ
            = (σ, ([], Ret inner))) as Hchild.
    { by sm_step (get_node_run _ _ _ Hnc). }
    sm_step Hchild.
    destruct inner as [inner_root|].
    + destruct Hm as (p & _ & Hp & Hfirst). rewrite Hfirst.
      destruct (first_child_element_in _ _ _ Hfirst) as [_ Hpel].
      destruct (dump_clone_run reconciled_ns fuel d2 σ inner_root p filename
                  Hns Hp Hpel ltac:(lia)) as [σ' Hrun].
      by rewrite Hrun.
    + by rewrite Hm.
  - rewrite Hmatch, lift_bind. by sm_step Hfind.
  - rewrite Hmatch. by rewrite (sm_bind_undefined _ _ σ σ [] Hfind).
Qed.

Lemma declare_own_ns_keeps_ns (σ : gmap positive Store.cell) a n :
  σ !! a = Some (Store.CNode n) -> (StoreExamples.declare_own_ns σ a).1 = Store.n_ns n.
Proof. intros Ha. unfold StoreExamples.declare_own_ns. by rewrite Ha. Qed.

Example store_dump_refines_example :
  (Store.ds_ids_dump_component StoreExamples.declare_own_ns 5 "c1" 1 "out/c1"
     StoreExamples.σ_doc).2
  = ds_ids_dump_component "c1" StoreExamples.doc "out/c1".
Proof.
  apply (store_dump_refines StoreExamples.declare_own_ns 5 4 StoreExamples.σ_doc 1 "1.0"
           [2%positive] 2 StoreExamples.doc "c1" "out/c1").
  - exact declare_own_ns_keeps_ns.
  - reflexivity.
  - vm_compute. reflexivity.
  - vm_compute. reflexivity.
  - lia.
Qed.

(** * Further properties of the code *)

(** ** [node_get_child_element] *)

Lemma first_child_element_find candidates name :
  first_child_element candidates name = List.find (child_matches name) candidates.
Proof.
  induction candidates as [|c l IH]; simpl; [done|].
  unfold child_matches at 1.
  destruct (is_element c); simpl; [|done].
  destruct name as [n|]; [|done].
  by destruct (streq (node_name c) n).
Qed.

Lemma find_first {A} (p : A -> bool) l x :
  List.find p l = Some x <->
  exists before after,
    l = before ++ x :: after /\ p x = true /\ forallb (fun y => negb (p y)) before = true.
Proof.
  split.
  - induction l as [|y l IH]; simpl; [done|].
    destruct (p y) eqn:E.
    + intros [= <-]. by exists [], l.
    + intros (before & after & -> & Hx & Hb)%IH.
      exists (y :: before), after. simpl. by rewrite E.
  - intros (before & after & -> & Hx & Hb).
    induction before as [|y before IH]; simpl in *; [by rewrite Hx|].
    apply andb_true_iff in Hb as [Hy Hb]. apply negb_true_iff in Hy. rewrite Hy. by apply IH.
Qed.

Lemma find_none {A} (p : A -> bool) l :
  List.find p l = None <-> forallb (fun y => negb (p y)) l = true.
Proof.
  induction l as [|y l IH]; simpl; [done|].
  destruct (p y); simpl; [split; done|done].
Qed.

(** X1.  [node_get_child_element] returns the first child that is an
    element and, when a name is given, has that name: the children before
    it all fail the test, and the result is [NULL] exactly when every child
    fails it.  What comes after the first match does not matter. *)
Theorem node_get_child_element_first (parent : xmlNode) (name : option string) :
  (forall child,
     node_get_child_element parent name = Some child <->
     exists before after,
       node_children parent = before ++ child :: after
       /\ child_matches name child = true
       /\ forallb (fun c => negb (child_matches name c)) before = true)
  /\ (node_get_child_element parent name = None <->
      forallb (fun c => negb (child_matches name c)) (node_children parent) = true).
Proof.
  unfold node_get_child_element. rewrite first_child_element_find. split.
  - intros child. apply find_first.
  - apply find_none.
Qed.

(** ** [ds_ids_decompose]: the selection of the datastream and the fatal errors *)

Lemma select_datastream_find candidates id :
  select_datastream candidates id = List.find (datastream_matches id) candidates.
Proof.
  induction candidates as [|c l IH]; simpl; [done|].
  unfold datastream_matches at 1, is_named_element.
  destruct (is_element c); simpl; [|done].
  destruct (streq (node_name c) "data-stream"); simpl; [|done].
  destruct id as [i|]; [|done].
  destruct (xmlGetProp c "id") as [v|]; [|done].
  by destruct (streq i v).
Qed.

(** X2.  Without a datastream id, [ds_ids_decompose] takes the first
    [data-stream] element of the root, in document order, whatever ids it
    or the later datastreams have, and dumps the children of its
    [checklists]. *)
Theorem decompose_without_id_takes_first (xmlReadFile : string -> xmlDoc + option Z)
    (fuel : nat) (input_file target_dir : string) (doc : xmlDoc)
    (before after : list xmlNode) (datastream checklists : xmlNode) :
  xmlReadFile input_file = inl doc ->
  node_children (xmlDocGetRootElement doc) = before ++ datastream :: after ->
  forallb (fun c => negb (is_named_element c "data-stream")) before = true ->
  is_named_element datastream "data-stream" = true ->
  node_get_child_element datastream (Some "checklists") = Some checklists ->
  select_datastream (node_children (xmlDocGetRootElement doc)) None = Some datastream
  /\ ds_ids_decompose xmlReadFile fuel input_file None target_dir
     = dump_checklists fuel (node_children checklists) doc datastream target_dir.
Proof.
  intros Hread Hch Hbefore Hds Hcl.
  assert (select_datastream (node_children (xmlDocGetRootElement doc)) None
          = Some datastream) as Hsel.
  { rewrite select_datastream_find. apply find_first. exists before, after.
    split; [done|]. unfold datastream_matches. rewrite Hds. split; [done|].
    clear -Hbefore. induction before as [|c l IH]; simpl in *; [done|].
    apply andb_true_iff in Hbefore as [Hc Hl].
    by rewrite andb_true_r, Hc, IH. }
  split; [done|]. unfold ds_ids_decompose. by rewrite Hread, Hsel, Hcl.
Qed.

Lemma decompose_without_id_takes_first_witness :
  select_datastream (node_children (xmlDocGetRootElement MoreExamples.doc_two_datastreams))
    None = Some MoreExamples.ds_first
  /\ ds_ids_decompose (Examples.read MoreExamples.doc_two_datastreams) 3 "in.xml" None "out"
     = dump_checklists 3 [Examples.ref1] MoreExamples.doc_two_datastreams
         MoreExamples.ds_first "out".
Proof.
  apply (decompose_without_id_takes_first (Examples.read MoreExamples.doc_two_datastreams)
           3 "in.xml" "out" MoreExamples.doc_two_datastreams
           [XOther " "; Examples.component "c1" [Examples.payload "one"]]
           [MoreExamples.ds_second; Examples.component "c2" [Examples.payload "two"]]
           MoreExamples.ds_first (Examples.container "checklists" [Examples.ref1]));
    reflexivity.
Defined.

(** X3.  With a datastream id, [ds_ids_decompose] takes the first
    [data-stream] element whose [id] is that id.  The datastreams before
    it may have another [id] or none: an absent [id] is checked for and
    skipped, it is not compared. *)
Theorem decompose_with_id_takes_first_match (xmlReadFile : string -> xmlDoc + option Z)
    (fuel : nat) (input_file id target_dir : string) (doc : xmlDoc)
    (before after : list xmlNode) (datastream checklists : xmlNode) :
  xmlReadFile input_file = inl doc ->
  node_children (xmlDocGetRootElement doc) = before ++ datastream :: after ->
  forallb (fun c => negb (datastream_matches (Some id) c)) before = true ->
  is_named_element datastream "data-stream" = true ->
  xmlGetProp datastream "id" = Some id ->
  node_get_child_element datastream (Some "checklists") = Some checklists ->
  select_datastream (node_children (xmlDocGetRootElement doc)) (Some id) = Some datastream
  /\ ds_ids_decompose xmlReadFile fuel input_file (Some id) target_dir
     = dump_checklists fuel (node_children checklists) doc datastream target_dir.
Proof.
  intros Hread Hch Hbefore Hds Hid Hcl.
  assert (select_datastream (node_children (xmlDocGetRootElement doc)) (Some id)
          = Some datastream) as Hsel.
  { rewrite select_datastream_find. apply find_first. exists before, after.
    split; [done|]. unfold datastream_matches. rewrite Hds, Hid. split; [|done].
    simpl. apply String.eqb_refl. }
  split; [done|]. unfold ds_ids_decompose. by rewrite Hread, Hsel, Hcl.
Qed.

Lemma decompose_with_id_takes_first_match_witness :
  select_datastream (node_children (xmlDocGetRootElement MoreExamples.doc_two_datastreams))
    (Some "ds2") = Some MoreExamples.ds_second
  /\ ds_ids_decompose (Examples.read MoreExamples.doc_two_datastreams) 3 "in.xml"
       (Some "ds2") "out"
     = dump_checklists 3 [Examples.ref2] MoreExamples.doc_two_datastreams
         MoreExamples.ds_second "out".
Proof.
  apply (decompose_with_id_takes_first_match
           (Examples.read MoreExamples.doc_two_datastreams) 3 "in.xml" "ds2" "out"
           MoreExamples.doc_two_datastreams
           [XOther " "; Examples.component "c1" [Examples.payload "one"];
            MoreExamples.ds_first]
           [Examples.component "c2" [Examples.payload "two"]]
           MoreExamples.ds_second (Examples.container "checklists" [Examples.ref2]));
    reflexivity.
Defined.

(** X4.  The two fatal errors of [ds_ids_decompose] before any datastream
    is looked at: when the file cannot be parsed, and when no [data-stream]
    child of the root is selected, the run is one error report and nothing
    else; no directory is made and no file written.  The parse error
    carries the code of the parser's last error, 0 when there is none. *)
Theorem decompose_fatal_errors (xmlReadFile : string -> xmlDoc + option Z)
    (fuel : nat) (input_file : string) (id : option string) (target_dir : string) :
  (forall last_error,
     xmlReadFile input_file = inr last_error ->
     ds_ids_decompose xmlReadFile fuel input_file id target_dir
     = ([Seterr OSCAP_EFAMILY_XML (default 0%Z last_error)
           ("Could not read/parse XML of given input file at path '" +:+ input_file +:+ "'.")],
        Ret tt))
  /\ (forall doc,
        xmlReadFile input_file = inl doc ->
        forallb (fun c => negb (datastream_matches id c))
          (node_children (xmlDocGetRootElement doc)) = true ->
        ds_ids_decompose xmlReadFile fuel input_file id target_dir
        = ([Seterr OSCAP_EFAMILY_XML 0
              match id with
              | Some i => "Could not find any datastream of id '" +:+ i +:+ "'"
              | None => "Could not find any datastream inside the file"
              end],
           Ret tt)).
Proof.
  split.
  - intros e He. unfold ds_ids_decompose. by rewrite He.
  - intros doc Hdoc Hnone. unfold ds_ids_decompose. rewrite Hdoc.
    apply find_none in Hnone. rewrite <- select_datastream_find in Hnone.
    by rewrite Hnone.
Qed.

Lemma decompose_fatal_errors_witness :
  ds_ids_decompose (fun _ => inr (Some 4%Z)) 3 "in.xml" None "out"
  = ([Seterr OSCAP_EFAMILY_XML 4
        "Could not read/parse XML of given input file at path 'in.xml'."], Ret tt)
  /\ ds_ids_decompose (Examples.read MoreExamples.doc_two_datastreams) 3 "in.xml"
       (Some "ds9") "out"
     = ([Seterr OSCAP_EFAMILY_XML 0 "Could not find any datastream of id 'ds9'"], Ret tt).
Proof.
  split.
  - exact (proj1 (decompose_fatal_errors (fun _ => inr (Some 4%Z)) 3 "in.xml" None "out")
             (Some 4%Z) eq_refl).
  - exact (proj2 (decompose_fatal_errors (Examples.read MoreExamples.doc_two_datastreams)
                    3 "in.xml" (Some "ds9") "out")
             MoreExamples.doc_two_datastreams eq_refl eq_refl).
Defined.

(** X5.  An empty target directory stands for the current directory:
    [ds_ids_decompose] with [""] runs exactly as with ["."]. *)
Theorem decompose_empty_target_dir (xmlReadFile : string -> xmlDoc + option Z)
    (fuel : nat) (input_file : string) (id : option string) :
  ds_ids_decompose xmlReadFile fuel input_file id EmptyString
  = ds_ids_decompose xmlReadFile fuel input_file id ".".
Proof. reflexivity. Qed.

(** ** [ds_ids_dump_component] *)

Lemma find_component_first id before c after :
  forallb (passed_over "component" id) before = true ->
  is_named_element c "component" = true ->
  xmlGetProp c "id" = Some id ->
  find_component (before ++ c :: after) id = Ret (Some c).
Proof.
  intros Hb Hc Hid. unfold is_named_element in Hc.
  apply andb_true_iff in Hc as [He Hn].
  induction before as [|n l IH]; simpl.
  - rewrite He, Hn, Hid. simpl. unfold streq. by rewrite String.eqb_refl.
  - simpl in Hb. apply andb_true_iff in Hb as [Hn' Hl].
    unfold passed_over, is_named_element, has_id, id_is in Hn'.
    destruct (is_element n); simpl in *; [|by apply IH].
    destruct (streq (node_name n) "component"); simpl in *; [|by apply IH].
    destruct (xmlGetProp n "id") as [v|]; [|done]. simpl in Hn'.
    apply negb_true_iff in Hn'. rewrite Hn'. by apply IH.
Qed.

Lemma find_component_none id l :
  forallb (passed_over "component" id) l = true -> find_component l id = Ret None.
Proof.
  induction l as [|n l IH]; simpl; [done|].
  intros [Hn' Hl]%andb_true_iff.
  unfold passed_over, is_named_element, has_id, id_is in Hn'.
  destruct (is_element n); simpl in *; [|by apply IH].
  destruct (streq (node_name n) "component"); simpl in *; [|by apply IH].
  destruct (xmlGetProp n "id") as [v|]; [|done]. simpl in Hn'.
  apply negb_true_iff in Hn'. rewrite Hn'. by apply IH.
Qed.

Lemma find_component_found l id c :
  find_component l id = Ret (Some c) ->
  c ∈ l /\ is_named_element c "component" = true /\ xmlGetProp c "id" = Some id.
Proof.
  induction l as [|n l IH]; simpl; [done|].
  assert (find_component l id = Ret (Some c) ->
          c ∈ n :: l /\ is_named_element c "component" = true /\ xmlGetProp c "id" = Some id)
    as IH'.
  { intros (? & ? & ?)%IH. split; [by apply list_elem_of_further|done]. }
  destruct (is_element n) eqn:He; simpl; [|done].
  destruct (streq (node_name n) "component") eqn:Hn; simpl; [|done].
  destruct (xmlGetProp n "id") as [v|] eqn:Hid; [|done].
  destruct (streq v id) eqn:Hv; [|done].
  intros [= <-]. apply streq_true in Hv as ->.
  split; [apply list_elem_of_here|]. unfold is_named_element. by rewrite He, Hn.
Qed.

(** X6.  [ds_ids_dump_component] dumps the first [component] child of the
    root whose [id] is the one asked for, and of that component the first
    element child: the text before that element is skipped, and neither the
    children after it nor a later component with the same id are looked
    at.  The run is the one write of that element to [filename], as
    [utf-8]. *)
Theorem dump_component_takes_first (component_id : string) (doc : xmlDoc) (filename : string)
    (before after skipped rest : list xmlNode) (component inner_root : xmlNode) :
  node_children (xmlDocGetRootElement doc) = before ++ component :: after ->
  forallb (passed_over "component" component_id) before = true ->
  is_named_element component "component" = true ->
  xmlGetProp component "id" = Some component_id ->
  node_children component = skipped ++ inner_root :: rest ->
  forallb (fun n => negb (is_element n)) skipped = true ->
  is_element inner_root = true ->
  ds_ids_dump_component component_id doc filename
  = ([SaveFileEnc filename inner_root "utf-8"], Ret tt).
Proof.
  intros Hch Hb Hc Hid Hkids Hs Hi. unfold ds_ids_dump_component.
  rewrite Hch, (find_component_first component_id before component after Hb Hc Hid).
  unfold lift, mbind, M_bind, bind. cbv beta iota.
  assert (node_get_child_element component None = Some inner_root) as ->; [|done].
  unfold node_get_child_element. rewrite first_child_element_find. apply find_first.
  exists skipped, rest. split; [done|]. unfold child_matches. rewrite Hi. split; [done|].
  clear -Hs. induction skipped as [|n l IH]; simpl in *; [done|].
  apply andb_true_iff in Hs as [Hn Hl]. by rewrite andb_true_r, Hn, IH.
Qed.

Lemma dump_component_takes_first_witness :
  ds_ids_dump_component "c1" MoreExamples.doc_duplicates "out/c1.xml"
  = ([SaveFileEnc "out/c1.xml" (Examples.payload "one") "utf-8"], Ret tt).
Proof.
  apply (dump_component_takes_first "c1" MoreExamples.doc_duplicates "out/c1.xml"
           [XOther " "; Examples.component "c0" [Examples.payload "zero"]]
           [Examples.component "c1" [Examples.payload "again"];
            Examples.datastream "ds1" [Examples.container "checklists" [Examples.ref1]]]
           [XOther " "] [Examples.payload "extra"]
           (Examples.component "c1"
              [XOther " "; Examples.payload "one"; Examples.payload "extra"])
           (Examples.payload "one"));
    reflexivity.
Defined.

(** X7.  Whatever the document, [ds_ids_dump_component] performs at most
    one call that leaves the program, and it is an error report or the
    write of one file: the file is [filename], the encoding [utf-8], and
    the tree written is the first element child of a [component] child of
    the root that has the id asked for.  It makes no directory and writes
    nowhere else. *)
Theorem dump_component_events (component_id : string) (doc : xmlDoc) (filename : string) :
  length (trace (ds_ids_dump_component component_id doc filename)) <= 1
  /\ forall e,
       e ∈ trace (ds_ids_dump_component component_id doc filename) ->
       (exists msg, e = Seterr OSCAP_EFAMILY_XML 0 msg)
       \/ (exists component inner_root,
             e = SaveFileEnc filename inner_root "utf-8"
             /\ component ∈ node_children (xmlDocGetRootElement doc)
             /\ is_named_element component "component" = true
             /\ xmlGetProp component "id" = Some component_id
             /\ node_get_child_element component None = Some inner_root).
Proof.
  unfold ds_ids_dump_component.
  destruct (find_component _ _) as [[c|]| |] eqn:Hfind; unfold lift; simpl.
  - apply find_component_found in Hfind as (Hin & Hc & Hid).
    destruct (node_get_child_element c None) as [p|] eqn:Hp; simpl.
    + split; [lia|]. intros e ->%list_elem_of_singleton. right. by exists c, p.
    + split; [lia|]. intros e ->%list_elem_of_singleton. left. by eexists.
  - split; [lia|].
    intros e ->%list_elem_of_singleton. left. by eexists.
  - split; [simpl; lia|]. by intros e ?%elem_of_nil.
  - split; [simpl; lia|]. by intros e ?%elem_of_nil.
Qed.

(** ** [mkdir_p] *)

Lemma get_cut i s c :
  String.get i s = Some c ->
  s = String.substring 0 i s +:+ String c (str_offset (S i) s).
Proof.
  revert s. induction i as [|i IH]; intros [|x s]; simpl; try done.
  - by intros [= ->].
  - intros H. rewrite string_app_cons. f_equal. by apply IH.
Qed.

Lemma substring_all s : String.substring 0 (String.length s) s = s.
Proof. induction s as [|x s IH]; simpl; [done|]. by rewrite IH. Qed.

Lemma get_end s : String.get (String.length s) s = None.
Proof. induction s as [|x s IH]; simpl; done. Qed.

Lemma get_in_range i s c : String.get i s = Some c -> i < String.length s.
Proof.
  revert s. induction i as [|i IH]; intros [|x s]; simpl; try done; [lia|].
  intros ?%IH. lia.
Qed.

Lemma get_none_length i s : String.get i s = None -> String.length s <= i.
Proof.
  revert s. induction i as [|i IH]; intros [|x s]; simpl; try done; [lia|].
  intros ?%IH. lia.
Qed.

Lemma get_after_prefix d c r :
  String.get (String.length d) (d +:+ String c r) = Some c
  /\ String.substring 0 (String.length d) (d +:+ String c r) = d.
Proof.
  induction d as [|x d [IH1 IH2]]; [done|].
  rewrite string_app_cons. simpl. by rewrite IH1, IH2.
Qed.

Lemma string_app_nil_r (s : string) : s +:+ EmptyString = s.
Proof. induction s as [|x s IH]; [done|]. by rewrite string_app_cons, IH. Qed.

Lemma mkdir_p_step_elem path i e :
  e ∈ mkdir_p_step path i ->
  e = Mkdir (String.substring 0 i path)
  /\ (String.get i path = Some "/"%char \/ String.get i path = None).
Proof.
  unfold mkdir_p_step. destruct (String.get i path) as [c|] eqn:Hc.
  - unfold is_slash. destruct (Ascii.eqb c "/") eqn:E; [|by intros ?%elem_of_nil].
    apply Ascii.eqb_eq in E as ->. intros ->%list_elem_of_singleton. split; [done|by left].
  - intros ->%list_elem_of_singleton. split; [done|by right].
Qed.

Lemma mkdir_p_last (path : string) :
  (strlen path <= MAXPATHLEN)%Z ->
  exists dirs, mkdir_p path = (dirs ++ [Mkdir path], Ret 0%Z).
Proof.
  intros Hlen. unfold mkdir_p.
  destruct (MAXPATHLEN <? strlen path)%Z eqn:E; [apply Z.ltb_lt in E; lia|].
  rewrite seq_S, flat_map_app. simpl. rewrite app_nil_r.
  unfold mkdir_p_step at 2. rewrite get_end, substring_all. by eexists.
Qed.

(** X8.  For a path of at most [MAXPATHLEN] characters [mkdir_p] returns 0
    and calls [mkdir], and nothing else, on exactly the prefixes of the
    path that end before a ['/'] or at the end of the path; the last call
    is on the whole path.  (For a path that starts with ['/'] the empty
    prefix is among them.) *)
Theorem mkdir_p_makes_the_prefixes (path : string) :
  (strlen path <= MAXPATHLEN)%Z ->
  result (mkdir_p path) = Ret 0%Z
  /\ (forall e, e ∈ trace (mkdir_p path) -> exists d, e = Mkdir d)
  /\ (forall d,
        Mkdir d ∈ trace (mkdir_p path) <->
        exists rest, path = d +:+ rest /\ (rest = EmptyString \/ exists r, rest = String "/" r))
  /\ last (trace (mkdir_p path)) = Some (Mkdir path).
Proof.
  intros Hlen. unfold mkdir_p.
  destruct (MAXPATHLEN <? strlen path)%Z eqn:E; [apply Z.ltb_lt in E; lia|].
  unfold result, trace, fst, snd. split; [done|]. split; [|split].
  - intros e (i & _ & [-> _]%list_elem_of_In%mkdir_p_step_elem)%list_elem_of_In%in_flat_map.
    by eexists.
  - intros d. split.
    + intros (i & Hi & He%list_elem_of_In)%list_elem_of_In%in_flat_map.
      apply mkdir_p_step_elem in He as [[= ->] Hget].
      destruct Hget as [Hget|Hget].
      * exists (String "/" (str_offset (S i) path)). split; [by apply get_cut|].
        right. by eexists.
      * exists EmptyString. split; [|by left]. rewrite string_app_nil_r.
        apply in_seq in Hi. apply get_none_length in Hget.
        assert (i = String.length path) as -> by lia. symmetry. apply substring_all.
    + intros (rest & -> & Hrest). apply list_elem_of_In, in_flat_map.
      exists (String.length d). split.
      * apply in_seq. rewrite string_length_app. lia.
      * apply list_elem_of_In. unfold mkdir_p_step. destruct Hrest as [->|[r ->]].
        -- rewrite string_app_nil_r, get_end, substring_all. apply list_elem_of_here.
        -- destruct (get_after_prefix d "/" r) as [-> ->]. apply list_elem_of_here.
  - destruct (mkdir_p_last path Hlen) as [dirs Hdirs]. unfold mkdir_p in Hdirs.
    rewrite E in Hdirs. apply (f_equal fst) in Hdirs. cbn [fst] in Hdirs.
    rewrite Hdirs. apply last_snoc.
Qed.

Lemma mkdir_p_makes_the_prefixes_witness :
  result (mkdir_p "/a/b") = Ret 0%Z
  /\ (forall e, e ∈ trace (mkdir_p "/a/b") -> exists d, e = Mkdir d)
  /\ (forall d,
        Mkdir d ∈ trace (mkdir_p "/a/b") <->
        exists rest, "/a/b" = d +:+ rest /\ (rest = EmptyString \/ exists r, rest = String "/" r))
  /\ last (trace (mkdir_p "/a/b")) = Some (Mkdir "/a/b").
Proof. apply (mkdir_p_makes_the_prefixes "/a/b"). vm_compute. discriminate. Defined.

(** ** [ds_ids_dump_component_ref_as]: directories, file names, catalog entries *)

(** X9.  The result of [mkdir_p] is not looked at.  When the directory
    of the file is longer than [MAXPATHLEN], [mkdir_p] makes nothing, and
    [ds_ids_dump_component_ref_as] still goes on to write the file there:
    the write is the first event of the run, then comes the catalog. *)
Theorem dump_component_ref_as_long_directory (fuel : nat) (component_ref : xmlNode)
    (doc : xmlDoc) (datastream : xmlNode) (target_dir filename : string) (payload : xmlNode) :
  has_id component_ref = true ->
  resolved_payload doc component_ref = Some payload ->
  (MAXPATHLEN < strlen (destination_dir target_dir filename))%Z ->
  mkdir_p (destination_dir target_dir filename) = ([], Ret 1%Z)
  /\ exists catalog_run : M unit,
       ds_ids_dump_component_ref_as (S fuel) component_ref doc datastream target_dir filename
       = (SaveFileEnc (destination target_dir filename) payload "utf-8" :: trace catalog_run,
          result catalog_run)
       /\ catalog_run =
          match node_get_child_element component_ref (Some "catalog") with
          | None => mret tt
          | Some catalog =>
              for_each (node_children catalog)
                (dump_catalog_entry
                   (fun r dir name =>
                      ds_ids_dump_component_ref_as fuel r doc datastream dir name)
                   doc datastream (destination_dir target_dir filename))
          end.
Proof.
  intros Hid Hp Hlong.
  assert (mkdir_p (destination_dir target_dir filename) = ([], Ret 1%Z)) as Hm.
  { unfold mkdir_p. apply Z.ltb_lt in Hlong. by rewrite Hlong. }
  split; [done|]. rewrite dump_component_ref_as_unfold.
  destruct (body_run
              (fun r dir name => ds_ids_dump_component_ref_as fuel r doc datastream dir name)
              component_ref doc datastream target_dir filename payload Hid Hp)
    as (catalog_run & Hrun & Hcat).
  exists catalog_run. split; [|done]. by rewrite Hrun, Hm.
Qed.

Lemma dump_component_ref_as_long_directory_witness :
  mkdir_p (destination_dir MoreExamples.long_dir "c1") = ([], Ret 1%Z)
  /\ exists catalog_run : M unit,
       ds_ids_dump_component_ref_as 1 Examples.ref1 MoreExamples.doc_two_datastreams
         MoreExamples.ds_first MoreExamples.long_dir "c1"
       = (SaveFileEnc (destination MoreExamples.long_dir "c1") (Examples.payload "one")
            "utf-8" :: trace catalog_run,
          result catalog_run)
       /\ catalog_run =
          match node_get_child_element Examples.ref1 (Some "catalog") with
          | None => mret tt
          | Some catalog =>
              for_each (node_children catalog)
                (dump_catalog_entry
                   (fun r dir name =>
                      ds_ids_dump_component_ref_as 0 r MoreExamples.doc_two_datastreams
                        MoreExamples.ds_first dir name)
                   MoreExamples.doc_two_datastreams MoreExamples.ds_first
                   (destination_dir MoreExamples.long_dir "c1"))
          end.
Proof.
  apply (dump_component_ref_as_long_directory 0 Examples.ref1
           MoreExamples.doc_two_datastreams MoreExamples.ds_first MoreExamples.long_dir "c1"
           (Examples.payload "one")); [reflexivity|reflexivity|].
  vm_compute. reflexivity.
Defined.

(** X10.  When the directory of the file is at most [MAXPATHLEN]
    characters long, [ds_ids_dump_component_ref_as] makes it, after its
    ancestors, right before it writes the file: the run is a series of
    [mkdir] calls that ends with the directory of the file, then the write
    of the payload, then the catalog. *)
Theorem directory_is_made_before_file (fuel : nat) (component_ref : xmlNode)
    (doc : xmlDoc) (datastream : xmlNode) (target_dir filename : string) (payload : xmlNode) :
  has_id component_ref = true ->
  resolved_payload doc component_ref = Some payload ->
  (strlen (destination_dir target_dir filename) <= MAXPATHLEN)%Z ->
  exists dirs after,
    trace (ds_ids_dump_component_ref_as (S fuel) component_ref doc datastream
             target_dir filename)
    = map Mkdir dirs
      ++ [Mkdir (destination_dir target_dir filename);
          SaveFileEnc (destination target_dir filename) payload "utf-8"]
      ++ after.
Proof.
  intros Hid Hp Hlen. rewrite dump_component_ref_as_unfold.
  destruct (body_run
              (fun r dir name => ds_ids_dump_component_ref_as fuel r doc datastream dir name)
              component_ref doc datastream target_dir filename payload Hid Hp)
    as (catalog_run & -> & _).
  destruct (mkdir_p_last _ Hlen) as [events Hm].
  assert (exists dirs, events = map Mkdir dirs) as [dirs ->].
  { assert (forall e, e ∈ events -> exists d, e = Mkdir d) as Hall.
    { intros e He. apply (mkdir_p_trace_elem (destination_dir target_dir filename)).
      rewrite Hm. apply elem_of_app. by left. }
    clear Hm. induction events as [|e l IH]; [by exists []|].
    destruct (Hall e (list_elem_of_here _ _)) as [d ->].
    destruct IH as [ds ->]. { intros x Hx. apply Hall. by apply list_elem_of_further. }
    by exists (d :: ds). }
  exists dirs, (trace catalog_run). rewrite Hm. unfold trace. cbn [fst].
  by rewrite <- app_assoc.
Qed.

Lemma directory_is_made_before_file_witness :
  exists dirs after,
    trace (ds_ids_dump_component_ref_as 1 Examples.ref1 MoreExamples.doc_two_datastreams
             MoreExamples.ds_first "out" "x/c1.xml")
    = map Mkdir dirs
      ++ [Mkdir (destination_dir "out" "x/c1.xml");
          SaveFileEnc (destination "out" "x/c1.xml") (Examples.payload "one") "utf-8"]
      ++ after.
Proof.
  apply (directory_is_made_before_file 0 Examples.ref1 MoreExamples.doc_two_datastreams
           MoreExamples.ds_first "out" "x/c1.xml" (Examples.payload "one"));
    [reflexivity|reflexivity|].
  vm_compute. discriminate.
Defined.

(** X11.  Where the file of a ref goes.  A ref that has its [id] and
    resolves to a payload is written, when dumped as [filename] under
    [target_dir], to [target_dir/dirname(./filename)/basename(filename)];
    as the file system resolves it this is [target_dir] followed by
    [filename]: the components of the path are those of [target_dir] and
    then those of [filename], all of them, so that a [..] in the file name
    is kept. *)
Theorem dump_component_ref_as_file_location (fuel : nat) (component_ref : xmlNode)
    (doc : xmlDoc) (datastream : xmlNode) (target_dir filename : string) (payload : xmlNode) :
  has_id component_ref = true ->
  resolved_payload doc component_ref = Some payload ->
  (destination target_dir filename, payload)
  ∈ saved (trace (ds_ids_dump_component_ref_as (S fuel) component_ref doc datastream
                    target_dir filename))
  /\ path_components (destination target_dir filename)
     = path_components target_dir ++ path_components filename.
Proof.
  intros Hid Hp. split.
  - rewrite dump_component_ref_as_unfold. by apply body_saves_own_file.
  - unfold destination. by rewrite path_components_app, dirname_basename_components.
Qed.

Lemma dump_component_ref_as_file_location_witness :
  (destination "out" "../x//c1.xml", Examples.payload "one")
  ∈ saved (trace (ds_ids_dump_component_ref_as 1 Examples.ref1
                    MoreExamples.doc_two_datastreams MoreExamples.ds_first
                    "out" "../x//c1.xml"))
  /\ path_components (destination "out" "../x//c1.xml")
     = path_components "out" ++ path_components "../x//c1.xml".
Proof.
  apply (dump_component_ref_as_file_location 0 Examples.ref1
           MoreExamples.doc_two_datastreams MoreExamples.ds_first "out" "../x//c1.xml"
           (Examples.payload "one")); reflexivity.
Defined.

(** X12.  Of the [href] of a component-ref only what follows the first
    character is used, and of its [id] only whether it is there: the first
    character of the [href] is not checked to be [#], and the value of the
    [id] is not used.  Two refs that agree on the rest of the [href], on
    having an [id] and on their catalog are dumped in the same way. *)
Theorem href_first_character_is_dropped (fuel : nat) (ref1 ref2 : xmlNode) (doc : xmlDoc)
    (datastream : xmlNode) (target_dir : string) (c1 c2 : ascii) (rest : string) :
  xmlGetProp ref1 "href" = Some (String c1 rest) ->
  xmlGetProp ref2 "href" = Some (String c2 rest) ->
  has_id ref1 = has_id ref2 ->
  node_get_child_element ref1 (Some "catalog") = node_get_child_element ref2 (Some "catalog") ->
  ds_ids_dump_component_ref fuel ref1 doc datastream target_dir
  = ds_ids_dump_component_ref fuel ref2 doc datastream target_dir.
Proof.
  intros H1 H2 Hid Hcat. unfold ds_ids_dump_component_ref. rewrite H1, H2.
  assert (null_or_short (Some (String c1 rest)) = null_or_short (Some (String c2 rest)))
    as <- by reflexivity.
  destruct (null_or_short (Some (String c1 rest))) eqn:Hshort; [done|].
  destruct fuel as [|fuel]; [done|].
  rewrite !dump_component_ref_as_unfold. unfold dump_component_ref_body.
  rewrite H1, H2, Hshort, <- Hcat.
  assert (null_or_short (Some (String c2 rest)) = false) as -> by exact Hshort.
  unfold has_id in Hid.
  destruct (xmlGetProp ref1 "id"), (xmlGetProp ref2 "id"); done.
Qed.

Lemma href_first_character_is_dropped_witness :
  ds_ids_dump_component_ref 2 Examples.ref1 MoreExamples.doc_two_datastreams
    MoreExamples.ds_first "out"
  = ds_ids_dump_component_ref 2 MoreExamples.ref_odd_href MoreExamples.doc_two_datastreams
      MoreExamples.ds_first "out".
Proof.
  apply (href_first_character_is_dropped 2 Examples.ref1 MoreExamples.ref_odd_href
           MoreExamples.doc_two_datastreams MoreExamples.ds_first "out" "#" "X" "c1");
    reflexivity.
Defined.

(** X13.  A [uri] entry of a catalog that has no [name], or whose [uri]
    is absent or shorter than two characters, is reported and skipped: the
    entries before it are processed, then comes the one error, then the
    entries after it are processed.  The [name] is checked first. *)
Theorem faulty_catalog_entry_is_skipped (fuel : nat) (component_ref : xmlNode) (doc : xmlDoc)
    (datastream : xmlNode) (target_dir filename : string)
    (catalog uri : xmlNode) (before after : list xmlNode) :
  has_id component_ref = true ->
  null_or_short (xmlGetProp component_ref "href") = false ->
  node_get_child_element component_ref (Some "catalog") = Some catalog ->
  node_children catalog = before ++ uri :: after ->
  is_named_element uri "uri" = true ->
  xmlGetProp uri "name" = None \/ null_or_short (xmlGetProp uri "uri") = true ->
  let entry :=
    dump_catalog_entry
      (fun r dir name => ds_ids_dump_component_ref_as fuel r doc datastream dir name)
      doc datastream (destination_dir target_dir filename) in
  ds_ids_dump_component_ref_as (S fuel) component_ref doc datastream target_dir filename
  = (mkdir_p (destination_dir target_dir filename);;
     ds_ids_dump_component (href_filename component_ref) doc
       (destination target_dir filename);;
     for_each before entry;;
     oscap_seterr OSCAP_EFAMILY_XML 0
       match xmlGetProp uri "name" with
       | None => "No or invalid name for a component referenced in the catalog. Skipping..."
       | Some _ => "No or invalid URI for a component referenced in the catalog. Skipping..."
       end;;
     for_each after entry).
Proof.
  intros Hid Hh Hcat Hch Huri Hfaulty entry.
  rewrite dump_component_ref_as_unfold. unfold dump_component_ref_body.
  unfold has_id in Hid. destruct (xmlGetProp component_ref "id"); [|done].
  rewrite Hh, Hcat, Hch.
  fold (destination_dir target_dir filename). fold (destination target_dir filename).
  fold (href_filename component_ref). fold entry.
  rewrite for_each_app. cbn [for_each].
  assert (entry uri
          = oscap_seterr OSCAP_EFAMILY_XML 0
              match xmlGetProp uri "name" with
              | None =>
                  "No or invalid name for a component referenced in the catalog. Skipping..."
              | Some _ =>
                  "No or invalid URI for a component referenced in the catalog. Skipping..."
              end) as ->; [|done].
  unfold entry, dump_catalog_entry. unfold is_named_element in Huri.
  apply andb_true_iff in Huri as [-> ->]. simpl.
  destruct (xmlGetProp uri "name") as [name|]; [|done].
  destruct Hfaulty as [? | ->]; done.
Qed.

Lemma faulty_catalog_entry_is_skipped_witness :
  let entry :=
    dump_catalog_entry
      (fun r dir name =>
         ds_ids_dump_component_ref_as 1 r MoreExamples.doc_faulty_catalog
           MoreExamples.ds_faulty_catalog dir name)
      MoreExamples.doc_faulty_catalog MoreExamples.ds_faulty_catalog
      (destination_dir "out" "c1") in
  ds_ids_dump_component_ref_as 2 MoreExamples.ref_faulty_catalog
    MoreExamples.doc_faulty_catalog MoreExamples.ds_faulty_catalog "out" "c1"
  = (mkdir_p (destination_dir "out" "c1");;
     ds_ids_dump_component (href_filename MoreExamples.ref_faulty_catalog)
       MoreExamples.doc_faulty_catalog (destination "out" "c1");;
     for_each [] entry;;
     oscap_seterr OSCAP_EFAMILY_XML 0
       match xmlGetProp MoreExamples.uri_without_name "name" with
       | None => "No or invalid name for a component referenced in the catalog. Skipping..."
       | Some _ => "No or invalid URI for a component referenced in the catalog. Skipping..."
       end;;
     for_each [Examples.uri "two.xml" "#r2"] entry).
Proof.
  apply (faulty_catalog_entry_is_skipped 1 MoreExamples.ref_faulty_catalog
           MoreExamples.doc_faulty_catalog MoreExamples.ds_faulty_catalog "out" "c1"
           (Examples.catalog [MoreExamples.uri_without_name; Examples.uri "two.xml" "#r2"])
           MoreExamples.uri_without_name [] [Examples.uri "two.xml" "#r2"]);
    try reflexivity.
  by left.
Defined.

(** X14.  A [uri] entry of a catalog that has its [name] and a [uri] of
    two characters or more, and whose [uri] names no component-ref of the
    datastream, is reported and skipped: the entries before it are
    processed, then the error is set, then the entries after it are
    processed.  The message of the error is formatted from the [uri]
    string after it was freed, so what it says is not determined; nothing
    is written for the entry. *)
Theorem dangling_catalog_entry_is_reported (fuel : nat) (component_ref : xmlNode)
    (doc : xmlDoc) (datastream : xmlNode) (target_dir filename name : string)
    (catalog uri : xmlNode) (before after : list xmlNode) :
  has_id component_ref = true ->
  null_or_short (xmlGetProp component_ref "href") = false ->
  node_get_child_element component_ref (Some "catalog") = Some catalog ->
  node_children catalog = before ++ uri :: after ->
  is_named_element uri "uri" = true ->
  xmlGetProp uri "name" = Some name ->
  null_or_short (xmlGetProp uri "uri") = false ->
  ds_ids_find_component_ref doc datastream
    (str_next (default EmptyString (xmlGetProp uri "uri"))) = Ret None ->
  let entry :=
    dump_catalog_entry
      (fun r dir name => ds_ids_dump_component_ref_as fuel r doc datastream dir name)
      doc datastream (destination_dir target_dir filename) in
  ds_ids_dump_component_ref_as (S fuel) component_ref doc datastream target_dir filename
  = (mkdir_p (destination_dir target_dir filename);;
     ds_ids_dump_component (href_filename component_ref) doc
       (destination target_dir filename);;
     for_each before entry;;
     oscap_seterr_freed OSCAP_EFAMILY_XML 0
       "component-ref with given id '%s' wasn't found in the document!"
       (str_next (default EmptyString (xmlGetProp uri "uri")));;
     for_each after entry).
Proof.
  intros Hid Hh Hcat Hch Huri Hname Hlong Hfind entry.
  rewrite dump_component_ref_as_unfold. unfold dump_component_ref_body.
  unfold has_id in Hid. destruct (xmlGetProp component_ref "id"); [|done].
  rewrite Hh, Hcat, Hch.
  fold (destination_dir target_dir filename). fold (destination target_dir filename).
  fold (href_filename component_ref). fold entry.
  rewrite for_each_app. cbn [for_each].
  assert (entry uri
          = oscap_seterr_freed OSCAP_EFAMILY_XML 0
              "component-ref with given id '%s' wasn't found in the document!"
              (str_next (default EmptyString (xmlGetProp uri "uri")))) as ->; [|done].
  unfold entry, dump_catalog_entry. unfold is_named_element in Huri.
  apply andb_true_iff in Huri as [-> ->]. simpl.
  by rewrite Hname, Hlong, Hfind.
Qed.

Lemma dangling_catalog_entry_is_reported_witness :
  let entry :=
    dump_catalog_entry
      (fun r dir name =>
         ds_ids_dump_component_ref_as 1 r Examples.doc_dangling Examples.ds_dangling dir name)
      Examples.doc_dangling Examples.ds_dangling (destination_dir "out" "c1") in
  ds_ids_dump_component_ref_as 2 Examples.ref_dangling Examples.doc_dangling
    Examples.ds_dangling "out" "c1"
  = (mkdir_p (destination_dir "out" "c1");;
     ds_ids_dump_component (href_filename Examples.ref_dangling) Examples.doc_dangling
       (destination "out" "c1");;
     for_each [] entry;;
     oscap_seterr_freed OSCAP_EFAMILY_XML 0
       "component-ref with given id '%s' wasn't found in the document!"
       (str_next (default EmptyString (xmlGetProp (Examples.uri "x.xml" "#nowhere") "uri")));;
     for_each [] entry).
Proof.
  apply (dangling_catalog_entry_is_reported 1 Examples.ref_dangling Examples.doc_dangling
           Examples.ds_dangling "out" "c1" "x.xml"
           (Examples.catalog [Examples.uri "x.xml" "#nowhere"])
           (Examples.uri "x.xml" "#nowhere") [] []);
    reflexivity.
Defined.

(** ** What a decomposition can write *)

Lemma body_saved_at self component_ref doc datastream target_dir filename path root enc :
  SaveFileEnc path root enc
  ∈ trace (dump_component_ref_body self component_ref doc datastream target_dir filename) ->
  (path = destination target_dir filename /\ enc = "utf-8"
   /\ resolved_payload doc component_ref = Some root)
  \/ exists target name,
       catalog_edge doc datastream component_ref target
       /\ SaveFileEnc path root enc
          ∈ trace (self target (destination_dir target_dir filename) name).
Proof.
  unfold dump_component_ref_body, resolved_payload.
  destruct (xmlGetProp component_ref "id") as [cref_id|] eqn:Hid;
    [|by intros [=]%list_elem_of_singleton].
  destruct (null_or_short (xmlGetProp component_ref "href")) eqn:Hh;
    [by intros [=]%list_elem_of_singleton|].
  intros [H|(_ & _ & H)]%trace_bind_elem.
  { by apply mkdir_p_trace_elem in H as [d [=]]. }
  apply trace_bind_elem in H as [H|(_ & _ & H)].
  - left. revert H. unfold ds_ids_dump_component.
    destruct (find_component _ _) as [[component|]| |]; simpl;
      try by intros ?%elem_of_nil.
    + destruct (node_get_child_element component None) as [inner_root|]; simpl.
      * by intros [= -> -> ->]%list_elem_of_singleton.
      * by intros [=]%list_elem_of_singleton.
    + by intros [=]%list_elem_of_singleton.
  - right.
    destruct (node_get_child_element component_ref (Some "catalog")) as [catalog|] eqn:Hc;
      [|by apply elem_of_nil in H].
    apply for_each_trace_elem in H as (uri & Huri & H).
    apply entry_saved in H as (target & name & Ht & H).
    exists target, name. split; [|done]. unfold catalog_edge.
    rewrite (catalog_targets_checked _ _ _ _ Hid Hh), Hc.
    apply list_elem_of_omap. eauto.
Qed.

Lemma dump_component_ref_as_saved_at fuel component_ref doc datastream target_dir filename
    path root enc :
  SaveFileEnc path root enc
  ∈ trace (ds_ids_dump_component_ref_as fuel component_ref doc datastream
             target_dir filename) ->
  starts_with (target_dir +:+ "/") path /\ enc = "utf-8"
  /\ exists r, rtc (catalog_edge doc datastream) component_ref r
               /\ resolved_payload doc r = Some root.
Proof.
  revert component_ref target_dir filename.
  induction fuel as [|fuel IH]; intros component_ref target_dir filename;
    [by intros ?%elem_of_nil|].
  rewrite dump_component_ref_as_unfold.
  intros [(-> & -> & Hp)|(target & name & He & H)]%body_saved_at.
  - split; [|split; [done|]].
    + exists (dirname ("./" +:+ filename) +:+ "/" +:+ basename filename).
      unfold destination. by rewrite string_app_assoc.
    + exists component_ref. split; [apply rtc_refl|done].
  - destruct (IH _ _ _ H) as (Hpre & Henc & r & Hr & Hp).
    split; [|split; [done|]].
    + destruct Hpre as [rest ->].
      exists (dirname ("./" +:+ filename) +:+ "/" +:+ rest).
      unfold destination_dir. by rewrite !string_app_assoc.
    + exists r. split; [|done]. by eapply rtc_l.
Qed.

(** X15.  What [ds_ids_decompose] can write.  Every file it writes is
    written as [utf-8], at a path that begins with the target directory
    ([.] when that is empty) and a slash, and holds the payload some
    component-ref resolves to: a component-ref of the [checklists] of the
    selected datastream, or one that the catalogs lead to from there.
    Nothing else of the document reaches a file. *)
Theorem decompose_files_sound (xmlReadFile : string -> xmlDoc + option Z)
    (fuel : nat) (input_file : string) (id : option string) (target_dir : string)
    (path : string) (root : xmlNode) (encoding : string) :
  SaveFileEnc path root encoding
  ∈ trace (ds_ids_decompose xmlReadFile fuel input_file id target_dir) ->
  starts_with (effective_target_dir target_dir +:+ "/") path
  /\ encoding = "utf-8"
  /\ exists doc datastream checklist_ref component_ref,
       xmlReadFile input_file = inl doc
       /\ select_datastream (node_children (xmlDocGetRootElement doc)) id = Some datastream
       /\ checklist_ref ∈ container_refs datastream "checklists"
       /\ rtc (catalog_edge doc datastream) checklist_ref component_ref
       /\ resolved_payload doc component_ref = Some root.
Proof.
  unfold ds_ids_decompose.
  destruct (xmlReadFile input_file) as [doc|e] eqn:Hread;
    [|by intros [=]%list_elem_of_singleton].
  destruct (select_datastream _ id) as [datastream|] eqn:Hsel;
    [|by intros [=]%list_elem_of_singleton].
  destruct (node_get_child_element datastream (Some "checklists")) as [checklists|] eqn:Hcl;
    [|by intros [=]%list_elem_of_singleton].
  rewrite dump_checklists_refs.
  intros (r0 & Hr0 & H)%for_each_trace_elem.
  unfold ds_ids_dump_component_ref in H.
  destruct (null_or_short _); [by apply list_elem_of_singleton in H|].
  apply dump_component_ref_as_saved_at in H as (Hpre & Henc & r & Hr & Hp).
  split; [done|]. split; [done|].
  exists doc, datastream, r0, r. unfold container_refs. by rewrite Hcl.
Qed.

Lemma decompose_files_sound_witness :
  starts_with (effective_target_dir "out" +:+ "/") "out/./a/./sub/q.xml"
  /\ "utf-8" = "utf-8"
  /\ exists doc datastream checklist_ref component_ref,
       Examples.read Examples.doc_nested "in.xml" = inl doc
       /\ select_datastream (node_children (xmlDocGetRootElement doc)) (Some "ds1")
          = Some datastream
       /\ checklist_ref ∈ container_refs datastream "checklists"
       /\ rtc (catalog_edge doc datastream) checklist_ref component_ref
       /\ resolved_payload doc component_ref = Some (Examples.payload "Q").
Proof.
  apply (decompose_files_sound (Examples.read Examples.doc_nested) 3 "in.xml" (Some "ds1")
           "out" "out/./a/./sub/q.xml" (Examples.payload "Q") "utf-8").
  apply list_elem_of_In. vm_compute. repeat (first [left; reflexivity | right]).
Defined.

(** ** [ds_ids_find_component_ref] *)

Lemma find_component_ref_in_found l id r :
  find_component_ref_in l id = Ret (Some r) ->
  r ∈ l /\ is_named_element r "component-ref" = true /\ xmlGetProp r "id" = Some id.
Proof.
  induction l as [|n l IH]; simpl; [done|].
  assert (find_component_ref_in l id = Ret (Some r) ->
          r ∈ n :: l /\ is_named_element r "component-ref" = true
          /\ xmlGetProp r "id" = Some id) as IH'.
  { intros (? & ? & ?)%IH. split; [by apply list_elem_of_further|done]. }
  destruct (is_element n) eqn:He; simpl; [|done].
  destruct (streq (node_name n) "component-ref") eqn:Hn; simpl; [|done].
  destruct (xmlGetProp n "id") as [v|] eqn:Hid; [|done].
  destruct (streq v id) eqn:Hv; [|done].
  intros [= <-]. apply streq_true in Hv as ->.
  split; [apply list_elem_of_here|]. unfold is_named_element. by rewrite He, Hn.
Qed.

Lemma scan_ids_none l id :
  scan_ids l id = Ret None ->
  forall r, r ∈ l -> exists v, xmlGetProp r "id" = Some v /\ v <> id.
Proof.
  induction l as [|n l IH]; simpl; [by intros _ r ?%elem_of_nil|].
  destruct (xmlGetProp n "id") as [v|] eqn:Hid; [|done].
  destruct (streq v id) eqn:Hv; [done|].
  intros H r [->|Hr]%elem_of_cons; [|by apply IH].
  exists v. split; [done|]. intros ->. unfold streq in Hv. by rewrite String.eqb_refl in Hv.
Qed.

(** X16.  What [ds_ids_find_component_ref] returns.  A node it returns
    is a [component-ref] element whose [id] is the one asked for, and it
    is a child of an element child of the datastream: refs that sit deeper
    or directly under the datastream are not found, and the name of the
    container does not matter.  When it returns [NULL], every
    component-ref it scans has an [id], and another one. *)
Theorem find_component_ref_sound (doc : xmlDoc) (datastream : xmlNode) (id : string) :
  (forall component_ref,
     ds_ids_find_component_ref doc datastream id = Ret (Some component_ref) ->
     exists cref_parent,
       cref_parent ∈ node_children datastream
       /\ is_element cref_parent = true
       /\ component_ref ∈ node_children cref_parent
       /\ is_named_element component_ref "component-ref" = true
       /\ xmlGetProp component_ref "id" = Some id)
  /\ (ds_ids_find_component_ref doc datastream id = Ret None ->
      forall component_ref,
        component_ref ∈ scanned_component_refs datastream ->
        exists v, xmlGetProp component_ref "id" = Some v /\ v <> id).
Proof.
  split.
  - intros r. unfold ds_ids_find_component_ref.
    induction (node_children datastream) as [|p l IH]; simpl; [done|].
    assert (find_component_ref_under l id = Ret (Some r) ->
            exists cref_parent,
              cref_parent ∈ p :: l /\ is_element cref_parent = true
              /\ r ∈ node_children cref_parent
              /\ is_named_element r "component-ref" = true
              /\ xmlGetProp r "id" = Some id) as IH'.
    { intros (q & Hq & H)%IH. exists q. split; [by apply list_elem_of_further|done]. }
    destruct (is_element p) eqn:He; simpl; [|done].
    destruct (find_component_ref_in (node_children p) id) as [[r'|]| |] eqn:Hin;
      [|done|done|done].
    intros [= ->]. apply find_component_ref_in_found in Hin as (Hr & Hn & Hid).
    exists p. split; [apply list_elem_of_here|done].
  - rewrite find_component_ref_scan. apply scan_ids_none.
Qed.

Lemma find_component_ref_sound_witness :
  exists cref_parent,
    cref_parent ∈ node_children Examples.ds_nested
    /\ is_element cref_parent = true
    /\ Examples.ref_q ∈ node_children cref_parent
    /\ is_named_element Examples.ref_q "component-ref" = true
    /\ xmlGetProp Examples.ref_q "id" = Some "rQ".
Proof.
  exact (proj1 (find_component_ref_sound Examples.doc_nested Examples.ds_nested "rQ")
           Examples.ref_q eq_refl).
Defined.

(** ** [strendswith] *)

(** X17.  For strings whose lengths fit an [int], [strendswith] is the
    suffix test: it holds exactly when [str] is some string followed by
    [suffix].  In particular a suffix longer than the string is refused
    (the negative shift is caught) and the empty suffix is accepted. *)
Theorem strendswith_is_suffix_test (str suffix : string) :
  (Z.of_nat (String.length str) < 2 ^ 31)%Z ->
  (Z.of_nat (String.length suffix) < 2 ^ 31)%Z ->
  (strendswith str suffix = true <-> ends_with str suffix)
  /\ (String.length str < String.length suffix -> strendswith str suffix = false)
  /\ strendswith str EmptyString = true.
Proof.
  intros Hs Hx. split; [by apply strendswith_spec|]. split.
  - intros Hlt. apply not_true_is_false. intros [pre ->]%strendswith_spec; [|done|done].
    rewrite string_length_app in Hlt. lia.
  - apply strendswith_spec; [done|simpl; lia|]. exists str. symmetry.
    apply string_app_nil_r.
Qed.

Lemma strendswith_is_suffix_test_witness :
  (strendswith "a-oval.xml" "-oval.xml" = true <-> ends_with "a-oval.xml" "-oval.xml")
  /\ (String.length "a-oval.xml" < String.length "-oval.xml" ->
      strendswith "a-oval.xml" "-oval.xml" = false)
  /\ strendswith "a-oval.xml" EmptyString = true.
Proof. apply (strendswith_is_suffix_test "a-oval.xml" "-oval.xml"); simpl; lia. Defined.

(** ** [ds_ids_compose_add_component_with_ref] *)

Lemma compose_add_is_add (xmlSearchNsByHref : xmlNode -> string -> option xmlNs)
    (datastream : xmlNode) (filepath cref_id : string) :
  ds_ids_compose_add_component_with_ref xmlSearchNsByHref datastream filepath cref_id
  = add_to_child_element datastream
      (if strendswith filepath "-xccdf.xml" then "checklists"
       else if strendswith filepath "-oval.xml" then "checks"
       else if strendswith filepath "-cpe-oval.xml"
               || strendswith filepath "-cpe-dictionary.xml" then "dictionaries"
       else "extended-components")
      (new_component_ref (xmlSearchNsByHref datastream datastream_ns_uri) filepath cref_id).
Proof.
  unfold ds_ids_compose_add_component_with_ref.
  destruct (strendswith filepath "-xccdf.xml"); [done|].
  destruct (strendswith filepath "-oval.xml"); [done|].
  by destruct (strendswith filepath "-cpe-oval.xml" || strendswith filepath "-cpe-dictionary.xml").
Qed.

Lemma compose_add_container
    (xmlSearchNsByHref : xmlNode -> string -> option xmlNs)
    (datastream : xmlNode) (filepath cref_id : string) :
  exists container,
    container ∈ container_names
    /\ ds_ids_compose_add_component_with_ref xmlSearchNsByHref datastream filepath cref_id
       = add_to_child_element datastream container
           (new_component_ref (xmlSearchNsByHref datastream datastream_ns_uri)
              filepath cref_id).
Proof.
  rewrite compose_add_is_add. unfold container_names.
  destruct (strendswith filepath "-xccdf.xml"); [eexists; split; [|done]; set_solver|].
  destruct (strendswith filepath "-oval.xml"); [eexists; split; [|done]; set_solver|].
  destruct (_ || _); eexists; (split; [|done]); set_solver.
Qed.

Lemma update_first_found ch name f c :
  first_child_element ch (Some name) = Some c ->
  exists before after,
    ch = before ++ c :: after
    /\ forallb (fun x => negb (is_named_element x name)) before = true
    /\ update_first_child_element ch name f = before ++ f c :: after.
Proof.
  induction ch as [|x ch IH]; simpl; [done|].
  destruct (is_named_element x name) eqn:Hx.
  - pose proof Hx as Hx'. unfold is_named_element in Hx'.
    apply andb_true_iff in Hx' as [He Hn]. rewrite He, Hn. simpl.
    intros [= <-]. by exists [], ch.
  - assert (first_child_element ch (Some name) = Some c ->
            exists before after,
              x :: ch = before ++ c :: after
              /\ forallb (fun x => negb (is_named_element x name)) before = true
              /\ x :: update_first_child_element ch name f = before ++ f c :: after)
      as Hstep.
    { intros (before & after & -> & Hb & Hu)%IH.
      exists (x :: before), after. simpl. by rewrite Hx, Hb, Hu. }
    unfold is_named_element in Hx.
    destruct (is_element x); simpl in *; [rewrite Hx; simpl|]; exact Hstep.
Qed.

Lemma update_first_missing ch name f :
  first_child_element ch (Some name) = None ->
  update_first_child_element ch name f = ch.
Proof.
  induction ch as [|x ch IH]; simpl; [done|].
  unfold is_named_element.
  destruct (is_element x); simpl.
  - destruct (streq (node_name x) name); simpl; [done|]. intros ?%IH. by f_equal.
  - intros ?%IH. by f_equal.
Qed.

Lemma add_to_child_element_found parent name cur c :
  node_get_child_element parent (Some name) = Some c ->
  exists before after,
    node_children parent = before ++ c :: after
    /\ forallb (fun x => negb (is_named_element x name)) before = true
    /\ is_named_element c name = true
    /\ node_children (add_to_child_element parent name cur)
       = before ++ xmlAddChild c cur :: after
    /\ node_children (xmlAddChild c cur) = node_children c ++ [cur]
    /\ node_name (add_to_child_element parent name cur) = node_name parent
    /\ node_properties (add_to_child_element parent name cur) = node_properties parent
    /\ is_element (xmlAddChild c cur) = true.
Proof.
  unfold node_get_child_element. intros Hc.
  pose proof Hc as Hm. rewrite first_child_element_find in Hm.
  apply find_first in Hm as (_ & _ & _ & Hm & _).
  destruct parent as [n ns props ch|content]; [|done]. simpl in Hc.
  destruct (update_first_found ch name (fun p => xmlAddChild p cur) c Hc)
    as (before & after & -> & Hb & Hu).
  exists before, after. simpl. rewrite Hu.
  unfold child_matches in Hm. unfold is_named_element.
  destruct c as [cn cns cprops cch|ccontent]; [|done]. done.
Qed.

Lemma add_to_child_element_missing parent name cur :
  node_get_child_element parent (Some name) = None ->
  add_to_child_element parent name cur = parent.
Proof.
  unfold node_get_child_element. destruct parent as [n ns props ch|content]; [|done].
  simpl. intros H. by rewrite update_first_missing.
Qed.

Lemma rev_chars_app (pre suffix : string) :
  rev (list_ascii_of_string (pre +:+ suffix))
  = rev (list_ascii_of_string suffix) ++ rev (list_ascii_of_string pre).
Proof. by rewrite list_ascii_app, rev_app_distr. Qed.

Lemma xccdf_is_not_oval (s : string) :
  ends_with s "-xccdf.xml" -> ends_with s "-oval.xml" -> False.
Proof.
  intros [p1 ->] [p2 H]. apply (f_equal (fun x => rev (list_ascii_of_string x))) in H.
  rewrite !rev_chars_app in H. simpl in H. discriminate H.
Qed.

Lemma dictionary_is_not_xccdf (s : string) :
  ends_with s "-cpe-dictionary.xml" -> ends_with s "-xccdf.xml" -> False.
Proof.
  intros [p1 ->] [p2 H]. apply (f_equal (fun x => rev (list_ascii_of_string x))) in H.
  rewrite !rev_chars_app in H. simpl in H. discriminate H.
Qed.

Lemma dictionary_is_not_oval (s : string) :
  ends_with s "-cpe-dictionary.xml" -> ends_with s "-oval.xml" -> False.
Proof.
  intros [p1 ->] [p2 H]. apply (f_equal (fun x => rev (list_ascii_of_string x))) in H.
  rewrite !rev_chars_app in H. simpl in H. discriminate H.
Qed.

(** X18.  The container a file goes to is decided by the end of its
    path alone, and the four cases exclude each other: [checklists] for
    [-xccdf.xml], [checks] for [-oval.xml] (which takes in
    [-cpe-oval.xml]), [dictionaries] for [-cpe-dictionary.xml] and for
    nothing else, [extended-components] for every other path.  The
    component-ref that is attached has the [id] given, the [href] made of
    [#] and the path, and an empty [catalog]. *)
Theorem compose_add_classification (xmlSearchNsByHref : xmlNode -> string -> option xmlNs)
    (datastream : xmlNode) (filepath cref_id : string) :
  (Z.of_nat (String.length filepath) < 2 ^ 31)%Z ->
  exists container,
    ds_ids_compose_add_component_with_ref xmlSearchNsByHref datastream filepath cref_id
    = add_to_child_element datastream container
        (new_component_ref (xmlSearchNsByHref datastream datastream_ns_uri) filepath cref_id)
    /\ (container = "checklists" <-> ends_with filepath "-xccdf.xml")
    /\ (container = "checks" <-> ends_with filepath "-oval.xml")
    /\ (container = "dictionaries" <-> ends_with filepath "-cpe-dictionary.xml")
    /\ (container = "extended-components" <->
        ~ ends_with filepath "-xccdf.xml" /\ ~ ends_with filepath "-oval.xml"
        /\ ~ ends_with filepath "-cpe-dictionary.xml").
Proof.
  intros Hlen. rewrite compose_add_is_add.
  pose proof (strendswith_spec filepath "-xccdf.xml" Hlen ltac:(simpl; lia)) as Hx.
  pose proof (strendswith_spec filepath "-oval.xml" Hlen ltac:(simpl; lia)) as Ho.
  pose proof (strendswith_spec filepath "-cpe-oval.xml" Hlen ltac:(simpl; lia)) as Hc.
  pose proof (strendswith_spec filepath "-cpe-dictionary.xml" Hlen ltac:(simpl; lia)) as Hd.
  pose proof (cpe_oval_suffix_is_oval_suffix filepath Hlen) as Hco.
  fold (ends_with filepath "-xccdf.xml") in Hx. fold (ends_with filepath "-oval.xml") in Ho.
  fold (ends_with filepath "-cpe-dictionary.xml") in Hd.
  pose proof (xccdf_is_not_oval filepath) as E1.
  pose proof (dictionary_is_not_xccdf filepath) as E2.
  pose proof (dictionary_is_not_oval filepath) as E3.
  destruct (strendswith filepath "-xccdf.xml") eqn:Bx.
  { exists "checklists". split; [done|]. apply proj1 in Hx. specialize (Hx eq_refl).
    repeat split; try done; try tauto; intros; exfalso; tauto. }
  destruct (strendswith filepath "-oval.xml") eqn:Bo.
  { exists "checks". split; [done|]. apply proj1 in Ho. specialize (Ho eq_refl).
    assert (~ ends_with filepath "-xccdf.xml") by (intros ?%Hx; done).
    repeat split; try done; try tauto; intros; exfalso; tauto. }
  assert (~ ends_with filepath "-xccdf.xml") by (intros ?%Hx; done).
  assert (~ ends_with filepath "-oval.xml") by (intros ?%Ho; done).
  destruct (strendswith filepath "-cpe-oval.xml") eqn:Bc; [by specialize (Hco eq_refl)|].
  destruct (strendswith filepath "-cpe-dictionary.xml") eqn:Bd; simpl.
  { exists "dictionaries". split; [done|]. apply proj1 in Hd. specialize (Hd eq_refl).
    repeat split; try done; try tauto; intros; exfalso; tauto. }
  assert (~ ends_with filepath "-cpe-dictionary.xml") by (intros ?%Hd; done).
  exists "extended-components". split; [done|].
  repeat split; try done; try tauto; intros; exfalso; tauto.
Qed.

Lemma compose_add_classification_witness :
  exists container,
    ds_ids_compose_add_component_with_ref (fun _ _ => Examples.ds_ns)
      Examples.empty_datastream "x-cpe-dictionary.xml" "ref1"
    = add_to_child_element Examples.empty_datastream container
        (new_component_ref Examples.ds_ns "x-cpe-dictionary.xml" "ref1")
    /\ (container = "checklists" <-> ends_with "x-cpe-dictionary.xml" "-xccdf.xml")
    /\ (container = "checks" <-> ends_with "x-cpe-dictionary.xml" "-oval.xml")
    /\ (container = "dictionaries" <-> ends_with "x-cpe-dictionary.xml" "-cpe-dictionary.xml")
    /\ (container = "extended-components" <->
        ~ ends_with "x-cpe-dictionary.xml" "-xccdf.xml"
        /\ ~ ends_with "x-cpe-dictionary.xml" "-oval.xml"
        /\ ~ ends_with "x-cpe-dictionary.xml" "-cpe-dictionary.xml").
Proof.
  apply (compose_add_classification (fun _ _ => Examples.ds_ns) Examples.empty_datastream
           "x-cpe-dictionary.xml" "ref1").
  simpl. lia.
Defined.

(** X19.  What [ds_ids_compose_add_component_with_ref] does to the
    datastream.  It picks one of the four container names.  When the
    datastream has an element child of that name, the new component-ref
    becomes the last child of the first such child: the children the
    container had stay, in their order, and the other children of the
    datastream, its name and its attributes are as before.  When the
    datastream has no such child, the component-ref is dropped without a
    report and the datastream is as before. *)
Theorem compose_add_appends_last (xmlSearchNsByHref : xmlNode -> string -> option xmlNs)
    (datastream : xmlNode) (filepath cref_id : string) :
  let result :=
    ds_ids_compose_add_component_with_ref xmlSearchNsByHref datastream filepath cref_id in
  let cref :=
    new_component_ref (xmlSearchNsByHref datastream datastream_ns_uri) filepath cref_id in
  exists container,
    container ∈ container_names
    /\ (forall cref_parent,
          node_get_child_element datastream (Some container) = Some cref_parent ->
          exists before after cref_parent',
            node_children datastream = before ++ cref_parent :: after
            /\ node_children result = before ++ cref_parent' :: after
            /\ node_children cref_parent' = node_children cref_parent ++ [cref]
            /\ node_name cref_parent' = node_name cref_parent
            /\ node_properties cref_parent' = node_properties cref_parent
            /\ node_name result = node_name datastream
            /\ node_properties result = node_properties datastream)
    /\ (node_get_child_element datastream (Some container) = None -> result = datastream).
Proof.
  cbv zeta. rewrite compose_add_is_add.
  set (cref := new_component_ref _ filepath cref_id).
  set (container :=
         if strendswith filepath "-xccdf.xml" then "checklists"
         else if strendswith filepath "-oval.xml" then "checks"
         else if strendswith filepath "-cpe-oval.xml"
                 || strendswith filepath "-cpe-dictionary.xml" then "dictionaries"
         else "extended-components").
  exists container. split; [|split].
  - subst container. unfold container_names.
    destruct (strendswith filepath "-xccdf.xml"); [set_solver|].
    destruct (strendswith filepath "-oval.xml"); [set_solver|].
    destruct (_ || _); set_solver.
  - intros c Hc.
    destruct (add_to_child_element_found datastream container cref c Hc)
      as (before & after & Hch & _ & Hn & Hch' & Hkids & Hname & Hprops & _).
    exists before, after, (xmlAddChild c cref).
    repeat split; try done; unfold is_named_element in Hn; by destruct c.
  - apply add_to_child_element_missing.
Qed.

Lemma scan_ids_passes A B cref cid id :
  xmlGetProp cref "id" = Some cid -> cid <> id ->
  scan_ids (A ++ cref :: B) id = scan_ids (A ++ B) id.
Proof.
  intros Hid Hne. rewrite !scan_ids_app. simpl. rewrite Hid.
  destruct (streq cid id) eqn:E; [by apply streq_true in E|done].
Qed.

Lemma scan_ids_hits A B cref id :
  forallb has_id A = true ->
  xmlGetProp cref "id" = Some id ->
  exists r,
    scan_ids (A ++ cref :: B) id = Ret (Some r)
    /\ xmlGetProp r "id" = Some id
    /\ (forallb (fun x => negb (id_is id x)) A = true -> r = cref).
Proof.
  intros HA Hid. induction A as [|x A IH]; simpl.
  - rewrite Hid. unfold streq. rewrite String.eqb_refl. by exists cref.
  - simpl in HA. apply andb_true_iff in HA as [Hx HA]. unfold has_id in Hx.
    unfold id_is. destruct (xmlGetProp x "id") as [v|] eqn:Hv; [|done].
    destruct (streq v id) eqn:E.
    + apply streq_true in E as ->. exists x. by repeat split.
    + destruct (IH HA) as (r & Hr & Hrid & Hfirst). exists r. by repeat split.
Qed.

Lemma scanned_after_add datastream container cref c :
  node_get_child_element datastream (Some container) = Some c ->
  is_named_element cref "component-ref" = true ->
  exists A B,
    scanned_component_refs datastream = A ++ B
    /\ scanned_component_refs (add_to_child_element datastream container cref)
       = A ++ cref :: B.
Proof.
  intros Hc Hcref.
  destruct (add_to_child_element_found datastream container cref c Hc)
    as (before & after & Hch & _ & Hn & Hch' & Hkids & _ & _ & Hel').
  unfold is_named_element in Hn. apply andb_true_iff in Hn as [Hel _].
  unfold scanned_component_refs. rewrite Hch, Hch', !flat_map_app. cbn [flat_map].
  rewrite Hel, Hel', Hkids.
  assert (component_refs_of (node_children c ++ [cref])
          = component_refs_of (node_children c) ++ [cref]) as ->.
  { unfold component_refs_of. rewrite List.filter_app. cbn [List.filter].
    by rewrite Hcref. }
  eexists (_ ++ _), _. split; [by rewrite app_assoc|].
  by rewrite <- !app_assoc.
Qed.

(** X20.  Adding and finding.  In a datastream that has the four
    containers and whose component-refs all have an [id], a component-ref
    added with [ds_ids_compose_add_component_with_ref] under the id
    [cref_id] is found again: [ds_ids_find_component_ref] with [cref_id]
    returns a ref with that id, and it is the new ref when no ref of the
    datastream had the id before.  The lookup of every other id gives what
    it gave before the addition. *)
Theorem compose_add_then_find (xmlSearchNsByHref : xmlNode -> string -> option xmlNs)
    (doc : xmlDoc) (datastream : xmlNode) (filepath cref_id : string) :
  has_containers datastream = true ->
  forallb has_id (scanned_component_refs datastream) = true ->
  let datastream' :=
    ds_ids_compose_add_component_with_ref xmlSearchNsByHref datastream filepath cref_id in
  (exists component_ref,
     ds_ids_find_component_ref doc datastream' cref_id = Ret (Some component_ref)
     /\ xmlGetProp component_ref "id" = Some cref_id
     /\ (forallb (fun r => negb (id_is cref_id r)) (scanned_component_refs datastream) = true ->
         component_ref
         = new_component_ref (xmlSearchNsByHref datastream datastream_ns_uri)
             filepath cref_id))
  /\ forall id,
       id <> cref_id ->
       ds_ids_find_component_ref doc datastream' id
       = ds_ids_find_component_ref doc datastream id.
Proof.
  intros Hcont Hids. cbv zeta.
  destruct (compose_add_container xmlSearchNsByHref datastream filepath cref_id)
    as (container & Hin & ->).
  unfold has_containers in Hcont. rewrite forallb_forall in Hcont.
  specialize (Hcont container (proj1 (list_elem_of_In _ _) Hin)).
  destruct (node_get_child_element datastream (Some container)) as [c|] eqn:Hc; [|done].
  set (cref := new_component_ref _ filepath cref_id).
  destruct (scanned_after_add datastream container cref c Hc eq_refl)
    as (A & B & HAB & HAB').
  rewrite !find_component_ref_scan, HAB'. rewrite HAB in Hids.
  rewrite forallb_app in Hids. apply andb_true_iff in Hids as [HA HB].
  split.
  - destruct (scan_ids_hits A B cref cref_id HA eq_refl) as (r & Hr & Hid & Hfirst).
    exists r. split; [done|]. split; [done|].
    rewrite HAB, forallb_app. intros [HnA _]%andb_true_iff. by apply Hfirst.
  - intros id Hne. rewrite !find_component_ref_scan, HAB, HAB'.
    apply (scan_ids_passes A B cref cref_id id); [done|]. by intros ->.
Qed.

Lemma compose_add_then_find_witness :
  let datastream' :=
    ds_ids_compose_add_component_with_ref (fun _ _ => Examples.ds_ns) MoreExamples.ds_filled
      "new-oval.xml" "r3" in
  (exists component_ref,
     ds_ids_find_component_ref MoreExamples.doc_two_datastreams datastream' "r3"
     = Ret (Some component_ref)
     /\ xmlGetProp component_ref "id" = Some "r3"
     /\ (forallb (fun r => negb (id_is "r3" r))
           (scanned_component_refs MoreExamples.ds_filled) = true ->
         component_ref = new_component_ref Examples.ds_ns "new-oval.xml" "r3"))
  /\ forall id,
       id <> "r3" ->
       ds_ids_find_component_ref MoreExamples.doc_two_datastreams datastream' id
       = ds_ids_find_component_ref MoreExamples.doc_two_datastreams MoreExamples.ds_filled id.
Proof.
  apply (compose_add_then_find (fun _ _ => Examples.ds_ns) MoreExamples.doc_two_datastreams
           MoreExamples.ds_filled "new-oval.xml" "r3"); reflexivity.
Defined.

(** ** The store after [ds_ids_dump_component] *)

Lemma sm_bind_inv {A B} (m : Store.SM A) (f : A -> Store.SM B) σ σ' b :
  (m ≫= f) σ = (σ', ([], Ret b)) ->
  exists σ1 a, m σ = (σ1, ([], Ret a)) /\ f a σ1 = (σ', ([], Ret b)).
Proof.
  unfold mbind, Store.SM_bind, Store.sm_bind.
  destruct (m σ) as [σ1 [t [a| |]]]; try done.
  destruct (f a σ1) as [σ2 [t' o]] eqn:E. intros [= -> Ht ->].
  apply app_eq_nil in Ht as [-> ->]. eauto.
Qed.

Section CloneFootprint.

Variables (fuel : nat) (new_doc : positive).

(** What a copy adds to the store: nodes only, and all of them are met by
    the walk from the copy, in every store that holds the added cells. *)
Hypothesis clone_adds :
  forall src parent (σ σ' : gmap positive Store.cell) a,
    Store.clone_node fuel src parent new_doc σ = (σ', ([], Ret a)) ->
    σ ⊆ σ'
    /\ (forall x c, σ !! x = None -> σ' !! x = Some c -> exists n, c = Store.CNode n)
    /\ exists l,
         (forall x, σ !! x = None -> is_Some (σ' !! x) -> x ∈ l)
         /\ forall σ1, Store.keeps_added σ σ' σ1 ->
              Store.walk fuel a σ1 = (σ1, ([], Ret l)).

Lemma clone_kids_footprint parent l :
  forall (σ σ' : gmap positive Store.cell) bs,
    Store.map_addrs (fun k => Store.clone_node fuel k parent new_doc) l σ
    = (σ', ([], Ret bs)) ->
    σ ⊆ σ'
    /\ (forall x c, σ !! x = None -> σ' !! x = Some c -> exists n, c = Store.CNode n)
    /\ exists ls,
         (forall x, σ !! x = None -> is_Some (σ' !! x) -> x ∈ concat ls)
         /\ forall σ1, Store.keeps_added σ σ' σ1 ->
              Store.map_addrs (Store.walk fuel) bs σ1 = (σ1, ([], Ret ls)).
Proof.
  induction l as [|k l IH]; intros σ σ' bs Hrun.
  - injection Hrun as <- <-. split; [done|]. split; [intros x c Hx Hc; congruence|].
    exists []. split; [|done]. intros x Hx [c Hc]. congruence.
  - cbn [Store.map_addrs] in Hrun.
    apply sm_bind_inv in Hrun as (σa & b & Hb & Hrun).
    apply sm_bind_inv in Hrun as (σ2 & bs' & Hbs & Hret). injection Hret as <- <-.
    destruct (clone_adds _ _ _ _ _ Hb) as (Hsub1 & Hnodes1 & l1 & Hl1 & Hwalk).
    destruct (IH _ _ _ Hbs) as (Hsub2 & Hnodes2 & ls & Hls & Hwalks).
    split; [by etrans|]. split.
    + intros x c Hx Hc. destruct (σa !! x) as [c'|] eqn:E.
      * pose proof (lookup_weaken _ _ _ _ E Hsub2) as E'. rewrite Hc in E'.
        injection E' as ->. by eapply Hnodes1.
      * by eapply Hnodes2.
    + exists (l1 :: ls). split.
      * intros x Hx Hx'. simpl. apply elem_of_app.
        destruct (σa !! x) as [c|] eqn:E; [left; apply Hl1; [done|by eexists]|].
        right. by apply Hls.
      * intros σ1 Hkeep. cbn [Store.map_addrs].
        rewrite (sm_bind_pure _ _ σ1 σ1 l1).
        2:{ apply Hwalk. intros x c Hx Hnone. apply Hkeep; [|done].
            by eapply lookup_weaken. }
        rewrite (sm_bind_pure _ _ σ1 σ1 ls); [done|].
        apply Hwalks. intros x c Hx Hnone. apply Hkeep; [done|].
        destruct (σ !! x) as [c'|] eqn:E; [|done].
        pose proof (lookup_weaken _ _ _ _ E Hsub1). congruence.
Qed.

End CloneFootprint.

Lemma clone_footprint fuel new_doc :
  forall src parent (σ σ' : gmap positive Store.cell) a,
    Store.clone_node fuel src parent new_doc σ = (σ', ([], Ret a)) ->
    σ ⊆ σ'
    /\ (forall x c, σ !! x = None -> σ' !! x = Some c -> exists n, c = Store.CNode n)
    /\ exists l,
         (forall x, σ !! x = None -> is_Some (σ' !! x) -> x ∈ l)
         /\ forall σ1, Store.keeps_added σ σ' σ1 ->
              Store.walk fuel a σ1 = (σ1, ([], Ret l)).
Proof.
  induction fuel as [|fuel IH]; intros src parent σ σ' a Hrun; [done|].
  cbn [Store.clone_node] in Hrun.
  apply sm_bind_inv in Hrun as (σ0 & n & Hn & Hrun).
  destruct (get_node_cases σ src) as [(n' & _ & Hg)|Hg]; rewrite Hg in Hn; [|done].
  injection Hn as <- <-.
  apply sm_bind_inv in Hrun as (σ1 & a0 & Ha & Hrun).
  unfold Store.alloc in Ha. injection Ha as <- <-.
  apply sm_bind_inv in Hrun as (σ2 & bs & Hkids & Hrun).
  apply sm_bind_inv in Hrun as (σ3 & [] & Hmod & Hret).
  unfold Store.modify in Hmod. injection Hmod as <-. injection Hret as <- <-.
  pose proof (is_fresh (dom σ)) as Hfresh. apply not_elem_of_dom in Hfresh.
  set (a := fresh (dom σ)) in *.
  set (n0 := Store.set_doc (Some new_doc)
               (Store.set_parent parent (Store.set_children [] n'))) in *.
  destruct (clone_kids_footprint fuel new_doc IH (Some a) _ _ _ _ Hkids)
    as (Hsub2 & Hnodes & ls & Hls & Hwalks).
  assert (σ2 !! a = Some (Store.CNode n0)) as Ha2.
  { eapply lookup_weaken; [|exact Hsub2]. by rewrite lookup_insert_eq. }
  split; [|split].
  - apply map_subseteq_spec. intros i x Hi.
    rewrite lookup_alter_ne by (intros ->; congruence).
    eapply lookup_weaken; [|exact Hsub2].
    rewrite lookup_insert_ne by (intros ->; congruence). done.
  - intros x c Hx Hc. destruct (decide (a = x)) as [<-|Hne].
    + rewrite lookup_alter_eq, Ha2 in Hc. injection Hc as <-. by eexists.
    + rewrite lookup_alter_ne in Hc by done. eapply Hnodes; [|done].
      by rewrite lookup_insert_ne.
  - exists (a :: concat ls). split.
    + intros x Hx [c Hc]. destruct (decide (a = x)) as [<-|Hne]; [apply list_elem_of_here|].
      apply list_elem_of_further. apply Hls; [by rewrite lookup_insert_ne|].
      rewrite lookup_alter_ne in Hc by done. by eexists.
    + intros σ' Hkeep. cbn [Store.walk].
      destruct (Hkeep a (Store.CNode (Store.set_children bs n0))) as (c1 & Hc1 & Hf);
        [by rewrite lookup_alter_eq, Ha2|done|].
      destruct c1 as [n1|v ch]; [|done]. simpl in Hf.
      injection Hf as _ _ _ _ _ Hch.
      sm_step (get_node_run _ _ _ Hc1). rewrite Hch.
      rewrite (sm_bind_pure _ _ σ' σ' ls); [done|].
      apply Hwalks. intros x c Hx Hnone.
      destruct (decide (a = x)) as [<-|Hne]; [by rewrite lookup_insert_eq in Hnone|].
      rewrite lookup_insert_ne in Hnone by done.
      apply Hkeep; [|done]. by rewrite lookup_alter_ne.
Qed.

Lemma for_addrs_free_lookup l (σ : gmap positive Store.cell) :
  exists σ',
    Store.for_addrs l Store.free σ = (σ', ([], Ret tt))
    /\ (forall x, x ∈ l -> σ' !! x = None)
    /\ (forall x, σ !! x = None -> σ' !! x = None).
Proof.
  revert σ. induction l as [|a l IH]; intros σ.
  - exists σ. split; [done|]. split; [by intros x ?%elem_of_nil|done].
  - destruct (IH (delete a σ)) as (σ' & Hrun & Hin & Hout).
    exists σ'. split; [|split].
    + cbn [Store.for_addrs]. by rewrite (sm_bind_pure _ _ σ (delete a σ) tt).
    + intros x [->|Hx]%elem_of_cons; [|by apply Hin].
      apply Hout. apply lookup_delete_eq.
    + intros x Hx. apply Hout. destruct (decide (a = x)) as [<-|Hne].
      * apply lookup_delete_eq.
      * by rewrite lookup_delete_ne.
Qed.

Lemma xmlFreeDoc_frees fuel (σ : gmap positive Store.cell) new_doc res version l :
  σ !! new_doc = Some (Store.CDoc version [res]) ->
  Store.walk fuel res σ = (σ, ([], Ret l)) ->
  exists σ',
    Store.xmlFreeDoc fuel new_doc σ = (σ', ([], Ret tt))
    /\ σ' !! new_doc = None
    /\ (forall x, x ∈ l -> σ' !! x = None)
    /\ (forall x, σ !! x = None -> σ' !! x = None).
Proof.
  intros Hdoc Hwalk.
  destruct (for_addrs_free_lookup (concat [l]) σ) as (σ1 & Hfree & Hin & Hout).
  exists (delete new_doc σ1). split; [|split; [|split]].
  - unfold Store.xmlFreeDoc. sm_step (get_run _ _ _ Hdoc).
    assert (Store.map_addrs (Store.walk fuel) [res] σ = (σ, ([], Ret [l]))) as Hmap.
    { cbn [Store.map_addrs]. sm_step Hwalk.
      by erewrite (sm_bind_pure _ _ σ σ []) by reflexivity. }
    sm_step Hmap. by sm_step Hfree.
  - apply lookup_delete_eq.
  - intros x Hx. destruct (decide (new_doc = x)) as [<-|Hne]; [apply lookup_delete_eq|].
    rewrite lookup_delete_ne by done. apply Hin. simpl. by rewrite app_nil_r.
  - intros x Hx. destruct (decide (new_doc = x)) as [<-|Hne]; [apply lookup_delete_eq|].
    rewrite lookup_delete_ne by done. by apply Hout.
Qed.

(** From the new document to its release, with the store: nothing that
    was added during the call is left. *)
Lemma dump_clone_restores reconciled_ns fuel d (σ : gmap positive Store.cell)
    inner_root tree filename :
  (forall (σ : gmap positive Store.cell) a n,
     σ !! a = Some (Store.CNode n) -> (reconciled_ns σ a).1 = Store.n_ns n) ->
  Store.tree_at d σ inner_root = Ret tree ->
  is_element tree = true ->
  d <= fuel ->
  exists σ',
    (new_doc ← Store.xmlNewDoc "1.0";
     res_node ← Store.xmlDOMWrapCloneNode fuel inner_root new_doc;
     Store.xmlDocSetRootElement fuel new_doc res_node;;
     Store.xmlDOMWrapReconcileNamespaces reconciled_ns fuel res_node;;
     Store.xmlSaveFileEnc fuel filename new_doc "utf-8";;
     Store.xmlFreeDoc fuel new_doc) σ
    = (σ', ([SaveFileEnc filename tree "utf-8"], Ret tt))
    /\ forall x, σ !! x = None -> σ' !! x = None.
Proof.
  intros Hns Htree Hel Hle.
  pose proof (is_fresh (dom σ)) as Hfresh. apply not_elem_of_dom in Hfresh.
  set (new_doc := fresh (dom σ)) in *.
  set (σ1 := <[new_doc := Store.CDoc "1.0" []]> σ).
  assert (σ ⊆ σ1) as Hsub1 by (by apply insert_subseteq).
  destruct (clone_node_refines d fuel new_doc Hle σ1 inner_root tree None)
    as (σ2 & res & Hclone & Hsub2 & _ & (n & Hres & Hparent) & Hkeep).
  { by eapply StoreFrame.tree_at_weaken. }
  destruct (clone_footprint fuel new_doc _ _ _ _ _ Hclone)
    as (_ & Hnodes & l & Hl & Hwalk).
  assert (σ2 !! new_doc = Some (Store.CDoc "1.0" [])) as Hdoc2.
  { eapply lookup_weaken; [|exact Hsub2]. subst σ1. by rewrite lookup_insert_eq. }
  assert (Store.tree_at d σ2 res = Ret tree) as Htree2.
  { apply Hkeep. intros x c Hx _. eauto. }
  destruct (xmlDocSetRootElement_run fuel d σ2 new_doc res "1.0" n tree
              Hdoc2 Hres Hparent Htree2 Hle) as (σ5 & Hroot & Hdoc5 & Hsame5).
  assert (Store.tree_at d σ5 res = Ret tree) as Htree5
      by (by rewrite <- (tree_at_same d σ2 σ5 res Hsame5)).
  destruct (xmlDOMWrapReconcileNamespaces_run reconciled_ns fuel d σ5 res tree
              Hns Htree5 Hle) as (σ6 & Hrec & Hsame6).
  pose proof (same_cells_lookup_doc _ _ _ _ _ Hsame6 Hdoc5) as Hdoc6.
  assert (Store.tree_at d σ6 res = Ret tree) as Htree6
      by (by rewrite <- (tree_at_same d σ5 σ6 res (same_cells_nodes _ _ Hsame6))).
  assert (Store.keeps_added σ1 σ2 σ6) as Hkeep6.
  { intros x c Hx Hnone. destruct (Hnodes x c Hnone Hx) as [nx ->].
    pose proof (Hsame5 x) as H5. pose proof (Hsame6 x) as H6. rewrite Hx in H5.
    destruct (σ5 !! x) as [c5|]; [|done].
    destruct (σ6 !! x) as [c6|]; [|done].
    exists c6. split; [done|].
    destruct c5 as [n5|v5 ch5]; [|done]. simpl in *. congruence. }
  destruct (xmlFreeDoc_frees fuel σ6 new_doc res "1.0" l Hdoc6 (Hwalk σ6 Hkeep6))
    as (σ7 & Hfree & Hgone & Hin & Hout).
  exists σ7. split.
  - erewrite (sm_bind_pure _ _ σ σ1 new_doc) by reflexivity.
    unfold Store.xmlDOMWrapCloneNode. sm_step Hclone. sm_step Hroot. sm_step Hrec.
    unfold mbind, Store.SM_bind, Store.sm_bind.
    rewrite (xmlSaveFileEnc_run fuel d σ6 new_doc res "1.0" tree filename "utf-8"
               Hdoc6 Htree6 Hel Hle).
    by rewrite Hfree.
  - intros x Hx. destruct (decide (new_doc = x)) as [<-|Hne]; [done|].
    destruct (σ2 !! x) as [c|] eqn:E2.
    + apply Hin, Hl; [|by eexists]. subst σ1. by rewrite lookup_insert_ne.
    + apply Hout. pose proof (Hsame5 x) as H5. pose proof (Hsame6 x) as H6.
      rewrite E2 in H5. destruct (σ5 !! x) as [c5|]; [done|].
      by destruct (σ6 !! x) as [c6|].
Qed.

(** X21.  The store after a dump.  When the store holds a document whose
    root element reads as [tree], the fuel covers the depth of the tree
    and the reconciliation leaves every node the namespace it is bound
    to, [ds_ids_dump_component] ends with the store it started from: the
    new document and the clone are released, no cell is left over, the
    cells of the source document are as they were.  Its events and its
    outcome are those of the call on [tree]. *)
Theorem store_dump_restores_store
    (reconciled_ns : gmap positive Store.cell -> positive -> option xmlNs * list xmlNs)
    (fuel d : nat) (σ : gmap positive Store.cell) (doc : positive) (version : string)
    (ch : list positive) (root : positive) (tree : xmlNode)
    (component_id filename : string) :
  (forall (σ : gmap positive Store.cell) a n,
     σ !! a = Some (Store.CNode n) -> (reconciled_ns σ a).1 = Store.n_ns n) ->
  σ !! doc = Some (Store.CDoc version ch) ->
  Store.first_child_element ch None σ = (σ, ([], Ret (Some root))) ->
  Store.tree_at d σ root = Ret tree ->
  d <= fuel ->
  Store.ds_ids_dump_component reconciled_ns fuel component_id doc filename σ
  = (σ, ds_ids_dump_component component_id tree filename).
Proof.
  intros Hns Hdoc Hroot Htree Hle.
  destruct (StoreFrame.frames_ds_ids_dump_component σ reconciled_ns fuel component_id doc
              filename σ (StoreFrame.extends_refl σ)) as [[Hsub _] _].
  pose proof (store_dump_refines reconciled_ns fuel d σ doc version ch root tree
                component_id filename Hns Hdoc Hroot Htree Hle) as Hevents.
  destruct (Store.ds_ids_dump_component reconciled_ns fuel component_id doc filename σ)
    as [σ' run] eqn:Hrun.
  simpl in Hsub, Hevents. subst run. f_equal.
  apply map_eq. intros x. destruct (σ !! x) as [c|] eqn:Hx.
  { by eapply lookup_weaken. }
  revert Hrun.
  destruct (first_child_element_found _ _ _ _ _ _ Hroot) as (r & Hr & Her).
  destruct (tree_at_node _ _ _ _ Htree) as (d1 & r' & kids & -> & Hr' & Hkids & ->).
  rewrite Hr in Hr'. injection Hr' as <-.
  unfold Store.ds_ids_dump_component.
  assert (Store.xmlDocGetRootElement doc σ = (σ, ([], Ret (Some root)))) as Hget.
  { unfold Store.xmlDocGetRootElement. by sm_step (get_run _ _ _ Hdoc). }
  sm_step Hget. sm_step (get_node_run _ _ _ Hr).
  destruct (find_component_refines d1 σ (Store.n_children r) kids component_id Hkids)
    as (o & Hfind & Hmatch).
  destruct o as [[component|]| |]; [| | |done].
  - destruct Hmatch as (k & Hk & Hfound).
    sm_step Hfind.
    pose proof (find_component_element _ _ _ Hfound) as Hkel.
    destruct (tree_at_node _ _ _ _ Hk) as (d2 & nc & kkids & -> & Hnc & Hkkids & ->).
    unfold Store.node_get_child_element.
    destruct (first_child_element_refines d2 σ (Store.n_children nc) kkids None Hkkids)
      as (inner & Hinner & Hm).
    assert ((n ← Store.get_node component;
             Store.first_child_element (Store.n_children n) None) σ
            = (σ, ([], Ret inner))) as Hchild.
    { by sm_step (get_node_run _ _ _ Hnc). }
    sm_step Hchild.
    destruct inner as [inner_root|].
    + destruct Hm as (p & _ & Hp & Hfirst).
      destruct (first_child_element_in _ _ _ Hfirst) as [_ Hpel].
      destruct (dump_clone_restores reconciled_ns fuel d2 σ inner_root p filename
                  Hns Hp Hpel ltac:(lia)) as (σ7 & Hrun7 & Hnone).
      rewrite Hrun7. intros [= <-]. by apply Hnone.
    + unfold Store.sm_emit. by intros [= <-].
  - sm_step Hfind. unfold Store.sm_emit. by intros [= <-].
  - rewrite (sm_bind_undefined _ _ σ σ [] Hfind). by intros [= <-].
Qed.

Lemma store_dump_restores_store_witness :
  Store.ds_ids_dump_component StoreExamples.declare_own_ns 5 "c1" 1 "out/c1"
    StoreExamples.σ_doc
  = (StoreExamples.σ_doc, ds_ids_dump_component "c1" StoreExamples.doc "out/c1").
Proof.
  apply (store_dump_restores_store StoreExamples.declare_own_ns 5 4 StoreExamples.σ_doc 1
           "1.0" [2%positive] 2 StoreExamples.doc "c1" "out/c1").
  - exact declare_own_ns_keeps_ns.
  - reflexivity.
  - vm_compute. reflexivity.
  - vm_compute. reflexivity.
  - lia.
Defined.
